(** * HuntOverlay: the engine beneath the overlay window

    A shallow embedding of the non-visual core of [HuntOverlay.py]: the
    coordinate transform, the data-format adapter, the per-map point cache,
    the identity of a point of interest, the hidden sets, the hover
    hit-test, the per-tick key handling and the configuration merge;
    then what the window paints, the handlers of the settings panel, the
    style data and what is saved to the configuration file.

    Python's [float] is IEEE 754 binary64: it is modelled by Rocq's
    primitive floats, whose operations are the same binary64 operations.
    Python's [int] is [Z]; [str] is [string]; a [dict] read from JSON is an
    association list in insertion order; the overlay's own dictionaries
    keyed by category or map name are [gmap]s; a raised exception is the
    [Raise] outcome of a computation. *)

From Stdlib Require Import ZArith Floats Lia Bool List.
From stdpp Require Import base strings list gmap pretty sorting.
Import ListNotations.

Set Default Proof Using "Type".
Set Warnings "-inexact-float,-register-all".

(* ================================================================== *)
(** ** Binary64 facts used by the development *)

Module PyFloat.

(** [sf_nan a]: the specification float [a] is the NaN. *)
Definition sf_nan (a : spec_float) : bool :=
  match a with S754_nan => true | _ => false end.

(** [sf_real a]: [a] is a zero or a finite number (neither NaN nor an
    infinity). *)
Definition sf_real (a : spec_float) : bool :=
  match a with S754_zero _ | S754_finite _ _ _ => true | _ => false end.

(** Python's [math.isfinite]. *)
Definition is_real (f : float) : bool := sf_real (Prim2SF f).

(** [float(n)] for a Python [int]: the nearest binary64 value, ties to
    even; [None] stands for the [OverflowError] Python raises when the
    integer is too large. *)
Definition float_of_Z (z : Z) : option float :=
  let f := SF2Prim (binary_normalize prec emax z 0 false) in
  if is_infinity f then None else Some f.

(** The integer nearest to [m * 2^e], ties to the even one. *)
Definition round_half_even (m : positive) (e : Z) : Z :=
  match e with
  | Z0 => Zpos m
  | Zpos p => Z.shiftl (Zpos m) (Zpos p)
  | Zneg p =>
      let d := Z.shiftl 1 (Zpos p) in
      let q := (Zpos m / d)%Z in
      let r := (Zpos m mod d)%Z in
      match (2 * r ?= d)%Z with
      | Lt => q
      | Gt => (q + 1)%Z
      | Eq => if Z.even q then q else (q + 1)%Z
      end
  end.

(** [round(f)] of one argument on a Python [float]: the nearest integer,
    ties to even; [None] when Python raises ([ValueError] on NaN,
    [OverflowError] on an infinity). *)
Definition round_to_Z (f : float) : option Z :=
  match Prim2SF f with
  | S754_zero _ => Some 0%Z
  | S754_finite s m e => Some (cond_Zopp s (round_half_even m e))
  | S754_infinity _ | S754_nan => None
  end.

(** The mantissa of a shift record is not negative. *)
Definition nonneg_m (r : shr_record) : Prop := (0 <= shr_m r)%Z.

(** [f] is not a NaN. *)
Definition not_nan (f : float) : Prop := sf_nan (Prim2SF f) = false.

End PyFloat.

(* ================================================================== *)
(** ** Python values, dictionaries and exceptions *)

(** The exceptions the modelled code can raise. *)
Inductive exn :=
| TypeError | ValueError | KeyError | IndexError | OverflowError | AttributeError
| RuntimeError (msg : string).

(** The outcome of a computation that may raise. *)
Inductive result (A : Type) :=
| Ok (a : A)
| Raise (e : exn).
Arguments Ok {A} a.
Arguments Raise {A} e.

Global Instance result_ret : MRet result := fun A a => Ok a.
Global Instance result_bind : MBind result := fun A B f m =>
  match m with Ok a => f a | Raise e => Raise e end.
Global Instance result_fmap : FMap result := fun A B f m =>
  match m with Ok a => Ok (f a) | Raise e => Raise e end.

(** [try: m except: d] is Python's [try: m / except: d] with a bare
    [except]. *)
Definition try_except {A} (m : result A) (d : A) : A :=
  match m with Ok a => a | Raise _ => d end.

Definition of_option {A} (o : option A) (e : exn) : result A :=
  match o with Some a => Ok a | None => Raise e end.

(** What [json.load] returns: [None], [bool], [int], [float], [str],
    [list] and [dict] with string keys (in insertion order, keys unique). *)
Inductive pyval :=
| PNone
| PBool (b : bool)
| PInt (n : Z)
| PFloat (f : float)
| PStr (s : string)
| PList (l : list pyval)
| PDict (d : list (string * pyval)).

Abbreviation pydict := (list (string * pyval)).

(** [d.get(k)] on a [dict]. *)
Fixpoint dict_get (d : pydict) (k : string) : option pyval :=
  match d with
  | [] => None
  | (k', v) :: d' => if String.eqb k' k then Some v else dict_get d' k
  end.

(** [d[k] = v]: the value is replaced in place, a new key goes last. *)
Fixpoint dict_set (d : pydict) (k : string) (v : pyval) : pydict :=
  match d with
  | [] => [(k, v)]
  | (k', v') :: d' =>
      if String.eqb k' k then (k, v) :: d' else (k', v') :: dict_set d' k v
  end.

(** [d.update(e)]. *)
Definition dict_update (d e : pydict) : pydict :=
  fold_left (fun acc kv => dict_set acc (fst kv) (snd kv)) e d.

Definition dict_has (d : pydict) (k : string) : bool :=
  match dict_get d k with Some _ => true | None => false end.

(** [isinstance(v, dict)] and [isinstance(v, list)]. *)
Definition is_dict (v : pyval) : bool :=
  match v with PDict _ => true | _ => false end.
Definition is_list (v : pyval) : bool :=
  match v with PList _ => true | _ => false end.

(** Truth value of an object, as [if v:] and [bool(v)] take it. *)
Definition truthy (v : pyval) : bool :=
  match v with
  | PNone => false
  | PBool b => b
  | PInt n => negb (n =? 0)%Z
  | PFloat f => negb (f =? 0)%float
  | PStr s => negb (String.eqb s "")
  | PList l => match l with [] => false | _ => true end
  | PDict d => match d with [] => false | _ => true end
  end.

(** Qt's integer rectangle [QRect(left, top, width, height)]. *)
Record QRect := mkQRect {
  rect_left : Z; rect_top : Z; rect_width : Z; rect_height : Z
}.

(** The conversion Python applies to an [int] operand of a mixed
    [int]/[float] operation; exact on Qt's 32-bit integers. *)
Definition Z2float (z : Z) : float :=
  SF2Prim (binary_normalize prec emax z 0 false).

(* ================================================================== *)
(** ** Constants of the module *)

Definition MAPS : list string :=
  ["Stillwater Bayou"; "DeSalle"; "Lawson Delta"; "Mammon's Gulch"].

(** [self.type_order], fixed in [Overlay.__init__]. *)
Definition type_order : list string :=
  ["possible_xp"; "spawns"; "armories"; "towers"; "big_towers";
   "workbenches"; "wild_targets"; "beetles"; "easter_eggs";
   "melee_weapons"; "cash_registers"].

(** [default_rect_ratio()]. *)
Definition default_rect_ratio : pyval :=
  PDict [("rx", PFloat (790 / 2560)%float);
         ("ry", PFloat (210 / 1440)%float);
         ("rw", PFloat (983 / 2560)%float);
         ("rh", PFloat (984 / 1440)%float)].

(* ================================================================== *)
(** ** CoordinateTransform *)

(** [rotate90cw_norm(x, y)] on two floats ([float(x)] is [x] there). *)
Definition rotate90cw_norm (x y : float) : float * float :=
  let xr := y in
  let yr := (4095 - x)%float in
  let u := (xr / 4095)%float in
  let v := (yr / 4095)%float in
  let u := if (u <? 0)%float then 0%float else u in
  let u := if (1 <? u)%float then 1%float else u in
  let v := if (v <? 0)%float then 0%float else v in
  let v := if (1 <? v)%float then 1%float else v in
  (u, v).

(** The two guarded assignments [if g < 0.10: g = 0.10] and
    [if g > 5.00: g = 5.00] that follow every write of
    [self.global_scale]. *)
Definition clamp_scale (g : float) : float :=
  let g := if (g <? 0.10)%float then 0.10%float else g in
  let g := if (5.00 <? g)%float then 5.00%float else g in
  g.

(** [lo <= g <= hi] as Python evaluates it. *)
Definition in_range (lo hi g : float) : bool :=
  ((lo <=? g)%float && (g <=? hi)%float)%bool.

(* ================================================================== *)
(** ** DataFormatAdapter *)

(** [detect_data_format(game_data)]. *)
Definition detect_data_format (game_data : pyval) : string :=
  match game_data with
  | PList (a :: _) =>
      match a with
      | PDict d =>
          if (dict_has d "i" && (dict_has d "r" || dict_has d "a"))%bool
          then "indexed_r"
          else if dict_has d "n" then "named" else "unknown"
      | _ => "unknown"
      end
  | _ => "unknown"
  end.

(** [v == s] for a string [s]. *)
Definition py_eq_str (v : option pyval) (s : string) : bool :=
  match v with Some (PStr t) => String.eqb t s | _ => false end.

(** [v == n] for a small integer [n]: Python compares numbers by value,
    whatever their type ([1 == 1.0 == True]). *)
Definition py_eq_int (v : option pyval) (n : Z) : bool :=
  match v with
  | Some (PInt k) => (k =? n)%Z
  | Some (PBool b) => ((if b then 1 else 0) =? n)%Z
  | Some (PFloat f) => (f =? Z2float n)%float
  | _ => false
  end.

(** [MAPS.index(map_name)]: [None] stands for the [ValueError]. *)
Fixpoint list_index (l : list string) (s : string) : option nat :=
  match l with
  | [] => None
  | t :: l' => if String.eqb t s then Some 0%nat else S <$> list_index l' s
  end.

(** The first entry of the dataset that is a [dict] and passes [test]. *)
Fixpoint first_block (test : pydict -> bool) (l : list pyval) : option pydict :=
  match l with
  | [] => None
  | PDict m :: l' => if test m then Some m else first_block test l'
  | _ :: l' => first_block test l'
  end.

(** What [for m in game_data] walks through: the items of a list; the
    keys of a dict and the characters of a string are strings, never
    dicts, so no entry of them is a block; other values are not
    iterable. *)
Definition iter_blocks (game_data : pyval) : result (list pyval) :=
  match game_data with
  | PList l => Ok l
  | PDict _ | PStr _ => Ok []
  | _ => Raise TypeError
  end.

(** [get_map_block(game_data, fmt, map_name)]; [Ok None] is Python's
    [None]. *)
Definition get_map_block (game_data : pyval) (fmt map_name : string)
  : result (option pydict) :=
  if String.eqb fmt "named" then
    l ← iter_blocks game_data;
    Ok (first_block (fun m => py_eq_str (dict_get m "n") map_name) l)
  else if String.eqb fmt "indexed_r" then
    idx ← of_option (list_index MAPS map_name) ValueError;
    l ← iter_blocks game_data;
    Ok (first_block (fun m => py_eq_int (dict_get m "i") (Z.of_nat idx)) l)
  else Ok None.

(** [get_category_list(map_block, fmt, category)]. *)
Definition get_category_list (map_block : pyval) (fmt category : string)
  : list pyval :=
  match map_block with
  | PDict b =>
      if String.eqb fmt "named" then
        match dict_get b category with Some (PList v) => v | _ => [] end
      else if String.eqb fmt "indexed_r" then
        match dict_get b "r" with
        | Some (PDict r) =>
            match dict_get r category with Some (PList v) => v | _ => [] end
        | _ => []
        end
      else []
  | _ => []
  end.

(* ================================================================== *)
(** ** PointCache *)

(** A cached point: the [dict] with keys [u], [v], [x], [y], [raw] and
    [src] that [build_for_category] appends. *)
Record point := mkPoint {
  pt_u : float; pt_v : float;
  pt_x : float; pt_y : float;
  pt_raw : pyval;
  pt_src : string
}.

(** [len(v)]. *)
Definition py_len (v : pyval) : result nat :=
  match v with
  | PList l => Ok (length l)
  | PStr s => Ok (String.length s)
  | PDict d => Ok (length d)
  | _ => Raise TypeError
  end.

(** [v[i]] for a literal index [i]: a dict read from JSON has string keys
    only, so an integer key is a [KeyError]. *)
Definition py_index (v : pyval) (i : nat) : result pyval :=
  match v with
  | PList l => of_option (l !! i) IndexError
  | PStr s =>
      of_option ((fun a => PStr (String a EmptyString)) <$> String.get i s)
                IndexError
  | PDict _ => Raise KeyError
  | _ => Raise TypeError
  end.

Section Engine.

(** Python's [float(s)] on a string (the literal grammar of the language);
    [None] stands for the [ValueError]. *)
Variable str_to_float : string -> option float.

(** [float(v)]. *)
Definition py_float (v : pyval) : result float :=
  match v with
  | PFloat f => Ok f
  | PInt n => of_option (PyFloat.float_of_Z n) OverflowError
  | PBool b => Ok (if b then 1%float else 0%float)
  | PStr s => of_option (str_to_float s) ValueError
  | _ => Raise TypeError
  end.

(** One turn of the loop of [build_for_category]: [Ok None] is a
    [continue], [Ok (Some pt)] an append; the [TypeError] of [len(c)] on a
    number is raised outside the [try] and is not caught. *)
Definition build_point (cat : string) (it : pyval) : result (option point) :=
  match it with
  | PDict d =>
      let c := default PNone (dict_get d "c") in
      if negb (truthy c) then Ok None
      else
        n ← py_len c;
        if (n <? 2)%nat then Ok None
        else
          Ok (try_except
                (c0 ← py_index c 0; x ← py_float c0;
                 c1 ← py_index c 1; y ← py_float c1;
                 let uv := rotate90cw_norm x y in
                 Ok (Some (mkPoint (fst uv) (snd uv) x y it cat)))
                None)
  | _ => Ok None
  end.

(** The loop [for it in items] with its accumulator [pts]. *)
Fixpoint build_points (cat : string) (items : list pyval) (pts : list point)
  : result (list point) :=
  match items with
  | [] => Ok pts
  | it :: items' =>
      o ← build_point cat it;
      match o with
      | None => build_points cat items' pts
      | Some pt => build_points cat items' (pts ++ [pt])
      end
  end.

(** The local function [build_for_category(cat)] of
    [_build_points_for_map], with its free variables [block] and
    [self.fmt] as arguments. *)
Definition build_for_category (block : pyval) (fmt cat : string)
  : result (list point) :=
  build_points cat (get_category_list block fmt cat) [].

(** A [for] loop over a list, threading an accumulator, stopped by the
    first exception. *)
Fixpoint for_each {A S} (f : S -> A -> result S) (l : list A) (s : S)
  : result S :=
  match l with
  | [] => Ok s
  | a :: l' => s' ← f s a; for_each f l' s'
  end.

(** [{k: [] for k in self.type_order}]. *)
Definition empty_out : gmap string (list point) :=
  fold_left (fun m k => <[k := []]> m) type_order ∅.

(** [self._build_points_for_map(map_name)]. *)
Definition build_points_for_map (game_data : pyval) (fmt map_name : string)
  : result (gmap string (list point)) :=
  block ← get_map_block game_data fmt map_name;
  let out := empty_out in
  match block with
  | None => Ok out
  | Some b =>
      if negb (truthy (PDict b)) then Ok out
      else
        out ← for_each
                (fun out cat =>
                   if String.eqb cat "possible_xp" then Ok out
                   else pts ← build_for_category (PDict b) fmt cat;
                        Ok (<[cat := pts]> out))
                type_order out;
        let union :=
          fold_left (fun union src => union ++ default [] (out !! src))
                    ["towers"; "big_towers"; "armories"] [] in
        Ok (<["possible_xp" := union]> out)
  end.

(** [self._rebuild_all_caches()], from an initial [self.cache]. *)
Definition rebuild_all_caches (game_data : pyval) (fmt : string)
    (cache : gmap string (gmap string (list point)))
  : result (gmap string (gmap string (list point))) :=
  for_each (fun cache m =>
              out ← build_points_for_map game_data fmt m;
              Ok (<[m := out]> cache))
           MAPS cache.

(* ================================================================== *)
(** ** IdentityResolver and HiddenStateStore *)

(** [int(round(f))] on a float. *)
Definition py_round (f : float) : result Z :=
  match Prim2SF f with
  | S754_nan => Raise ValueError
  | S754_infinity _ => Raise OverflowError
  | _ => of_option (PyFloat.round_to_Z f) ValueError
  end.

(** [self._hidden_key(tkey, pt)]. *)
Definition hidden_key (tkey : string) (pt : point) : result string :=
  xi ← py_round pt.(pt_x);
  yi ← py_round pt.(pt_y);
  if String.eqb tkey "possible_xp" then
    Ok (pt.(pt_src) +:+ ":" +:+ pretty xi +:+ ":" +:+ pretty yi)
  else
    Ok (pretty xi +:+ ":" +:+ pretty yi).

(** [self._is_hidden(tkey, pt)]. *)
Definition is_hidden (hidden_sets : gmap string (gset string))
    (tkey : string) (pt : point) : result bool :=
  k ← hidden_key tkey pt;
  Ok (bool_decide (k ∈ default ∅ (hidden_sets !! tkey))).

(** [self.hidden_sets.setdefault(tkey, set()).add(hk)]. *)
Definition hide (hidden_sets : gmap string (gset string))
    (tkey hk : string) : gmap string (gset string) :=
  <[tkey := default ∅ (hidden_sets !! tkey) ∪ {[hk]}]> hidden_sets.

(* ================================================================== *)
(** ** HoverHitTester *)

(** The [dict] stored in [self.hover]. *)
Record hover_info := mkHover {
  h_map : string; h_type : string; h_index : nat; h_pt_ref : point
}.

(** [self.types.get(tkey, {}).get("enabled", True)], as a truth value. *)
Definition type_enabled (types : pydict) (tkey : string) : result bool :=
  match dict_get types tkey with
  | None => Ok true
  | Some (PDict t) => Ok (truthy (default (PBool true) (dict_get t "enabled")))
  | Some _ => Raise AttributeError
  end.

(** The squared distance [d2] of the pointer to the screen position of a
    point. *)
Definition dist2 (mx my : float) (r : QRect) (pt : point) : float :=
  let cx := (Z2float r.(rect_left) + pt.(pt_u) * Z2float r.(rect_width))%float in
  let cy := (Z2float r.(rect_top) + pt.(pt_v) * Z2float r.(rect_height))%float in
  let dx := (mx - cx)%float in
  let dy := (my - cy)%float in
  (dx * dx + dy * dy)%float.

(** The inner loop [for idx, pt in enumerate(...)], from index [idx] on,
    threading [(best, best_d2)]. *)
Fixpoint scan_points (hidden_sets : gmap string (gset string))
    (prof tkey : string) (mx my : float) (r : QRect)
    (idx : nat) (pts : list point) (best : option hover_info * float)
  : result (option hover_info * float) :=
  match pts with
  | [] => Ok best
  | pt :: pts' =>
      hid ← is_hidden hidden_sets tkey pt;
      if hid : bool then
        scan_points hidden_sets prof tkey mx my r (S idx) pts' best
      else
        let d2 := dist2 mx my r pt in
        if (d2 <=? snd best)%float then
          scan_points hidden_sets prof tkey mx my r (S idx) pts'
                      (Some (mkHover prof tkey idx pt), d2)
        else
          scan_points hidden_sets prof tkey mx my r (S idx) pts' best
  end.

(** The outer loop [for tkey in self.type_order]. *)
Fixpoint scan_types (types : pydict) (hidden_sets : gmap string (gset string))
    (pts_by_type : gmap string (list point))
    (prof : string) (mx my : float) (r : QRect)
    (tkeys : list string) (best : option hover_info * float)
  : result (option hover_info * float) :=
  match tkeys with
  | [] => Ok best
  | tkey :: tkeys' =>
      en ← type_enabled types tkey;
      if negb en then
        scan_types types hidden_sets pts_by_type prof mx my r tkeys' best
      else
        best' ← scan_points hidden_sets prof tkey mx my r 0
                            (default [] (pts_by_type !! tkey)) best;
        scan_types types hidden_sets pts_by_type prof mx my r tkeys' best'
  end.

(** The body of [_update_hover] after its guard: the hit-test for a
    pointer at [(mx, my)], the active rectangle [r], the per-category
    settings, the hidden sets and the current map's points. *)
Definition hit_test (types : pydict) (hidden_sets : gmap string (gset string))
    (pts_by_type : gmap string (list point)) (prof : string)
    (mx my : float) (r : QRect) (hover_radius : Z)
  : result (option hover_info) :=
  fst <$> scan_types types hidden_sets pts_by_type prof mx my r type_order
                     (None, Z2float (hover_radius * hover_radius)).

(* ================================================================== *)
(** ** The overlay's state *)

(** The attributes of [Overlay] the engine reads and writes.
    [profiles] is [self.data["profiles"]]; [self.data["settings"]] is only
    written by [_save] on its way to the file and is left out.
    [hide_calls] is a ghost counter of the calls of [_hide_hovered].

    A set of [self.hidden_sets] is built at start-up from a list of the
    configuration file ([set(self.hidden.get(k, []))], line 682), which
    may hold strings, numbers, booleans and [null]; afterwards the only
    write of a set adds a string ([_hide_hovered]), and [self.hidden] is
    not written at all. So the set of category [k] is kept as two
    parts: its strings are [hidden_sets !! k], and its other members
    are the numbers, booleans and [null] of the list [hidden] has for
    [k] ([other_members]). *)
Record Overlay := mkOverlay {
  game_data : pyval;
  fmt : string;
  profiles : pydict;
  num_sw : bool;
  prof : string;
  visible : bool;
  master : bool;
  global_scale : float;
  types : pydict;
  hidden : pydict;
  hidden_sets : gmap string (gset string);
  rect : option QRect;
  pbt : bool;
  pH : bool;
  pT : bool;
  pHide : bool;
  hover : option hover_info;
  hover_radius : Z;
  cache : gmap string (gmap string (list point));
  hide_calls : nat
}.

Definition set_prof (v : string) (s : Overlay) : Overlay :=
  mkOverlay s.(game_data) s.(fmt) s.(profiles) s.(num_sw) v s.(visible)
    s.(master) s.(global_scale) s.(types) s.(hidden) s.(hidden_sets) s.(rect)
    s.(pbt) s.(pH) s.(pT) s.(pHide) s.(hover) s.(hover_radius) s.(cache)
    s.(hide_calls).
Definition set_visible (v : bool) (s : Overlay) : Overlay :=
  mkOverlay s.(game_data) s.(fmt) s.(profiles) s.(num_sw) s.(prof) v
    s.(master) s.(global_scale) s.(types) s.(hidden) s.(hidden_sets) s.(rect)
    s.(pbt) s.(pH) s.(pT) s.(pHide) s.(hover) s.(hover_radius) s.(cache)
    s.(hide_calls).
Definition set_master (v : bool) (s : Overlay) : Overlay :=
  mkOverlay s.(game_data) s.(fmt) s.(profiles) s.(num_sw) s.(prof) s.(visible)
    v s.(global_scale) s.(types) s.(hidden) s.(hidden_sets) s.(rect)
    s.(pbt) s.(pH) s.(pT) s.(pHide) s.(hover) s.(hover_radius) s.(cache)
    s.(hide_calls).
Definition set_global_scale (v : float) (s : Overlay) : Overlay :=
  mkOverlay s.(game_data) s.(fmt) s.(profiles) s.(num_sw) s.(prof) s.(visible)
    s.(master) v s.(types) s.(hidden) s.(hidden_sets) s.(rect)
    s.(pbt) s.(pH) s.(pT) s.(pHide) s.(hover) s.(hover_radius) s.(cache)
    s.(hide_calls).
Definition set_hidden_sets (v : gmap string (gset string)) (s : Overlay)
  : Overlay :=
  mkOverlay s.(game_data) s.(fmt) s.(profiles) s.(num_sw) s.(prof) s.(visible)
    s.(master) s.(global_scale) s.(types) s.(hidden) v s.(rect)
    s.(pbt) s.(pH) s.(pT) s.(pHide) s.(hover) s.(hover_radius) s.(cache)
    s.(hide_calls).
Definition set_rect (v : option QRect) (s : Overlay) : Overlay :=
  mkOverlay s.(game_data) s.(fmt) s.(profiles) s.(num_sw) s.(prof) s.(visible)
    s.(master) s.(global_scale) s.(types) s.(hidden) s.(hidden_sets) v
    s.(pbt) s.(pH) s.(pT) s.(pHide) s.(hover) s.(hover_radius) s.(cache)
    s.(hide_calls).
Definition set_pbt (v : bool) (s : Overlay) : Overlay :=
  mkOverlay s.(game_data) s.(fmt) s.(profiles) s.(num_sw) s.(prof) s.(visible)
    s.(master) s.(global_scale) s.(types) s.(hidden) s.(hidden_sets) s.(rect)
    v s.(pH) s.(pT) s.(pHide) s.(hover) s.(hover_radius) s.(cache)
    s.(hide_calls).
Definition set_pH (v : bool) (s : Overlay) : Overlay :=
  mkOverlay s.(game_data) s.(fmt) s.(profiles) s.(num_sw) s.(prof) s.(visible)
    s.(master) s.(global_scale) s.(types) s.(hidden) s.(hidden_sets) s.(rect)
    s.(pbt) v s.(pT) s.(pHide) s.(hover) s.(hover_radius) s.(cache)
    s.(hide_calls).
Definition set_pT (v : bool) (s : Overlay) : Overlay :=
  mkOverlay s.(game_data) s.(fmt) s.(profiles) s.(num_sw) s.(prof) s.(visible)
    s.(master) s.(global_scale) s.(types) s.(hidden) s.(hidden_sets) s.(rect)
    s.(pbt) s.(pH) v s.(pHide) s.(hover) s.(hover_radius) s.(cache)
    s.(hide_calls).
Definition set_pHide (v : bool) (s : Overlay) : Overlay :=
  mkOverlay s.(game_data) s.(fmt) s.(profiles) s.(num_sw) s.(prof) s.(visible)
    s.(master) s.(global_scale) s.(types) s.(hidden) s.(hidden_sets) s.(rect)
    s.(pbt) s.(pH) s.(pT) v s.(hover) s.(hover_radius) s.(cache)
    s.(hide_calls).
Definition set_hover (v : option hover_info) (s : Overlay) : Overlay :=
  mkOverlay s.(game_data) s.(fmt) s.(profiles) s.(num_sw) s.(prof) s.(visible)
    s.(master) s.(global_scale) s.(types) s.(hidden) s.(hidden_sets) s.(rect)
    s.(pbt) s.(pH) s.(pT) s.(pHide) v s.(hover_radius) s.(cache)
    s.(hide_calls).
Definition set_cache (v : gmap string (gmap string (list point)))
    (s : Overlay) : Overlay :=
  mkOverlay s.(game_data) s.(fmt) s.(profiles) s.(num_sw) s.(prof) s.(visible)
    s.(master) s.(global_scale) s.(types) s.(hidden) s.(hidden_sets) s.(rect)
    s.(pbt) s.(pH) s.(pT) s.(pHide) s.(hover) s.(hover_radius) v
    s.(hide_calls).
Definition set_hide_calls (v : nat) (s : Overlay) : Overlay :=
  mkOverlay s.(game_data) s.(fmt) s.(profiles) s.(num_sw) s.(prof) s.(visible)
    s.(master) s.(global_scale) s.(types) s.(hidden) s.(hidden_sets) s.(rect)
    s.(pbt) s.(pH) s.(pT) s.(pHide) s.(hover) s.(hover_radius) s.(cache) v.

(** A method of [Overlay]: it runs on the object's state, returns or
    raises, and leaves the state as mutated up to that point. *)
Definition act (A : Type) : Type := Overlay -> result A * Overlay.

Definition act_ret {A} (a : A) : act A := fun s => (Ok a, s).
Definition act_bind {A B} (m : act A) (f : A -> act B) : act B :=
  fun s => match m s with
           | (Ok a, s') => f a s'
           | (Raise e, s') => (Raise e, s')
           end.
(** A step that only updates attributes. *)
Definition modify (f : Overlay -> Overlay) : act unit := fun s => (Ok tt, f s).
(** The outcome of a pure computation, raised or returned in place. *)
Definition lift {A} (r : result A) : act A := fun s => (r, s).

(** A number of Python: an [int], a [float] or a [bool]. *)
Definition is_number (v : pyval) : bool :=
  match v with PBool _ | PInt _ | PFloat _ => true | _ => false end.

Definition is_null (v : pyval) : bool :=
  match v with PNone => true | _ => false end.

(** The members of the hidden set of category [k] that are not strings:
    the numbers and the [null] of the list it was built from. *)
Definition other_members (hidden : pydict) (k : string) : list pyval :=
  match dict_get hidden k with
  | Some (PList l) => List.filter (fun v => is_number v || is_null v) l
  | _ => []
  end.

(** [sorted(list(X))] returns for a set [X] with the strings [strs] and
    the other members [others]. Python's [<] is defined between two
    strings and between two numbers, not between a string and a
    number, nor between [None] and anything: the sort raises
    [TypeError] as soon as [X] has members of two of the three kinds,
    and returns otherwise (a lone [None] is compared with nothing). *)
Definition sortable (strs : gset string) (others : list pyval) : bool :=
  let has_str := negb (bool_decide (strs = ∅)) in
  let has_num := existsb is_number others in
  let has_null := existsb is_null others in
  negb ((has_str && (has_num || has_null)) || (has_num && has_null)).

(** [sorted] returns for the hidden set of every category of
    [self.type_order]. *)
Definition hidden_sortable (s : Overlay) : bool :=
  forallb (fun k => sortable (default ∅ (s.(hidden_sets) !! k))
                             (other_members s.(hidden) k))
          type_order.

(** [self._save()]: it copies the state into [self.data["settings"]] and
    writes the file, swallowing write errors ([save_json]); nothing
    the engine reads changes. The [sorted] of line 826 is outside any
    [try]: it raises [TypeError] on the first category whose hidden set
    it cannot sort. *)
Definition save : act unit := fun s =>
  if hidden_sortable s then (Ok tt, s) else (Raise TypeError, s).

(** The construction of the [QRect] in [_apply_rect] from a
    [rect_ratio] record and the primary screen's size ([screenWH()],
    Qt). *)
Variable make_rect : pydict -> result QRect.

(** [self._apply_rect()]. *)
Definition apply_rect : act unit := fun s =>
  match dict_get s.(profiles) s.(prof) with
  | None => (Raise KeyError, s)
  | Some (PDict p) =>
      match dict_get p "rect_ratio" with
      | Some (PDict rr) =>
          match make_rect rr with
          | Ok r => (Ok tt, set_rect (Some r) s)
          | Raise e => (Raise e, s)
          end
      | _ => (Ok tt, set_rect None s)
      end
  | Some _ => (Raise AttributeError, s)
  end.

(** [self._scale_changed(scale)]. *)
Definition scale_changed (scale : float) : act unit :=
  act_bind (modify (set_global_scale (clamp_scale scale))) (fun _ => save).

(** [self.switch(name)]. *)
Definition switch (name : string) : act unit := fun s =>
  if (bool_decide (name ∈ MAPS) && negb (String.eqb name s.(prof)))%bool then
    act_bind (modify (set_prof name))
      (fun _ => act_bind apply_rect (fun _ => save)) s
  else (Ok tt, s).

(** [self._hide_hovered()]. *)
Definition hide_hovered : act unit := fun s =>
  let s := set_hide_calls (S s.(hide_calls)) s in
  match s.(hover) with
  | None => (Ok tt, s)
  | Some h =>
      match hidden_key h.(h_type) h.(h_pt_ref) with
      | Raise e => (Raise e, s)
      | Ok hk =>
          let s := set_hidden_sets (hide s.(hidden_sets) h.(h_type) hk) s in
          act_bind save (fun _ => modify (set_hover None)) s
      end
  end.

(** [self._update_hover()], the pointer being at [(lx, ly)] in the
    overlay's coordinates ([self.mapFromGlobal(QCursor.pos())]). *)
Definition update_hover (lx ly : Z) : act unit := fun s =>
  let s := set_hover None s in
  match s.(rect) with
  | Some r =>
      if (s.(master) && s.(visible))%bool then
        match hit_test s.(types) s.(hidden_sets)
                (default ∅ (s.(cache) !! s.(prof))) s.(prof)
                (Z2float lx) (Z2float ly) r s.(hover_radius) with
        | Ok best => (Ok tt, set_hover best s)
        | Raise e => (Raise e, s)
        end
      else (Ok tt, s)
  | None => (Ok tt, s)
  end.

(* ================================================================== *)
(** ** InputEdgeDetector *)

(** What one tick reads from the outside: the state of each polled key
    ([key(vk)]) and the pointer position. *)
Record sample := mkSample {
  key_bt : bool; key_h : bool; key_tab : bool;
  key_1 : bool; key_2 : bool; key_3 : bool; key_4 : bool;
  key_delete : bool; key_control : bool; key_menu : bool; key_shift : bool;
  cursor_x : Z; cursor_y : Z
}.

(** The chord of [_tick]:
    [key(VK_DELETE) and key(VK_CONTROL) and key(VK_MENU) and key(VK_SHIFT)]. *)
Definition chord (k : sample) : bool :=
  (k.(key_delete) && k.(key_control) && k.(key_menu) && k.(key_shift))%bool.

(** Lines 992-999 of [_tick]: the master toggle. The [_save] comes
    before [self.pbt = nb]. *)
Definition tick_toggle (k : sample) : act unit := fun s =>
  let nb := k.(key_bt) in
  act_bind
    (if (nb && negb s.(pbt))%bool then
       act_bind
         (modify (fun s =>
                    let s := set_master (negb s.(master)) s in
                    if (negb s.(master) && s.(visible))%bool
                    then set_visible false s else s))
         (fun _ => save)
     else act_ret tt)
    (fun _ => modify (set_pbt nb)) s.

(** Lines 1001-1006: the hide key. *)
Definition tick_hide (k : sample) : act unit := fun s =>
  let nh := k.(key_h) in
  act_bind
    (if (nh && negb s.(pH) && s.(visible))%bool then
       act_bind (modify (set_visible false)) (fun _ => save)
     else act_ret tt)
    (fun _ => modify (set_pH nh)) s.

(** Lines 992-1006: what comes before the master gate. *)
Definition tick_master (k : sample) : act unit :=
  act_bind (tick_toggle k) (fun _ => tick_hide k).

(** Lines 1011-1018: the visible toggle. *)
Definition tick_tab (k : sample) : act unit := fun s =>
  let nt := k.(key_tab) in
  act_bind
    (if (nt && negb s.(pT))%bool then
       act_bind (modify (set_visible (negb s.(visible)))) (fun _ => save)
     else act_ret tt)
    (fun _ => modify (set_pT nt)) s.

(** Lines 1020-1024: the map keys. *)
Definition tick_switch (k : sample) : act unit := fun s =>
  if (s.(visible) && s.(num_sw))%bool then
    if k.(key_1) then switch "Stillwater Bayou" s
    else if k.(key_2) then switch "DeSalle" s
    else if k.(key_3) then switch "Lawson Delta" s
    else if k.(key_4) then switch "Mammon's Gulch" s
    else (Ok tt, s)
  else (Ok tt, s).

(** Lines 1029-1033: the chord. *)
Definition tick_chord (k : sample) : act unit := fun s =>
  let hide_now := chord k in
  act_bind
    (if (hide_now && negb s.(pHide))%bool then hide_hovered else act_ret tt)
    (fun _ => modify (set_pHide hide_now)) s.

(** Lines 1008-1035: what comes behind the master gate. *)
Definition tick_gated (k : sample) : act unit :=
  act_bind (tick_tab k)
    (fun _ =>
       act_bind (tick_switch k)
         (fun _ =>
            act_bind
              (fun s => if s.(visible)
                        then update_hover k.(cursor_x) k.(cursor_y) s
                        else (Ok tt, s))
              (fun _ => tick_chord k))).

(** [self._tick()]. The window calls ([hide], [show], [topmost],
    [update]) change nothing here. *)
Definition tick (k : sample) : act unit :=
  act_bind (tick_master k)
    (fun _ s => if negb s.(master) then (Ok tt, s) else tick_gated k s).

(** [self._tick_safe()]: the exception is printed and dropped. *)
Definition tick_safe (k : sample) (s : Overlay) : Overlay := snd (tick k s).

(** A run of the timer: one [_tick_safe] per sample. *)
Definition run (ks : list sample) (s : Overlay) : Overlay :=
  fold_left (fun s k => tick_safe k s) ks s.

(* ================================================================== *)
(** ** ConfigStore *)

(** The [profiles] of [base] in [_load_config]. *)
Definition base_profiles : pydict :=
  (fun m => (m, PDict [("rect_ratio", default_rect_ratio)])) <$> MAPS.

(** The [settings] of [base] in [_load_config]. *)
Definition base_settings : pydict :=
  [("enable_num_switch", PBool true);
   ("selected_map", PStr "Stillwater Bayou");
   ("visible_overlay", PBool false);
   ("master_on", PBool true);
   ("global_scale", PFloat 1.00);
   ("types", PDict []);
   ("hidden", PDict [])].

(** The [base] of [_load_config] before any merge: the default
    structure. *)
Definition base_config : pydict :=
  [("profiles", PDict base_profiles); ("settings", PDict base_settings)].

(** One turn of the loop [for m in MAPS] of [_load_config] on
    [base["profiles"]]. *)
Definition fix_profile (profiles : pydict) (m : string) : result pydict :=
  let profiles :=
    if dict_has profiles m then profiles
    else dict_set profiles m (PDict [("rect_ratio", default_rect_ratio)]) in
  match dict_get profiles m with
  | Some (PDict p) =>
      match dict_get p "rect_ratio" with
      | Some (PDict _) => Ok profiles
      | _ => Ok (dict_set profiles m
                   (PDict (dict_set p "rect_ratio" default_rect_ratio)))
      end
  | Some _ => Raise AttributeError
  | None => Raise KeyError
  end.

(** [self._load_config()]; [persisted] is what [load_json(CONFIG_PATH)]
    returned, [None] when the file is missing or cannot be read or
    parsed (the code then keeps [d = {}]). *)
Definition load_config (persisted : option pyval) : result pydict :=
  let d := default (PDict []) persisted in
  let profiles :=
    match d with
    | PDict dd =>
        match dict_get dd "profiles" with
        | Some (PDict p) => dict_update base_profiles p
        | _ => base_profiles
        end
    | _ => base_profiles
    end in
  let settings :=
    match d with
    | PDict dd =>
        match dict_get dd "settings" with
        | Some (PDict st) => dict_update base_settings st
        | _ => base_settings
        end
    | _ => base_settings
    end in
  profiles ← for_each fix_profile MAPS profiles;
  Ok [("profiles", PDict profiles); ("settings", PDict settings)].

(** [k in v]. *)
Definition py_contains (v : pyval) (k : string) : result bool :=
  match v with
  | PDict d => Ok (dict_has d k)
  | PList l =>
      Ok (existsb (fun e => match e with
                            | PStr s => String.eqb s k
                            | _ => false
                            end) l)
  | PStr s => Ok (match String.index 0 k s with Some _ => true | None => false end)
  | _ => Raise TypeError
  end.

(** [v[k]] for a string key. *)
Definition py_getitem (v : pyval) (k : string) : result pyval :=
  match v with
  | PDict d => of_option (dict_get d k) KeyError
  | _ => Raise TypeError
  end.

(** [v[k] = x] for a string key. *)
Definition py_setitem (v : pyval) (k : string) (x : pyval) : result pyval :=
  match v with
  | PDict d => Ok (PDict (dict_set d k x))
  | _ => Raise TypeError
  end.

(** One turn of the loop over [self.type_order] that fills [self.types]
    (lines 667-673); [default_fill k] is
    [q2rgb(self.type_specs[k]["default_fill"])]. *)
Definition init_type (default_fill : string -> pyval) (types : pyval)
    (k : string) : result pyval :=
  b ← py_contains types k;
  types ← (if b : bool then Ok types
           else py_setitem types k
                  (PDict [("enabled", PBool true); ("color", default_fill k)]));
  tk ← py_getitem types k;
  b ← py_contains tk "enabled";
  types ← (if b : bool then Ok types
           else tk' ← py_setitem tk "enabled" (PBool true);
                py_setitem types k tk');
  tk ← py_getitem types k;
  b ← py_contains tk "color";
  if b : bool then Ok types
  else tk' ← py_setitem tk "color" (default_fill k);
       py_setitem types k tk'.

(** Lines 666-673. *)
Definition init_types (default_fill : string -> pyval) (st : pydict)
  : result pydict :=
  types ← for_each (init_type default_fill) type_order
                   (default (PDict []) (dict_get st "types"));
  match types with
  | PDict t => Ok t
  | _ => Raise TypeError
  end.

(** Lines 676-681: [self.hidden]. *)
Definition init_hidden (st : pydict) : pydict :=
  let hidden :=
    match dict_get st "hidden" with Some (PDict h) => h | _ => [] end in
  fold_left
    (fun hidden k =>
       match dict_get hidden k with
       | Some (PList _) => hidden
       | _ => dict_set hidden k (PList [])
       end)
    type_order hidden.

(** The strings of [set(l)] for a list read from JSON. A list or a dict
    is not hashable: [set] raises [TypeError] at the first one. A
    number, a boolean or [null] is a member as well: it is one of the
    [other_members]. *)
Fixpoint py_set (l : list pyval) : result (gset string) :=
  match l with
  | [] => Ok ∅
  | PStr s :: l' => X ← py_set l'; Ok ({[s]} ∪ X)
  | (PList _ | PDict _) :: _ => Raise TypeError
  | _ :: l' => py_set l'
  end.

(** Line 682: [self.hidden_sets]. *)
Definition init_hidden_sets (hidden : pydict)
  : result (gmap string (gset string)) :=
  for_each
    (fun hs k =>
       X ← py_set (match dict_get hidden k with
                   | Some (PList l) => l
                   | Some _ => []
                   | None => []
                   end);
       Ok (<[k := X]> hs))
    type_order ∅.

(** One turn of the loop of lines 700-705, which hands each category's
    setting to the panel: the reads [self.types[k]["enabled"]] and
    [self.types[k]["color"]] ([rgb2q] catches what the colour raises). *)
Definition panel_type_state (types : pydict) (k : string) : result unit :=
  tk ← py_getitem (PDict types) k;
  _ ← py_getitem tk "enabled";
  _ ← py_getitem tk "color";
  Ok tt.

(** [self._build_type_specs()], reduced to what the engine uses of it:
    for each category the RGB list of its default fill colour (colours
    are Qt's); it may raise on a malformed style file. *)
Variable build_type_specs : pyval -> result (string -> pyval).

(** [st.get("selected_map", MAPS[0]) if st.get("selected_map") in MAPS
    else MAPS[0]]. *)
Definition init_prof (st : pydict) : string :=
  match dict_get st "selected_map" with
  | Some (PStr s) => if bool_decide (s ∈ MAPS) then s else "Stillwater Bayou"
  | _ => "Stillwater Bayou"
  end.

(** Lines 661-663: [self.global_scale] at start-up. *)
Definition init_global_scale (st : pydict) : result float :=
  g ← py_float (default (PFloat 1.00) (dict_get st "global_scale"));
  Ok (clamp_scale g).

(** [Overlay.__init__], from the parsed [data.json] and [poiData.json]
    and the persisted configuration. *)
Definition init (game_data poi_style : pyval) (persisted : option pyval)
  : result Overlay :=
  let fmt := detect_data_format game_data in
  if String.eqb fmt "unknown" then
    Raise (RuntimeError "Unrecognized data.json format")
  else
    type_specs ← build_type_specs poi_style;
    data ← load_config persisted;
    st ← match dict_get data "settings" with
         | Some (PDict st) => Ok st
         | _ => Raise KeyError
         end;
    profiles ← match dict_get data "profiles" with
               | Some (PDict p) => Ok p
               | _ => Raise KeyError
               end;
    let num_sw := truthy (default (PBool true) (dict_get st "enable_num_switch")) in
    let prof := init_prof st in
    let visible := truthy (default (PBool false) (dict_get st "visible_overlay")) in
    let master := truthy (default (PBool true) (dict_get st "master_on")) in
    global_scale ← init_global_scale st;
    types ← init_types type_specs st;
    let hidden := init_hidden st in
    hidden_sets ← init_hidden_sets hidden;
    let s := mkOverlay game_data fmt profiles num_sw prof visible master
               global_scale types hidden hidden_sets None
               false false false false None 10 ∅ 0 in
    match apply_rect s with
    | (Raise e, _) => Raise e
    | (Ok _, s) =>
        _ ← for_each (fun (_ : unit) k => panel_type_state types k)
                     type_order tt;
        cache ← rebuild_all_caches game_data fmt ∅;
        Ok (set_cache cache s)
    end.
End Engine.

Arguments hidden_sortable : simpl never.

(* ================================================================== *)
(** ** The vocabulary of the properties *)

(** [u] lies in [[0, 1]]. *)
Definition in_unit (u : float) : Prop :=
  (0 <=? u)%float = true /\ (u <=? 1)%float = true.

(** The clamp of [rotate90cw_norm] on one coordinate, in the spec's
    words: clamp to [[0.0, 1.0]]. *)
Definition clamp01 (u : float) : float :=
  let u := if (u <? 0)%float then 0%float else u in
  if (1 <? u)%float then 1%float else u.

(** In the spec's words: the derived category's list is the ordered
    concatenation of the lists of [towers], [big_towers] and [armories],
    each member keeping its source category, and its length is the sum
    of theirs. *)
Definition union_of (out : gmap string (list point)) : Prop :=
  exists towers big_towers armories,
    out !! "towers" = Some towers /\
    out !! "big_towers" = Some big_towers /\
    out !! "armories" = Some armories /\
    out !! "possible_xp" = Some (towers ++ big_towers ++ armories) /\
    Forall (fun p => pt_src p = "towers") towers /\
    Forall (fun p => pt_src p = "big_towers") big_towers /\
    Forall (fun p => pt_src p = "armories") armories /\
    length (default [] (out !! "possible_xp")) =
      (length towers + length big_towers + length armories)%nat.

(** [n] is an integer nearest to the number [(-1)^s * m * 2^e] a
    specification float stands for. *)
Definition sf_nearest (a : spec_float) (n : Z) : Prop :=
  match a with
  | S754_zero _ => n = 0%Z
  | S754_finite s m e =>
      match e with
      | Zneg p =>
          (2 * Z.abs (n * 2 ^ Zpos p - cond_Zopp s (Zpos m)) <= 2 ^ Zpos p)%Z
      | _ => n = (cond_Zopp s (Zpos m) * 2 ^ e)%Z
      end
  | _ => False
  end.

(** [n] is an integer nearest to the float [f]. *)
Definition nearest_int (f : float) (n : Z) : Prop := sf_nearest (Prim2SF f) n.

(** The identity in the spec's words: ["{x}:{y}"] for a source category,
    ["{sourceCategory}:{x}:{y}"] for the derived one. *)
Definition identity_of (tkey src : string) (xi yi : Z) : string :=
  if String.eqb tkey "possible_xp"
  then src +:+ ":" +:+ pretty xi +:+ ":" +:+ pretty yi
  else pretty xi +:+ ":" +:+ pretty yi.

(** A section of the persisted payload that is missing or is no dict. *)
Definition no_section (d : pydict) (k : string) : bool :=
  match dict_get d k with Some (PDict _) => false | _ => true end.

(** An empty or malformed persisted payload: no file or an unreadable
    one, a JSON value that is no dict, or a dict with neither a
    [profiles] nor a [settings] dict. *)
Definition empty_payload (persisted : option pyval) : bool :=
  match persisted with
  | None => true
  | Some (PDict d) => no_section d "profiles" && no_section d "settings"
  | Some _ => true
  end.

(** The [TypeSetting] a category gets when the payload has none. *)
Definition default_type (fill : string -> pyval) (k : string) : pyval :=
  PDict [("enabled", PBool true); ("color", fill k)].

Section Candidates.
Variables (types : pydict) (hidden_sets : gmap string (gset string))
          (pts_by_type : gmap string (list point)) (prof : string).

(** The points of one category with their indices, from [idx] on. *)
Fixpoint entries_from (tkey : string) (idx : nat) (pts : list point)
  : list hover_info :=
  match pts with
  | [] => []
  | pt :: pts' => mkHover prof tkey idx pt :: entries_from tkey (S idx) pts'
  end.

(** The point of an entry is not hidden in the entry's category. *)
Definition shown (h : hover_info) : bool :=
  match is_hidden hidden_sets h.(h_type) h.(h_pt_ref) with
  | Ok false => true
  | _ => false
  end.

(** The category is enabled. *)
Definition enabled (tkey : string) : bool :=
  match type_enabled types tkey with Ok true => true | _ => false end.

(** The candidates of one category, in index order. *)
Definition cat_candidates (tkey : string) : list hover_info :=
  if enabled tkey
  then List.filter shown
         (entries_from tkey 0 (default [] (pts_by_type !! tkey)))
  else [].

(** The candidates of the hit-test, in the order the two loops meet
    them: category by category in [type_order], then by index. *)
Definition candidates : list hover_info :=
  concat (cat_candidates <$> type_order).
End Candidates.

(** The squared distance of the pointer to an entry's point. *)
Definition d2 (mx my : float) (r : QRect) (h : hover_info) : float :=
  dist2 mx my r h.(h_pt_ref).

(** One turn of the hit-test on a candidate: it replaces the best when
    its squared distance is less than or equal to the best one. *)
Definition step (d2_of : hover_info -> float)
    (best : option hover_info * float) (h : hover_info)
  : option hover_info * float :=
  if (d2_of h <=? snd best)%float then (Some h, d2_of h) else best.



(** The hovered point, if any, has an identity in its category (it
    passed [_is_hidden] when [_update_hover] chose it). *)
Definition hover_ok (s : Overlay) : Prop :=
  match s.(hover) with
  | Some h => exists hk, hidden_key h.(h_type) h.(h_pt_ref) = Ok hk
  | None => True
  end.

(** The hidden lists of the configuration held strings only: the
    hidden sets have no other members, whatever is hidden later. *)
Definition strings_only (s : Overlay) : Prop :=
  forall k, k ∈ type_order -> other_members s.(hidden) k = [].

(** The fields a step of [_tick] before the chord leaves as they are. *)
Definition keeps (s s' : Overlay) : Prop :=
  s'.(pbt) = s.(pbt) /\ s'.(pH) = s.(pH) /\ s'.(pT) = s.(pT) /\
  s'.(pHide) = s.(pHide) /\ s'.(hide_calls) = s.(hide_calls) /\
  s'.(master) = s.(master) /\ s'.(hidden) = s.(hidden).

(** The number of calls of [_hide_hovered] a tick makes when it reaches
    the chord. *)
Definition fires (k : sample) (s : Overlay) : nat :=
  if (chord k && negb s.(pHide))%bool then 1%nat else 0%nat.

(** The claim on the previous samples as the spec states it: after a
    tick each of the four stored booleans is the tick's sample. *)
Definition samples_recorded (make_rect : pydict -> result QRect)
    (k : sample) (s : Overlay) : Prop :=
  let s' := tick_safe make_rect k s in
  s'.(pbt) = k.(key_bt) /\ s'.(pH) = k.(key_h) /\
  s'.(pT) = k.(key_tab) /\ s'.(pHide) = chord k.

(** The claim on the chord as the spec states it: the chord is up at
    [k_up], down at [k] and at every sample of [ks]; the hide action
    is called once on the tick of [k] and not again during [ks]. *)
Definition chord_once (make_rect : pydict -> result QRect)
    (s : Overlay) (k_up k : sample) (ks : list sample) : Prop :=
  chord k_up = false -> chord k = true ->
  Forall (fun k' => chord k' = true) ks ->
  let s0 := tick_safe make_rect k_up s in
  let s1 := tick_safe make_rect k s0 in
  s1.(hide_calls) = S s0.(hide_calls) /\
  (run make_rect ks s1).(hide_calls) = S s0.(hide_calls).

(** *** Inputs of the examples *)

(** No string is a float literal. *)
Definition no_float_literal : string -> option float := fun _ => None.

(** A screen on which every rectangle is the 4096 by 4096 square at the
    origin. *)
Definition square_rect : pydict -> result QRect :=
  fun _ => Ok (mkQRect 0 0 4096 4096).

(** Two points, 3 pixels right of and 4 pixels below the origin of
    [square_rect]'s rectangle. *)
Definition pt_right : point :=
  mkPoint (3 / 4096) 0 4095 3 PNone "towers".
Definition pt_below : point :=
  mkPoint 0 (4 / 4096) 4091 0 PNone "towers".

(** An item of the dataset whose first coordinate is a NaN ([json.load]
    reads the literal [NaN]), and the point [build_for_category] caches
    for it. *)
Definition nan_item : pyval := PDict [("c", PList [PFloat nan; PInt 3])].
Definition pt_nan : point :=
  mkPoint (fst (rotate90cw_norm nan 3)) (snd (rotate90cw_norm nan 3))
          nan 3 nan_item "towers".

(** The point [(100, 200)] of [towers]. *)
Definition pt_100_200 : point :=
  mkPoint (fst (rotate90cw_norm 100 200)) (snd (rotate90cw_norm 100 200))
          100 200 PNone "towers".

(** A dataset in the named format with one map. *)
Definition sample_data : pyval :=
  PList [PDict [("n", PStr "DeSalle");
                ("towers", PList [PDict [("c", PList [PInt 100; PInt 200])];
                                  PDict [("c", PList [PInt 1])];
                                  PInt 3]);
                ("armories", PList [PDict [("c", PList [PFloat 4095; PBool true])]])]].

(** A running overlay on map DeSalle with two tower points. *)
Definition overlay_on : Overlay :=
  mkOverlay sample_data "named" [] true "DeSalle" true true 1 [] []
    ∅ (Some (mkQRect 0 0 4096 4096)) false false false false None 10
    {["DeSalle" := {["towers" := [pt_right; pt_below]]}]} 0.

(** The same overlay with master off. *)
Definition overlay_off : Overlay := set_master false overlay_on.

(** The same overlay started from a configuration whose hidden list of
    [towers] is [["a", 1]]: the set holds the string and the number. *)
Definition overlay_mixed : Overlay :=
  mkOverlay sample_data "named" [] true "DeSalle" true true 1 []
    [("towers", PList [PStr "a"; PInt 1])] {["towers" := {["a"]}]}
    (Some (mkQRect 0 0 4096 4096)) false false false false None 10
    {["DeSalle" := {["towers" := [pt_right; pt_below]]}]} 0.

(** No key is down, the pointer is at the origin. *)
Definition keys_up : sample :=
  mkSample false false false false false false false
           false false false false 0 0.

(** The four keys of the chord are down. *)
Definition keys_chord : sample :=
  mkSample false false false false false false false
           true true true true 0 0.

(** The master key is down. *)
Definition keys_bt : sample :=
  mkSample true false false false false false false
           false false false false 0 0.

(** Tab is down. *)
Definition keys_tab : sample :=
  mkSample false false true false false false false
           false false false false 0 0.

(* ================================================================== *)
(** ** The rest of the engine: keys, style data, painting, settings *)

(** [key(vk)], from the value [GetAsyncKeyState(vk)] returned:
    [(state & 0x8000) != 0]. *)
Definition key (state : Z) : bool := negb (Z.land state 0x8000 =? 0)%Z.

(** The loop of [find_style_by_category] over [style_json.items()]. *)
Fixpoint find_style (d : pydict) (category : string) : option pydict :=
  match d with
  | [] => None
  | (_, PDict spec) :: d' =>
      if py_eq_str (dict_get spec "categories") category then Some spec
      else find_style d' category
  | _ :: d' => find_style d' category
  end.

(** [find_style_by_category(style_json, category)]; [None] is Python's
    [None]. *)
Definition find_style_by_category (style_json : pyval) (category : string)
  : option pydict :=
  match style_json with
  | PDict d => find_style d category
  | _ => None
  end.

Section Style.
Variable str_to_float : string -> option float.

(** [overlay_radius_from_spec(spec_radius)]: the [float] is inside the
    [try], the [round] is not. *)
Definition overlay_radius_from_spec (spec_radius : pyval) : result Z :=
  let r := try_except (py_float str_to_float spec_radius) 12%float in
  px ← py_round (r * 0.25);
  let px := if (px <? 3)%Z then 3%Z else px in
  let px := if (10 <? px)%Z then 10%Z else px in
  Ok px.

(** The [radius_px] that [_build_type_specs] stores for a category: 6
    for [possible_xp], and for the others what [add_from_style] takes
    from the style record ([find_style_by_category(...) or {}], then
    [spec.get("radius", 12)]). The label and the colours it stores
    beside it are Qt's and cannot raise ([qcolor_from_any] catches). *)
Definition type_radius_px (poi_style : pyval) (category : string)
  : result Z :=
  if String.eqb category "possible_xp" then Ok 6%Z
  else
    let spec := default [] (find_style_by_category poi_style category) in
    overlay_radius_from_spec (default (PInt 12) (dict_get spec "radius")).
End Style.

(** [scaled] in [paintEvent]: [int(round(base_rpx * float(global_scale)))]
    held between 1 and 40. *)
Definition scaled_radius (base_rpx : Z) (scale : float) : result Z :=
  scaled ← py_round (Z2float base_rpx * scale);
  let scaled := if (scaled <? 1)%Z then 1%Z else scaled in
  let scaled := if (40 <? scaled)%Z then 40%Z else scaled in
  Ok scaled.

(** What [paintEvent] hands to [drawEllipse]: the centre and the two
    equal radii; the category and the point are kept beside them. *)
Record ellipse := mkEllipse {
  e_type : string; e_pt : point; e_cx : float; e_cy : float; e_r : Z
}.

(** The inner loop of [paintEvent] over one category's points. An
    exception ends the painting: what was drawn before it is not
    reported. *)
Fixpoint paint_points (hidden_sets : gmap string (gset string))
    (tkey : string) (r : QRect) (scaled : Z) (pts : list point)
  : result (list ellipse) :=
  match pts with
  | [] => Ok []
  | pt :: pts' =>
      hid ← is_hidden hidden_sets tkey pt;
      rest ← paint_points hidden_sets tkey r scaled pts';
      if hid : bool then Ok rest
      else Ok (mkEllipse tkey pt
                 (Z2float r.(rect_left) + pt.(pt_u) * Z2float r.(rect_width))
                 (Z2float r.(rect_top) + pt.(pt_v) * Z2float r.(rect_height))
                 scaled :: rest)
  end.

(** The outer loop of [paintEvent]; [radius_px k] is
    [self.type_specs[k]["radius_px"]]. [self.types[tkey]] is read with
    brackets there: a category without a setting is a [KeyError]
    ([rgb2q] catches what the colour raises). *)
Fixpoint paint_types (radius_px : string -> Z) (types : pydict)
    (hidden_sets : gmap string (gset string))
    (pts_by_type : gmap string (list point)) (r : QRect) (scale : float)
    (tkeys : list string) : result (list ellipse) :=
  match tkeys with
  | [] => Ok []
  | tkey :: tkeys' =>
      en ← type_enabled types tkey;
      if negb en then
        paint_types radius_px types hidden_sets pts_by_type r scale tkeys'
      else
        _ ← of_option (dict_get types tkey) KeyError;
        scaled ← scaled_radius (radius_px tkey) scale;
        drawn ← paint_points hidden_sets tkey r scaled
                             (default [] (pts_by_type !! tkey));
        rest ← paint_types radius_px types hidden_sets pts_by_type r scale
                           tkeys';
        Ok (drawn ++ rest)
  end.

(** The points [paintEvent] draws, in drawing order (the map label it
    draws after them is Qt's). The guard is the one of [_update_hover]:
    a rectangle [_apply_rect] built has a width and a height of at
    least 1 and is true. *)
Definition paint (radius_px : string -> Z) (s : Overlay)
  : result (list ellipse) :=
  match s.(rect) with
  | Some r =>
      if (s.(master) && s.(visible))%bool then
        paint_types radius_px s.(types) s.(hidden_sets)
                    (default ∅ (s.(cache) !! s.(prof))) r s.(global_scale)
                    type_order
      else Ok []
  | None => Ok []
  end.

Definition set_types (v : pydict) (s : Overlay) : Overlay :=
  mkOverlay s.(game_data) s.(fmt) s.(profiles) s.(num_sw) s.(prof) s.(visible)
    s.(master) s.(global_scale) v s.(hidden) s.(hidden_sets) s.(rect)
    s.(pbt) s.(pH) s.(pT) s.(pHide) s.(hover) s.(hover_radius) s.(cache)
    s.(hide_calls).
Definition set_num_sw (v : bool) (s : Overlay) : Overlay :=
  mkOverlay s.(game_data) s.(fmt) s.(profiles) v s.(prof) s.(visible)
    s.(master) s.(global_scale) s.(types) s.(hidden) s.(hidden_sets) s.(rect)
    s.(pbt) s.(pH) s.(pT) s.(pHide) s.(hover) s.(hover_radius) s.(cache)
    s.(hide_calls).

(** [self.types[tkey][field] = v]: the setting of [tkey] is changed in
    place. *)
Definition set_type_field (tkey field : string) (v : pyval) : act unit :=
  fun s =>
    match (tk ← py_getitem (PDict s.(types)) tkey; py_setitem tk field v) with
    | Ok tk' => (Ok tt, set_types (dict_set s.(types) tkey tk') s)
    | Raise e => (Raise e, s)
    end.

(** [self._set_num_switch(v)]. *)
Definition set_num_switch (v : bool) : act unit :=
  act_bind (modify (set_num_sw v)) (fun _ => save).

(** [self._type_toggle(tkey, enabled)]. *)
Definition type_toggle (tkey : string) (enabled : bool) : act unit :=
  fun s =>
    if dict_has s.(types) tkey then
      act_bind (set_type_field tkey "enabled" (PBool enabled))
               (fun _ => save) s
    else (Ok tt, s).

(** [self._type_color(tkey, color)]; [rgb] is [q2rgb(QColor(color))]. *)
Definition type_color (tkey : string) (rgb : pyval) : act unit :=
  fun s =>
    if dict_has s.(types) tkey then
      act_bind (set_type_field tkey "color" rgb) (fun _ => save) s
    else (Ok tt, s).

(** The loop of [_reset_colors] from the categories [ks] on;
    [default_fill k] is [q2rgb(self.type_specs[k]["default_fill"])]. *)
Fixpoint reset_types (default_fill : string -> pyval) (ks : list string)
  : act unit :=
  match ks with
  | [] => act_ret tt
  | k :: ks' =>
      act_bind (set_type_field k "enabled" (PBool true))
        (fun _ => act_bind (set_type_field k "color" (default_fill k))
                    (fun _ => reset_types default_fill ks'))
  end.

(** [self._reset_colors()]. *)
Definition reset_colors (default_fill : string -> pyval) : act unit :=
  act_bind (reset_types default_fill type_order) (fun _ => save).

(** The order of Python on [str], code point by code point; on the byte
    strings of this model it is the order of [String.leb]. *)
Definition str_le (a b : string) : Prop := String.leb a b = true.
Global Instance str_le_dec a b : Decision (str_le a b) :=
  decide (String.leb a b = true).

(** [sorted(list(X))] for a set of strings. *)
Definition py_sorted (X : gset string) : list string :=
  merge_sort str_le (elements X).

Section Save.

(** [sorted(list(X))] for a set [X] of numbers, given by the list its
    members were read from: equal numbers ([1], [1.0] and [True]) are
    one member, and the order is the order of the numbers. *)
Variable sorted_numbers : list pyval -> list pyval.

(** [sorted(list(X))] for a hidden set [X], given by its strings and
    its other members. *)
Definition sorted_members (strs : gset string) (others : list pyval)
  : result (list pyval) :=
  if negb (sortable strs others) then Raise TypeError
  else if negb (bool_decide (strs = ∅)) then Ok (PStr <$> py_sorted strs)
  else if existsb is_number others then Ok (sorted_numbers others)
  else if existsb is_null others then Ok [PNone]
  else Ok [].

(** [{k: sorted(list(self.hidden_sets.get(k, set()))) for k in
    self.type_order}]. *)
Definition saved_hidden (hidden : pydict)
    (hidden_sets : gmap string (gset string)) : result pydict :=
  for_each
    (fun d k =>
       l ← sorted_members (default ∅ (hidden_sets !! k))
                          (other_members hidden k);
       Ok (dict_set d k (PList l)))
    type_order [].

(** The assignments of [_save] to [st = self.data["settings"]]; the
    last one raises when a hidden set cannot be sorted. *)
Definition save_settings (st : pydict) (s : Overlay) : result pydict :=
  let st := dict_set st "enable_num_switch" (PBool s.(num_sw)) in
  let st := dict_set st "selected_map" (PStr s.(prof)) in
  let st := dict_set st "visible_overlay" (PBool s.(visible)) in
  let st := dict_set st "master_on" (PBool s.(master)) in
  let st := dict_set st "global_scale" (PFloat s.(global_scale)) in
  let st := dict_set st "types" (PDict s.(types)) in
  hidden ← saved_hidden s.(hidden) s.(hidden_sets);
  Ok (dict_set st "hidden" (PDict hidden)).

(** What [_save] hands to [save_json]: [self.data] after the
    assignments, [data] being [self.data] before them. When an
    assignment raises, nothing is handed over and the file is not
    written. *)
Definition save_config (data : pydict) (s : Overlay) : result pydict :=
  st ← py_getitem (PDict data) "settings";
  match st with
  | PDict st =>
      st ← save_settings st s;
      Ok (dict_set data "settings" (PDict st))
  | _ => Raise TypeError
  end.

End Save.

(* ================================================================== *)
(** ** The vocabulary of the further properties *)

Section Built.
Variable str_to_float : string -> option float.

(** The point [p] is what [build_for_category(cat)] appends for an item
    with a coordinate list [c]: its source is [cat], its grid
    coordinates are [float(c[0])] and [float(c[1])], its [u], [v] their
    transform. *)
Definition built_from (cat : string) (p : point) : Prop :=
  pt_src p = cat /\
  (pt_u p, pt_v p) = rotate90cw_norm (pt_x p) (pt_y p) /\
  exists d c, pt_raw p = PDict d /\ dict_get d "c" = Some c /\
    py_index c 0 ≫= py_float str_to_float = Ok (pt_x p) /\
    py_index c 1 ≫= py_float str_to_float = Ok (pt_y p).

End Built.

(** No character of [s] is a colon. *)
Fixpoint no_colon (s : string) : bool :=
  match s with
  | EmptyString => true
  | String a s' => negb (String.eqb (String a EmptyString) ":") && no_colon s'
  end.

(** The hidden lists a state whose hidden sets hold strings only is
    saved with. *)
Definition saved_strings (hidden_sets : gmap string (gset string)) : pydict :=
  fold_left
    (fun d k =>
       dict_set d k (PList (PStr <$> py_sorted (default ∅ (hidden_sets !! k)))))
    type_order [].

(** The hovered point, if any, is not hidden in its category. *)
Definition hover_shown (s : Overlay) : Prop :=
  forall h, s.(hover) = Some h ->
    is_hidden s.(hidden_sets) h.(h_type) h.(h_pt_ref) = Ok false.

(** What no tick writes: the datasets, the profiles, the settings of the
    panel and the cache. *)
Definition same_setup (s s' : Overlay) : Prop :=
  s'.(game_data) = s.(game_data) /\ s'.(fmt) = s.(fmt) /\
  s'.(profiles) = s.(profiles) /\ s'.(num_sw) = s.(num_sw) /\
  s'.(global_scale) = s.(global_scale) /\ s'.(types) = s.(types) /\
  s'.(hidden) = s.(hidden) /\ s'.(hover_radius) = s.(hover_radius) /\
  s'.(cache) = s.(cache).

(** Every identity hidden in [s] is hidden in [s']. *)
Definition hidden_grows (s s' : Overlay) : Prop :=
  forall t k, k ∈ default ∅ (s.(hidden_sets) !! t) ->
              k ∈ default ∅ (s'.(hidden_sets) !! t).

(** The profile stored for map [m] is a dict whose [rect_ratio] is a
    dict. *)
Definition profile_ok (profiles : pydict) (m : string) : Prop :=
  exists p rr, dict_get profiles m = Some (PDict p) /\
               dict_get p "rect_ratio" = Some (PDict rr).

(** The setting stored for category [k] is a dict with the keys
    [enabled] and [color]. *)
Definition type_ok (types : pydict) (k : string) : Prop :=
  exists t, dict_get types k = Some (PDict t) /\
            dict_has t "enabled" = true /\ dict_has t "color" = true.

(** The setting of category [k] after a reset: enabled, with the
    default colour. *)
Definition reset_ok (fill : string -> pyval) (types : pydict) (k : string)
  : Prop :=
  exists t, dict_get types k = Some (PDict t) /\
    dict_get t "enabled" = Some (PBool true) /\
    dict_get t "color" = Some (fill k).

(** What an ellipse shows and what a hover entry points at: the
    category and the point. *)
Definition drawn_point (e : ellipse) : string * point := (e.(e_type), e.(e_pt)).
Definition hover_point (h : hover_info) : string * point :=
  (h.(h_type), h.(h_pt_ref)).

(** *** Inputs of the further examples *)

(** A style that gives every category the same grey. *)
Definition grey_fill : string -> pyval :=
  fun _ => PList [PInt 180; PInt 180; PInt 180].
Definition grey_specs : pyval -> result (string -> pyval) :=
  fun _ => Ok grey_fill.

(** A point that rounds to [(100, 200)] as [pt_100_200] does. *)
Definition pt_near_100_200 : point :=
  mkPoint (fst (rotate90cw_norm 100.25 199.75))
          (snd (rotate90cw_norm 100.25 199.75)) 100.25 199.75 PNone "towers".

(** [overlay_on] with the default setting of every category. *)
Definition overlay_typed : Overlay :=
  set_types ((fun k => (k, default_type grey_fill k)) <$> type_order)
            overlay_on.

(** The same overlay with a NaN scale. *)
Definition overlay_nan : Overlay := set_global_scale nan overlay_typed.

(** Settings in which [towers] is switched off. *)
Definition towers_off : pydict :=
  [("towers", PDict [("enabled", PBool false)])].

(* ================================================================== *)
(** ** Binary64: order and rounding facts *)

Module PyFloatFacts.
Import PyFloat.

(** *** The order on specification floats *)

Lemma SFcompare_antisym a b :
  SFcompare b a = option_map CompOpp (SFcompare a b).
Proof.
  destruct a as [sa|sa| |sa ma ea], b as [sb|sb| |sb mb eb]; simpl; trivial;
    try (destruct sa; trivial; destruct sb; trivial; fail);
    try (destruct sa; trivial; fail); try (destruct sb; trivial; fail).
  rewrite !Pos.compare_cont_spec. simpl.
  rewrite (Z.compare_antisym ea eb), (Pos.compare_antisym ma mb).
  destruct sa, sb; simpl; trivial;
    destruct (ea ?= eb)%Z; simpl; trivial; destruct (ma ?= mb)%positive; trivial.
Qed.

Lemma SFcompare_some a b :
  sf_nan a = false -> sf_nan b = false -> exists c, SFcompare a b = Some c.
Proof. destruct a, b; simpl; try discriminate; eauto. Qed.

Lemma SFleb_total a b :
  sf_nan a = false -> sf_nan b = false -> SFltb a b = false -> SFleb b a = true.
Proof.
  intros Ha Hb. unfold SFltb, SFleb. rewrite (SFcompare_antisym a b).
  destruct (SFcompare_some a b Ha Hb) as [c ->]. now destruct c.
Qed.

Lemma SFleb_not_nan a b :
  SFleb a b = true -> sf_nan a = false /\ sf_nan b = false.
Proof. destruct a, b; simpl; try discriminate; auto. Qed.

Lemma SFleb_ltb a b : SFleb a b = true -> SFltb b a = false.
Proof.
  unfold SFltb, SFleb. rewrite (SFcompare_antisym a b).
  destruct (SFcompare a b) as [[]|]; simpl; congruence.
Qed.

Lemma SFleb_trans a b c :
  SFleb a b = true -> SFleb b c = true -> SFleb a c = true.
Proof.
  unfold SFleb.
  destruct a as [sa|sa| |sa ma ea], b as [sb|sb| |sb mb eb],
           c as [sc|sc| |sc mc ec]; simpl; try discriminate; trivial;
    try (destruct sa; try discriminate; trivial;
         destruct sb; try discriminate; trivial;
         destruct sc; try discriminate; trivial; fail);
    try (destruct sa; try discriminate; trivial;
         destruct sc; try discriminate; trivial; fail);
    try (destruct sb; try discriminate; trivial;
         destruct sa; try discriminate; trivial;
         destruct sc; try discriminate; trivial; fail);
    try (destruct sb; try discriminate; trivial;
         destruct sc; try discriminate; trivial; fail).
  all: rewrite ?Pos.compare_cont_spec; simpl.
  all: destruct sa, sb, sc; try discriminate; trivial.
  all: destruct (Z.compare_spec ea eb), (Z.compare_spec eb ec),
         (Z.compare_spec ea ec); subst; simpl; try discriminate; trivial; try lia.
  all: destruct (Pos.compare_spec ma mb), (Pos.compare_spec mb mc),
         (Pos.compare_spec ma mc); subst; simpl; try discriminate; trivial; try lia.
Qed.

(** *** Rounding never invents a NaN *)

Lemma shr_1_nonneg r : nonneg_m r -> nonneg_m (shr_1 r).
Proof.
  unfold nonneg_m. destruct r as [m rb sb]; simpl.
  destruct m as [|[p|p|]|[p|p|]]; simpl; lia.
Qed.

Lemma iter_pos_inv {A} (P : A -> Prop) (f : A -> A) :
  (forall a, P a -> P (f a)) -> forall p a, P a -> P (SpecFloat.iter_pos f p a).
Proof.
  intros Hf. induction p as [p IH|p IH|]; simpl; intros a Ha; auto.
Qed.

Lemma shr_record_of_loc_m m l : shr_m (shr_record_of_loc m l) = m.
Proof. destruct l as [|[]]; reflexivity. Qed.

Lemma shr_fexp_nonneg m e l :
  (0 <= m)%Z -> nonneg_m (fst (shr_fexp prec emax m e l)).
Proof.
  intros Hm. unfold shr_fexp, shr.
  destruct (fexp prec emax (Zdigits2 m + e) - e)%Z; simpl;
    try (unfold nonneg_m; rewrite shr_record_of_loc_m; exact Hm).
  apply iter_pos_inv; [apply shr_1_nonneg|].
  unfold nonneg_m; rewrite shr_record_of_loc_m; exact Hm.
Qed.

Lemma round_nearest_even_nonneg m l :
  (0 <= m)%Z -> (0 <= round_nearest_even m l)%Z.
Proof.
  intros Hm. destruct l as [|[]]; simpl; try lia.
  destruct (Z.even m); lia.
Qed.

Lemma binary_round_aux_not_nan sx mx ex lx :
  (0 <= mx)%Z -> sf_nan (binary_round_aux prec emax sx mx ex lx) = false.
Proof.
  intros Hm. unfold binary_round_aux.
  pose proof (shr_fexp_nonneg mx ex lx Hm) as H1.
  destruct (shr_fexp prec emax mx ex lx) as [mrs' e']; simpl in H1.
  pose proof (shr_fexp_nonneg
    (round_nearest_even (shr_m mrs') (loc_of_shr_record mrs')) e' loc_Exact
    (round_nearest_even_nonneg _ _ H1)) as H2.
  destruct (shr_fexp prec emax _ e' loc_Exact) as [mrs'' e'']; simpl in H2.
  unfold nonneg_m in H2.
  destruct (shr_m mrs'') as [|p|p]; simpl; trivial; [|lia].
  now destruct (e'' <=? emax - prec)%Z.
Qed.

Lemma binary_normalize_not_nan m e sz :
  sf_nan (binary_normalize prec emax m e sz) = false.
Proof.
  destruct m as [|p|p]; simpl; trivial; unfold binary_round;
    destruct (shl_align _ _ _) as [mz ez];
    apply binary_round_aux_not_nan; lia.
Qed.

(** A difference of two zeros or finite numbers is never a NaN. *)
Lemma SF64sub_real a b :
  sf_real a = true -> sf_real b = true -> sf_nan (SF64sub a b) = false.
Proof.
  unfold SF64sub.
  destruct a as [sa|sa| |sa ma ea], b as [sb|sb| |sb mb eb]; simpl;
    try discriminate; trivial; intros _ _.
  - now destruct sa, sb.
  - apply binary_normalize_not_nan.
Qed.

(** A quotient of a zero or finite number by a finite one is neither. *)
Lemma SF64div_real a sb mb eb :
  sf_nan a = false -> sf_nan (SF64div a (S754_finite sb mb eb)) = false.
Proof.
  unfold SF64div.
  destruct a as [sa|sa| |sa ma ea]; simpl; try discriminate; trivial; intros _.
  unfold SFdiv_core_binary.
  set (s := (ea - eb - _)%Z).
  set (m' := match s with Z0 => Zpos ma | Zpos _ => Z.shiftl (Zpos ma) s | Zneg _ => 0%Z end).
  assert (Hm' : (0 <= m')%Z).
  { subst m'. destruct s; try lia. apply Z.shiftl_nonneg. lia. }
  pose proof (Z.div_pos m' (Zpos mb) Hm' ltac:(lia)) as Hq.
  unfold Z.div in Hq.
  destruct (Z.div_eucl m' (Zpos mb)) as [q r]. simpl in Hq.
  now apply binary_round_aux_not_nan.
Qed.

(** *** The same facts on primitive floats *)

Lemma leb_trans (a b c : float) :
  (a <=? b)%float = true -> (b <=? c)%float = true -> (a <=? c)%float = true.
Proof. rewrite !leb_spec. apply SFleb_trans. Qed.

Lemma leb_not_nan (a b : float) :
  (a <=? b)%float = true -> not_nan a /\ not_nan b.
Proof. rewrite leb_spec. apply SFleb_not_nan. Qed.

Lemma ltb_false_leb (a b : float) :
  not_nan a -> not_nan b -> (a <? b)%float = false -> (b <=? a)%float = true.
Proof. rewrite ltb_spec, leb_spec. apply SFleb_total. Qed.

Lemma leb_false_leb (a b : float) :
  not_nan a -> not_nan b -> (a <=? b)%float = false -> (b <=? a)%float = true.
Proof.
  intros Ha Hb H. apply ltb_false_leb; trivial.
  rewrite ltb_spec. rewrite leb_spec in H.
  unfold SFltb, SFleb in *. now destruct (SFcompare _ _) as [[]|].
Qed.

Lemma leb_ltb_false (a b : float) :
  (a <=? b)%float = true -> (b <? a)%float = false.
Proof. rewrite ltb_spec, leb_spec. apply SFleb_ltb. Qed.

Lemma leb_refl (a : float) : not_nan a -> (a <=? a)%float = true.
Proof.
  intros Ha. rewrite leb_spec. unfold not_nan in Ha.
  destruct (Prim2SF a) as [s|s| |s m e]; simpl in *; try discriminate; trivial.
  - now destruct s.
  - unfold SFleb, SFcompare.
    destruct s; rewrite Z.compare_refl, Pos.compare_cont_spec, Pos.compare_refl;
      reflexivity.
Qed.

(** A float between two finite floats is a zero or finite. *)
Lemma between_real (lo hi f : float) :
  is_real lo = true -> is_real hi = true ->
  (lo <=? f)%float = true -> (f <=? hi)%float = true -> is_real f = true.
Proof.
  unfold is_real. rewrite !leb_spec. unfold SFleb.
  destruct (Prim2SF lo) as [s1|s1| |s1 m1 e1], (Prim2SF hi) as [s2|s2| |s2 m2 e2],
    (Prim2SF f) as [s|s| |s m e]; simpl; try discriminate; trivial;
    destruct s; discriminate.
Qed.

End PyFloatFacts.

(* ================================================================== *)
(** ** Binary64: what the clamps and the comparisons give *)

Module FloatOrder.
Import PyFloat PyFloatFacts.





Lemma is_real_not_nan x : is_real x = true -> not_nan x.
Proof. unfold is_real, not_nan. now destruct (Prim2SF x). Qed.

Lemma Prim2SF_4095 : exists m e, Prim2SF 4095 = S754_finite false m e.
Proof. vm_compute. eauto. Qed.

Lemma div_4095_not_nan a : not_nan a -> not_nan (a / 4095).
Proof.
  unfold not_nan. rewrite div_spec. destruct Prim2SF_4095 as (m & e & ->).
  apply SF64div_real.
Qed.

Lemma sub_4095_not_nan x : is_real x = true -> not_nan (4095 - x).
Proof.
  unfold not_nan, is_real. rewrite sub_spec. apply SF64sub_real.
  now destruct Prim2SF_4095 as (m & e & ->).
Qed.

Lemma clamp01_in_unit u : not_nan u -> in_unit (clamp01 u).
Proof.
  intros Hu. unfold clamp01, in_unit.
  destruct (u <? 0)%float eqn:E0.
  - vm_compute. auto.
  - destruct (1 <? u)%float eqn:E1.
    + vm_compute; auto.
    + split; apply ltb_false_leb; trivial; reflexivity.
Qed.

Lemma clamp_scale_in_range g :
  not_nan g -> in_range 0.10 5.00 (clamp_scale g) = true.
Proof.
  intros Hg. unfold clamp_scale, in_range.
  destruct (g <? 0.10)%float eqn:E0; [reflexivity|].
  destruct (5.00 <? g)%float eqn:E1; [reflexivity|].
  apply andb_true_intro; split; apply ltb_false_leb; trivial; reflexivity.
Qed.

Lemma round_half_even_nearest s m e :
  sf_nearest (S754_finite s m e) (cond_Zopp s (round_half_even m e)).
Proof.
  unfold sf_nearest, round_half_even. destruct e as [|p|p].
  - destruct s; simpl; lia.
  - rewrite Z.shiftl_mul_pow2 by lia. destruct s; simpl cond_Zopp; lia.
  - rewrite Z.shiftl_mul_pow2 by lia. rewrite Z.mul_1_l.
    set (d := (2 ^ Z.pos p)%Z).
    assert (Hd : (0 < d)%Z) by (apply Z.pow_pos_nonneg; lia).
    pose proof (Z.div_mod (Zpos m) d ltac:(lia)) as Hdm.
    pose proof (Z.mod_pos_bound (Zpos m) d Hd) as Hr.
    set (q := (Z.pos m / d)%Z) in *. set (r := (Z.pos m mod d)%Z) in *.
    destruct (Z.compare_spec (2 * r) d) as [E|E|E];
      [destruct (Z.even q)| |]; destruct s; simpl cond_Zopp; nia.
Qed.

End FloatOrder.

(* ================================================================== *)
(** ** Tactics *)

(** The facts on the fields before and after a step give the facts
    on the fields after the next one. *)
Ltac fields :=
  repeat match goal with
         | |- _ /\ _ => split
         | |- ~ _ => intro
         | |- _ -> _ => intro
         | |- forall _, _ => intro
         | H : _ /\ _ |- _ => destruct H
         | H : _ \/ _ |- _ => destruct H
         | H : ?x = ?x -> _ |- _ => specialize (H eq_refl)
         | H : ?A -> _, H' : ?A |- _ => specialize (H H')
         end;
  try congruence; try (left; congruence); try (right; congruence); auto.

(** Reduction of the fields of a state given by its fields. *)
Ltac state_cbn :=
  cbn [game_data fmt profiles num_sw prof visible master global_scale types
       hidden hidden_sets rect pbt pH pT pHide hover hover_radius cache
       hide_calls set_master set_visible set_pbt set_pH set_pT fst snd
       andb negb].

(** A step of the tick that calls [_save] at most once, on a state
    given by its fields: the cases of the call. *)
Ltac save_cases Hs :=
  unfold act_bind, modify, act_ret, save, hidden_sortable; state_cbn;
  try (destruct (forallb _ _) eqn:?; state_cbn);
  repeat split; auto; try discriminate;
  try (intros ?H; apply Hs in H; unfold hidden_sortable in H;
       state_cbn; cbn [hidden hidden_sets] in H; congruence).

(* ================================================================== *)
(** ** Properties of the engine *)

Section Properties.
Import PyFloat PyFloatFacts FloatOrder.

Variable str_to_float : string -> option float.
Variable make_rect : pydict -> result QRect.
Variable build_type_specs : pyval -> result (string -> pyval).

Lemma bind_Ok {A B} (m : result A) (f : A -> result B) b :
  m ≫= f = Ok b -> exists a, m = Ok a /\ f a = Ok b.
Proof. destruct m as [a|e]; simpl; [eauto|discriminate]. Qed.

(* ------------------------------------------------------------------ *)
(** *** [_save] *)

Lemma save_state s : snd (save s) = s.
Proof. unfold save. now destruct (hidden_sortable s). Qed.

Lemma sortable_strings strs : sortable strs [] = true.
Proof. unfold sortable. simpl. now destruct (bool_decide (strs = ∅)). Qed.

Lemma strings_sortable s : strings_only s -> hidden_sortable s = true.
Proof.
  intros H. unfold hidden_sortable. apply forallb_forall.
  intros k Hk%list_elem_of_In. rewrite (H k Hk). apply sortable_strings.
Qed.

Lemma save_strings s : strings_only s -> save s = (Ok tt, s).
Proof. intros H. unfold save. now rewrite strings_sortable. Qed.

(* ------------------------------------------------------------------ *)
(** *** CoordinateTransform *)

Lemma rotate90cw_norm_clamp x y :
  rotate90cw_norm x y = (clamp01 (y / 4095), clamp01 ((4095 - x) / 4095)).
Proof. reflexivity. Qed.

(** C2. For every [(x, y)] with [x] and [y] in [[0, 4095]] the transform
    returns [u], the clamp to [[0, 1]] of [y / 4095.0], and [v], the
    clamp to [[0, 1]] of [(4095 - x) / 4095.0]; both lie in [[0, 1]];
    [(0, 0)] gives [(0, 1)] and [(4095, 4095)] gives [(1, 0)]. *)
Theorem rotate90cw_norm_unit_square (x y : float) :
  (0 <=? x)%float = true -> (x <=? 4095)%float = true ->
  (0 <=? y)%float = true -> (y <=? 4095)%float = true ->
  rotate90cw_norm x y = (clamp01 (y / 4095), clamp01 ((4095 - x) / 4095)) /\
  in_unit (fst (rotate90cw_norm x y)) /\
  in_unit (snd (rotate90cw_norm x y)) /\
  rotate90cw_norm 0 0 = (0, 1)%float /\
  rotate90cw_norm 4095 4095 = (1, 0)%float.
Proof.
  intros Hx0 Hx1 Hy0 Hy1.
  assert (Hx : is_real x = true) by (eapply (between_real 0 4095); eauto).
  assert (Hy : is_real y = true) by (eapply (between_real 0 4095); eauto).
  split; [reflexivity|]. rewrite rotate90cw_norm_clamp. simpl.
  split; [|split; [|split; reflexivity]].
  - apply clamp01_in_unit, div_4095_not_nan, is_real_not_nan, Hy.
  - apply clamp01_in_unit, div_4095_not_nan, sub_4095_not_nan, Hx.
Qed.

(* ------------------------------------------------------------------ *)
(** *** PointCache *)

Lemma build_points_src cat items : forall pts out,
  build_points str_to_float cat items pts = Ok out ->
  Forall (fun p => pt_src p = cat) pts ->
  Forall (fun p => pt_src p = cat) out.
Proof.
  induction items as [|it items IH]; simpl; intros pts out H Hpts.
  - congruence.
  - apply bind_Ok in H as (o & Ho & H).
    destruct o as [pt|]; [|eauto].
    apply (IH _ _ H). apply Forall_app; split; trivial.
    constructor; [|constructor].
    unfold build_point in Ho. destruct it; try discriminate.
    destruct (negb _); try discriminate.
    apply bind_Ok in Ho as (n & _ & Ho).
    destruct (n <? 2)%nat; try discriminate.
    injection Ho as Ho. unfold try_except in Ho.
    destruct (py_index _ 0 ≫= _) as [[q|]|] eqn:E; try discriminate.
    injection Ho as <-.
    apply bind_Ok in E as (c0 & _ & E). apply bind_Ok in E as (x & _ & E).
    apply bind_Ok in E as (c1 & _ & E). apply bind_Ok in E as (y & _ & E).
    now injection E as <-.
Qed.

Lemma build_for_category_src block fmt cat out :
  build_for_category str_to_float block fmt cat = Ok out ->
  Forall (fun p => pt_src p = cat) out.
Proof. intros H. eapply build_points_src; eauto. Qed.

(** C3. After every build of a map's points, for any dataset, format and
    map, the list of [possible_xp] is the concatenation of the lists of
    [towers], [big_towers] and [armories] in that order, each point
    keeping its source category, and its length is the sum of theirs. *)
Theorem possible_xp_is_concatenation (game_data : pyval)
    (fmt map_name : string) (out : gmap string (list point)) :
  build_points_for_map str_to_float game_data fmt map_name = Ok out ->
  union_of out.
Proof.
  unfold build_points_for_map. intros H.
  apply bind_Ok in H as (block & _ & H).
  assert (Hempty : union_of empty_out).
  { exists [], [], []. repeat split; try constructor; reflexivity. }
  destruct block as [b|]; [|injection H as <-; exact Hempty].
  destruct (negb _); [injection H as <-; exact Hempty|].
  apply bind_Ok in H as (o & Ho & H). injection H as <-.
  unfold type_order in Ho. cbn [for_each String.eqb Ascii.eqb Bool.eqb] in Ho.
  repeat match type of Ho with
  | _ ≫= _ = Ok _ => apply bind_Ok in Ho as (? & ? & Ho)
  end.
  repeat match goal with
  | E : _ ≫= _ = Ok _ |- _ => apply bind_Ok in E as (? & ? & E)
  end.
  simplify_eq.
  repeat match goal with
  | E : build_for_category _ _ _ _ = Ok _ |- _ =>
      apply build_for_category_src in E
  end.
  match goal with
  | Ht : Forall (fun p => pt_src p = "towers") ?t,
    Hb : Forall (fun p => pt_src p = "big_towers") ?b,
    Ha : Forall (fun p => pt_src p = "armories") ?a |- _ => exists t, b, a
  end.
  repeat (first [rewrite lookup_insert_eq | rewrite lookup_insert_ne by done]).
  cbn [fold_left default from_option id app].
  rewrite <- (app_assoc _ _ _), !length_app.
  repeat split; trivial. lia.
Qed.

(* ------------------------------------------------------------------ *)
(** *** IdentityResolver *)

Lemma py_round_real f :
  is_real f = true -> exists n, py_round f = Ok n /\ nearest_int f n.
Proof.
  unfold is_real, py_round, round_to_Z, nearest_int.
  destruct (Prim2SF f) as [s|s| |s m e]; simpl; try discriminate; intros _.
  - eauto.
  - eexists; split; [reflexivity|]. apply round_half_even_nearest.
Qed.

(** C4. For a point with finite grid coordinates the identity is
    ["{x}:{y}"] in a source category and ["{src}:{x}:{y}"] in
    [possible_xp], [x] and [y] being integers nearest to the
    coordinates; it is a function of the category and the point, and two
    points of one source category whose coordinates round to the same
    integers have the same identity. *)
Theorem hidden_key_identity (tkey : string) (pt : point) :
  is_real pt.(pt_x) = true -> is_real pt.(pt_y) = true ->
  exists xi yi,
    nearest_int pt.(pt_x) xi /\ nearest_int pt.(pt_y) yi /\
    hidden_key tkey pt = Ok (identity_of tkey pt.(pt_src) xi yi) /\
    (tkey <> "possible_xp" ->
       hidden_key tkey pt = Ok (pretty xi +:+ ":" +:+ pretty yi)) /\
    hidden_key "possible_xp" pt =
      Ok (pt.(pt_src) +:+ ":" +:+ pretty xi +:+ ":" +:+ pretty yi) /\
    forall pt',
      pt'.(pt_src) = pt.(pt_src) ->
      py_round pt'.(pt_x) = Ok xi -> py_round pt'.(pt_y) = Ok yi ->
      hidden_key tkey pt' = hidden_key tkey pt.
Proof.
  intros Hx Hy.
  destruct (py_round_real _ Hx) as (xi & Ex & Nx).
  destruct (py_round_real _ Hy) as (yi & Ey & Ny).
  exists xi, yi. unfold hidden_key, identity_of. rewrite Ex, Ey. simpl.
  repeat split; trivial.
  - now destruct (String.eqb tkey "possible_xp").
  - intros Hne. destruct (String.eqb_spec tkey "possible_xp"); congruence.
  - intros pt' Hs Ex' Ey'. rewrite Ex', Ey', Hs. reflexivity.
Qed.

(* ------------------------------------------------------------------ *)
(** *** HiddenStateStore *)

Lemma is_hidden_hide_ne hs tkey hk tkey' pt :
  tkey <> tkey' ->
  is_hidden (hide hs tkey hk) tkey' pt = is_hidden hs tkey' pt.
Proof.
  intros Hne. unfold is_hidden, hide. now rewrite lookup_insert_ne.
Qed.

(** C5. Hiding the hovered point under one category changes the hidden
    test under no other category: hiding it under [possible_xp] leaves
    the test under its source category as it was, and hiding it under a
    source category leaves the test under [possible_xp] as it was. *)
Theorem hide_is_per_category (s : Overlay) (m tkey : string) (i : nat)
    (pt : point) (tkey' : string) (pt' : point) :
  tkey <> tkey' ->
  s.(hover) = Some (mkHover m tkey i pt) ->
  is_hidden (snd (hide_hovered s)).(hidden_sets) tkey' pt'
  = is_hidden s.(hidden_sets) tkey' pt'.
Proof.
  intros Hne Hh. unfold hide_hovered. simpl. rewrite Hh. simpl.
  destruct (hidden_key tkey pt) as [hk|e]; simpl; trivial.
  unfold act_bind, save. destruct (hidden_sortable _); simpl;
    now apply is_hidden_hide_ne.
Qed.

(* ------------------------------------------------------------------ *)
(** *** ConfigStore *)

Lemma load_config_empty persisted :
  empty_payload persisted = true -> load_config persisted = Ok base_config.
Proof.
  unfold load_config, empty_payload, no_section.
  destruct persisted as [[| | | | | |d]|]; try reflexivity.
  change (default (PDict []) (Some (PDict d))) with (PDict d). cbv beta iota.
  destruct (dict_get d "profiles") as [[]|], (dict_get d "settings") as [[]|];
    try discriminate; reflexivity.
Qed.

Lemma init_types_base fill :
  init_types fill base_settings
  = Ok ((fun k => (k, default_type fill k)) <$> type_order).
Proof. reflexivity. Qed.

(** C8. Loading an empty or malformed persisted payload returns exactly
    the default structure, without raising: the four map profiles are
    there, each with a dict as its [rect_ratio]; and the start-up loops
    give each of the eleven categories a type setting, a hidden list
    and a hidden set. *)
Theorem empty_payload_gives_defaults (persisted : option pyval)
    (fill : string -> pyval) :
  empty_payload persisted = true ->
  load_config persisted = Ok base_config /\
  (forall m, m ∈ MAPS ->
     exists p rr, dict_get base_profiles m = Some (PDict p) /\
                  dict_get p "rect_ratio" = Some (PDict rr)) /\
  length base_profiles = 4%nat /\
  exists types hidden_sets,
    init_types fill base_settings = Ok types /\
    init_hidden_sets (init_hidden base_settings) = Ok hidden_sets /\
    length type_order = 11%nat /\
    forall k, k ∈ type_order ->
      dict_get types k = Some (default_type fill k) /\
      dict_get (init_hidden base_settings) k = Some (PList []) /\
      hidden_sets !! k = Some ∅.
Proof.
  intros H. split; [now apply load_config_empty|].
  split; [|split; [reflexivity|]].
  - intros m Hm. unfold MAPS in Hm.
    repeat (apply elem_of_cons in Hm as [->|Hm];
            [eexists _, _; split; reflexivity|]).
    now apply elem_of_nil in Hm.
  - eexists _, _. split; [apply init_types_base|]. split; [reflexivity|].
    split; [reflexivity|].
    intros k Hk. unfold type_order in Hk.
    repeat (apply elem_of_cons in Hk as [->|Hk]; [repeat split; reflexivity|]).
    now apply elem_of_nil in Hk.
Qed.

(** C9, at its failing input: a persisted [global_scale] that is NaN
    passes both guards of the start-up clamp and is kept, outside
    [[0.10, 5.00]]. *)
Theorem global_scale_nan_unclamped :
  exists st,
    load_config
      (Some (PDict [("settings", PDict [("global_scale", PFloat nan)])]))
    = Ok [("profiles", PDict base_profiles); ("settings", PDict st)] /\
    init_global_scale str_to_float st = Ok nan /\
    in_range 0.10 5.00 nan = false.
Proof. eexists. repeat split; reflexivity. Qed.

(** Every value other than NaN is clamped: the scale kept by
    [_scale_changed] and by the start-up code lies in [[0.10, 5.00]];
    [0.02] gives [0.10] and [9.0] gives [5.00]. *)
Theorem scale_clamped_unless_nan (g : float) :
  not_nan g ->
  in_range 0.10 5.00 (clamp_scale g) = true /\
  (forall s, (snd (scale_changed g s)).(global_scale) = clamp_scale g) /\
  (forall st, dict_get st "global_scale" = Some (PFloat g) ->
     init_global_scale str_to_float st = Ok (clamp_scale g)) /\
  clamp_scale 0.02 = 0.10%float /\ clamp_scale 9.0 = 5.00%float.
Proof.
  intros Hg. split; [now apply clamp_scale_in_range|].
  split.
  { intros s. unfold scale_changed, act_bind, modify, save.
    now destruct (hidden_sortable _). }
  split; [|split; reflexivity].
  intros st Hst. unfold init_global_scale. now rewrite Hst.
Qed.

(** C10. A dataset that is an empty list, or no list at all, is
    classified ["unknown"], and start-up then raises the fatal
    [RuntimeError] whatever the style file and the persisted
    configuration are: nothing of the state is built. *)
Theorem unknown_format_aborts (game_data : pyval) :
  game_data = PList [] \/ is_list game_data = false ->
  detect_data_format game_data = "unknown" /\
  forall poi_style persisted,
    init str_to_float make_rect build_type_specs game_data poi_style persisted
    = Raise (RuntimeError "Unrecognized data.json format").
Proof.
  intros H.
  assert (E : detect_data_format game_data = "unknown").
  { destruct H as [->|H]; [reflexivity|]. now destruct game_data. }
  split; [exact E|]. intros. unfold init. now rewrite E.
Qed.

(* ------------------------------------------------------------------ *)
(** *** HoverHitTester *)


Section HitTest.
Variables (types : pydict) (hs : gmap string (gset string))
          (pts_by_type : gmap string (list point)) (prof : string)
          (mx my : float) (r : QRect).

Lemma scan_points_select tkey pts : forall idx best,
  (forall pt, pt ∈ pts -> exists b, is_hidden hs tkey pt = Ok b) ->
  scan_points hs prof tkey mx my r idx pts best
  = Ok (fold_left (step (d2 mx my r))
          (List.filter (shown hs) (entries_from prof tkey idx pts)) best).
Proof.
  induction pts as [|pt pts IH]; intros idx best H; simpl; trivial.
  destruct (H pt) as [b Hb]; [left|].
  unfold shown at 1. simpl. rewrite Hb. simpl.
  assert (H' : forall pt, pt ∈ pts -> exists b, is_hidden hs tkey pt = Ok b)
    by (intros; apply H; now right).
  destruct b; simpl; [now apply IH|].
  unfold step at 2, d2 at 2. simpl. rewrite <- !(IH _ _ H').
  now destruct (dist2 mx my r pt <=? snd best)%float.
Qed.

Lemma cat_candidates_eq tkey b :
  type_enabled types tkey = Ok b ->
  cat_candidates types hs pts_by_type prof tkey =
    if b then List.filter (shown hs)
                (entries_from prof tkey 0 (default [] (pts_by_type !! tkey)))
    else [].
Proof. unfold cat_candidates, enabled. intros ->. now destruct b. Qed.

Lemma scan_types_select tkeys : forall best,
  (forall tkey, tkey ∈ tkeys -> exists b, type_enabled types tkey = Ok b) ->
  (forall tkey pt, tkey ∈ tkeys -> type_enabled types tkey = Ok true ->
     pt ∈ default [] (pts_by_type !! tkey) ->
     exists b, is_hidden hs tkey pt = Ok b) ->
  scan_types types hs pts_by_type prof mx my r tkeys best
  = Ok (fold_left (step (d2 mx my r))
          (concat (cat_candidates types hs pts_by_type prof <$> tkeys)) best).
Proof.
  induction tkeys as [|tkey tkeys IH]; intros best Ht Hp; simpl; trivial.
  destruct (Ht tkey) as [b Hb]; [left|].
  rewrite fold_left_app, (cat_candidates_eq _ _ Hb), Hb. simpl.
  assert (IH' := fun best => IH best
    (fun k Hk => Ht k (list_elem_of_further _ _ _ Hk))
    (fun k pt Hk => Hp k pt (list_elem_of_further _ _ _ Hk))).
  destruct b; simpl; [|apply IH'].
  rewrite scan_points_select; [simpl; apply IH'|].
  intros pt Hpt. apply (Hp tkey pt); trivial. left.
Qed.

Lemma entries_from_lookup tkey pts : forall idx i h,
  entries_from prof tkey idx pts !! i = Some h <->
  exists pt, pts !! i = Some pt /\ h = mkHover prof tkey (idx + i) pt.
Proof.
  induction pts as [|pt pts IH]; intros idx i h; simpl.
  - rewrite !lookup_nil. split; [discriminate|]. now intros (? & ? & _).
  - destruct i as [|i]; simpl.
    + rewrite Nat.add_0_r. split.
      * intros [= <-]. eauto.
      * intros (? & [= <-] & ->). reflexivity.
    + rewrite IH. now replace (S idx + i)%nat with (idx + S i)%nat by lia.
Qed.

Lemma candidates_elem h :
  h ∈ candidates types hs pts_by_type prof <->
  h.(h_map) = prof /\ h.(h_type) ∈ type_order /\
  type_enabled types h.(h_type) = Ok true /\
  default [] (pts_by_type !! h.(h_type)) !! h.(h_index) = Some h.(h_pt_ref) /\
  is_hidden hs h.(h_type) h.(h_pt_ref) = Ok false.
Proof.
  unfold candidates. rewrite list_elem_of_In, in_concat. split.
  - intros (l & Hl & Hh). apply list_elem_of_In in Hl, Hh.
    apply list_elem_of_fmap in Hl as (tkey & -> & Htk).
    unfold cat_candidates in Hh.
    destruct (enabled types tkey) eqn:En; [|now apply elem_of_nil in Hh].
    apply list_elem_of_In, filter_In in Hh as [Hh Hs].
    apply list_elem_of_In, list_elem_of_lookup in Hh as [i Hi].
    apply entries_from_lookup in Hi as (pt & Hpt & ->). simpl in *.
    unfold enabled in En. unfold shown in Hs. simpl in Hs.
    destruct (type_enabled types tkey) as [[]|]; try discriminate.
    destruct (is_hidden hs tkey pt) as [[]|]; try discriminate. auto.
  - intros (Hm & Htk & En & Hpt & Hid). destruct h as [m tkey i pt]. simpl in *.
    subst m.
    assert (Hin : In (cat_candidates types hs pts_by_type prof tkey)
                     (cat_candidates types hs pts_by_type prof <$> type_order))
      by (apply list_elem_of_In, list_elem_of_fmap; eauto).
    exists (cat_candidates types hs pts_by_type prof tkey).
    split; [exact Hin|].
    unfold cat_candidates, enabled. rewrite En.
    apply filter_In. split.
    + apply (proj1 (list_elem_of_In _ _)), list_elem_of_lookup. exists i.
      apply entries_from_lookup. eauto.
    + unfold shown. simpl. now rewrite Hid.
Qed.

Lemma scan_points_returns tkey pts : forall idx best best',
  scan_points hs prof tkey mx my r idx pts best = Ok best' ->
  forall pt, pt ∈ pts -> exists b, is_hidden hs tkey pt = Ok b.
Proof.
  induction pts as [|p pts IH]; simpl; intros idx best best' H pt Hpt.
  - now apply elem_of_nil in Hpt.
  - apply bind_Ok in H as (hid & Hh & H).
    apply elem_of_cons in Hpt as [->|Hpt]; [eauto|].
    destruct hid; [eauto|]. destruct (_ <=? _)%float; eauto.
Qed.

Lemma scan_types_returns tkeys : forall best best',
  scan_types types hs pts_by_type prof mx my r tkeys best = Ok best' ->
  (forall tkey, tkey ∈ tkeys -> exists b, type_enabled types tkey = Ok b) /\
  (forall tkey pt, tkey ∈ tkeys -> type_enabled types tkey = Ok true ->
     pt ∈ default [] (pts_by_type !! tkey) ->
     exists b, is_hidden hs tkey pt = Ok b).
Proof.
  induction tkeys as [|tkey tkeys IH]; simpl; intros best best' H.
  - split; intros; exfalso; eapply elem_of_nil; eauto.
  - apply bind_Ok in H as (en & Hen & H).
    destruct en; simpl in H.
    + apply bind_Ok in H as (b1 & H1 & H). apply IH in H as [Ht Hp].
      split.
      * intros k [->|Hk]%elem_of_cons; eauto.
      * intros k pt [->|Hk]%elem_of_cons; [|eauto].
        intros _ Hpt. eapply scan_points_returns; eauto.
    + apply IH in H as [Ht Hp]. split.
      * intros k [->|Hk]%elem_of_cons; eauto.
      * intros k pt [->|Hk]%elem_of_cons; [|eauto]. congruence.
Qed.
End HitTest.




(* ------------------------------------------------------------------ *)
(** *** InputEdgeDetector *)

Lemma tick_toggle_fields k s :
  let r := tick_toggle k s in
  let s' := snd r in
  s'.(pH) = s.(pH) /\ s'.(pT) = s.(pT) /\ s'.(pHide) = s.(pHide) /\
  s'.(hide_calls) = s.(hide_calls) /\ s'.(hover) = s.(hover) /\
  s'.(hidden) = s.(hidden) /\
  (s'.(pbt) = k.(key_bt) \/ s'.(pbt) = s.(pbt)) /\
  (fst r = Ok tt -> s'.(pbt) = k.(key_bt)) /\
  (strings_only s -> fst r = Ok tt).
Proof.
  pose proof (strings_sortable s) as Hs. revert Hs.
  destruct s as [gd fm pr ns p vi ma gs ty hi hs re b1 b2 b3 b4 ho hr ca hc].
  unfold tick_toggle. state_cbn. intros Hs.
  destruct (key_bt k), b1, ma, vi; save_cases Hs.
Qed.

Lemma tick_hide_fields k s :
  let r := tick_hide k s in
  let s' := snd r in
  s'.(pbt) = s.(pbt) /\ s'.(pT) = s.(pT) /\ s'.(pHide) = s.(pHide) /\
  s'.(hide_calls) = s.(hide_calls) /\ s'.(hover) = s.(hover) /\
  s'.(hidden) = s.(hidden) /\ s'.(master) = s.(master) /\
  (s'.(pH) = k.(key_h) \/ s'.(pH) = s.(pH)) /\
  (fst r = Ok tt -> s'.(pH) = k.(key_h)) /\
  (strings_only s -> fst r = Ok tt).
Proof.
  pose proof (strings_sortable s) as Hs. revert Hs.
  destruct s as [gd fm pr ns p vi ma gs ty hi hs re b1 b2 b3 b4 ho hr ca hc].
  unfold tick_hide. state_cbn. intros Hs.
  destruct (key_h k), b2, vi; save_cases Hs.
Qed.

Lemma tick_master_fields k s :
  let r := tick_master k s in
  let s' := snd r in
  s'.(pT) = s.(pT) /\ s'.(pHide) = s.(pHide) /\
  s'.(hide_calls) = s.(hide_calls) /\ s'.(hover) = s.(hover) /\
  s'.(hidden) = s.(hidden) /\
  (s'.(pbt) = k.(key_bt) \/ s'.(pbt) = s.(pbt)) /\
  (s'.(pH) = k.(key_h) \/ s'.(pH) = s.(pH)) /\
  (fst r = Ok tt -> s'.(pbt) = k.(key_bt) /\ s'.(pH) = k.(key_h)) /\
  (strings_only s -> fst r = Ok tt).
Proof.
  unfold tick_master, act_bind.
  pose proof (tick_toggle_fields k s)
    as (A1 & A2 & A3 & A4 & A5 & A6 & A7 & A8 & A9).
  cbv zeta in *.
  destruct (tick_toggle k s) as [[[]|e] s1]; cbn [fst snd] in *.
  2:{ repeat split; auto; try discriminate. }
  pose proof (tick_hide_fields k s1)
    as (B1 & B2 & B3 & B4 & B5 & B6 & B7 & B8 & B9 & B10).
  cbv zeta in *.
  assert (So : strings_only s -> strings_only s1).
  { unfold strings_only. now rewrite A6. }
  destruct (tick_hide k s1) as [rh s2]; cbn [fst snd] in *.
  do 5 (split; [congruence|]).
  split; [destruct A7; [left|right]; congruence|].
  split; [destruct B8; [left|right]; congruence|].
  split; [|auto].
  intros H. split; [rewrite B1|]; auto.
Qed.

Lemma tick_tab_fields k s :
  let r := tick_tab k s in
  let s' := snd r in
  s'.(pbt) = s.(pbt) /\ s'.(pH) = s.(pH) /\ s'.(pHide) = s.(pHide) /\
  s'.(hide_calls) = s.(hide_calls) /\ s'.(hover) = s.(hover) /\
  s'.(master) = s.(master) /\ s'.(hidden) = s.(hidden) /\
  (s'.(pT) = k.(key_tab) \/ s'.(pT) = s.(pT)) /\
  (fst r = Ok tt -> s'.(pT) = k.(key_tab)) /\
  (strings_only s -> fst r = Ok tt).
Proof.
  pose proof (strings_sortable s) as Hs. revert Hs.
  destruct s as [gd fm pr ns p vi ma gs ty hi hs re b1 b2 b3 b4 ho hr ca hc].
  unfold tick_tab. state_cbn. intros Hs.
  destruct (key_tab k), b3; save_cases Hs.
Qed.

Lemma apply_rect_keeps s :
  keeps s (snd (apply_rect make_rect s)) /\
  (snd (apply_rect make_rect s)).(hover) = s.(hover).
Proof.
  unfold apply_rect, keeps.
  destruct (dict_get (profiles s) (prof s)) as [[| | | | | |p]|]; simpl; auto 10.
  destruct (dict_get p "rect_ratio") as [[| | | | | |rr]|]; simpl; auto 10.
  destruct (make_rect rr); simpl; auto 10.
Qed.

Lemma switch_keeps name s :
  keeps s (snd (switch make_rect name s)) /\
  (snd (switch make_rect name s)).(hover) = s.(hover).
Proof.
  unfold switch. destruct (_ && _); simpl; [|unfold keeps; auto 10].
  unfold act_bind, modify.
  pose proof (apply_rect_keeps (set_prof name s)) as [H1 H2].
  destruct (apply_rect make_rect (set_prof name s)) as [[[]|e] s'];
    simpl in *; [rewrite save_state|]; auto.
Qed.

Lemma tick_switch_keeps k s :
  keeps s (snd (tick_switch make_rect k s)) /\
  (snd (tick_switch make_rect k s)).(hover) = s.(hover).
Proof.
  unfold tick_switch.
  destruct (visible s && num_sw s); [|unfold keeps; simpl; auto 10].
  destruct (key_1 k); [apply switch_keeps|].
  destruct (key_2 k); [apply switch_keeps|].
  destruct (key_3 k); [apply switch_keeps|].
  destruct (key_4 k); [apply switch_keeps|].
  unfold keeps; simpl; auto 10.
Qed.

Lemma scan_points_ok hs prof tkey mx my r pts : forall idx best best',
  scan_points hs prof tkey mx my r idx pts best = Ok best' ->
  (forall h, fst best = Some h ->
     exists hk, hidden_key h.(h_type) h.(h_pt_ref) = Ok hk) ->
  (forall h, fst best' = Some h ->
     exists hk, hidden_key h.(h_type) h.(h_pt_ref) = Ok hk).
Proof.
  induction pts as [|pt pts IH]; simpl; intros idx best best' H Hb.
  - now injection H as <-.
  - apply bind_Ok in H as (hid & Hh & H).
    destruct hid; [eauto|].
    destruct (_ <=? _)%float; [|eauto].
    eapply IH; [exact H|]. simpl. intros h [= <-]. simpl.
    unfold is_hidden in Hh. apply bind_Ok in Hh as (hk & -> & _). eauto.
Qed.

Lemma scan_types_ok types hs pbt prof mx my r tkeys : forall best best',
  scan_types types hs pbt prof mx my r tkeys best = Ok best' ->
  (forall h, fst best = Some h ->
     exists hk, hidden_key h.(h_type) h.(h_pt_ref) = Ok hk) ->
  (forall h, fst best' = Some h ->
     exists hk, hidden_key h.(h_type) h.(h_pt_ref) = Ok hk).
Proof.
  induction tkeys as [|tkey tkeys IH]; simpl; intros best best' H Hb.
  - now injection H as <-.
  - apply bind_Ok in H as (en & _ & H).
    destruct (negb en); [eauto|].
    apply bind_Ok in H as (b1 & H1 & H).
    eapply IH; [exact H|]. eapply scan_points_ok; eauto.
Qed.

Lemma update_hover_keeps lx ly s :
  keeps s (snd (update_hover lx ly s)) /\ hover_ok (snd (update_hover lx ly s)).
Proof.
  unfold update_hover, keeps, hover_ok.
  destruct (rect (set_hover None s)) as [r|] eqn:Er; simpl; auto 10.
  destruct (master s && visible s); simpl; auto 10.
  destruct (hit_test _ _ _ _ _ _ _ _) as [best|e] eqn:E; simpl; auto 10.
  repeat split. destruct best as [h|]; trivial.
  unfold hit_test in E.
  destruct (scan_types _ _ _ _ _ _ _ _ _) as [b|] eqn:E'; try discriminate.
  simpl in E. injection E as E.
  eapply (scan_types_ok _ _ _ _ _ _ _ _ _ _ E'); [|exact E].
  simpl. discriminate.
Qed.

(** What [_hide_hovered] does to the fields of the edge detector: it
    raises when the hovered point has no identity, and when [_save]
    raises. *)
Lemma hide_hovered_fields s :
  let r := hide_hovered s in
  let s' := snd r in
  s'.(pbt) = s.(pbt) /\ s'.(pH) = s.(pH) /\ s'.(pT) = s.(pT) /\
  s'.(pHide) = s.(pHide) /\ s'.(master) = s.(master) /\
  s'.(hidden) = s.(hidden) /\ s'.(hide_calls) = S s.(hide_calls) /\
  (hover_ok s -> hover_ok s') /\
  (strings_only s -> hover_ok s -> fst r = Ok tt).
Proof.
  unfold hide_hovered, hover_ok. cbn zeta.
  destruct (hover s) as [h|] eqn:Eh; cbn [hover set_hide_calls].
  2:{ rewrite Eh. cbn. repeat split; auto. now rewrite Eh. }
  rewrite Eh.
  destruct (hidden_key (h_type h) (h_pt_ref h)) as [hk|e] eqn:Ek.
  2:{ cbn. rewrite Eh, Ek. repeat split; auto.
      intros _ [hk' ?]. congruence. }
  unfold act_bind, modify.
  match goal with |- context [save ?x] => set (s2 := x) end.
  pose proof (save_state s2) as Hst.
  pose proof (save_strings s2) as Hso.
  destruct (save s2) as [[[]|e] s3]; cbn [fst snd] in *; subst s3.
  - subst s2. cbn. repeat split; auto.
  - subst s2. cbn. rewrite Eh, Ek. repeat split; eauto.
    intros H _. apply Hso in H. discriminate.
Qed.

Lemma tick_chord_summary k s :
  let r := tick_chord k s in
  let s' := snd r in
  s'.(pbt) = s.(pbt) /\ s'.(pH) = s.(pH) /\ s'.(pT) = s.(pT) /\
  s'.(master) = s.(master) /\ s'.(hidden) = s.(hidden) /\
  (hover_ok s -> hover_ok s') /\
  match fst r with
  | Ok _ => s'.(pHide) = chord k /\
            s'.(hide_calls) = (s.(hide_calls) + fires k s)%nat
  | Raise _ => s'.(pHide) = s.(pHide) /\ ~ (strings_only s /\ hover_ok s)
  end.
Proof.
  unfold tick_chord, fires, act_bind, modify.
  destruct (chord k && negb (pHide s)) eqn:E.
  2:{ unfold act_ret. cbn. repeat (split; trivial); lia. }
  pose proof (hide_hovered_fields s)
    as (H1 & H2 & H3 & H4 & H5 & H6 & H7 & H8 & H9).
  cbv zeta in *.
  destruct (hide_hovered s) as [[[]|e] s']; cbn [fst snd] in *.
  - apply andb_prop in E as [-> _]. cbn. repeat (split; trivial); lia.
  - fields.
Qed.

(** What the part of a tick behind the master gate does to the fields
    of the edge detector. *)
Lemma tick_gated_summary k s :
  let r := tick_gated make_rect k s in
  let s' := snd r in
  s'.(pbt) = s.(pbt) /\ s'.(pH) = s.(pH) /\ s'.(master) = s.(master) /\
  s'.(hidden) = s.(hidden) /\
  (hover_ok s -> hover_ok s') /\
  (s'.(pT) = k.(key_tab) \/ s'.(pT) = s.(pT)) /\
  (s'.(pHide) = chord k \/ s'.(pHide) = s.(pHide)) /\
  (strings_only s -> s'.(pT) = k.(key_tab)) /\
  match fst r with
  | Ok _ => s'.(pT) = k.(key_tab) /\ s'.(pHide) = chord k /\
            s'.(hide_calls) = (s.(hide_calls) + fires k s)%nat
  | Raise _ => s'.(pHide) = s.(pHide) /\
               (strings_only s -> hover_ok s ->
                s'.(hide_calls) = s.(hide_calls))
  end.
Proof.
  unfold tick_gated, act_bind.
  pose proof (tick_tab_fields k s)
    as (T1 & T2 & T3 & T4 & T5 & T6 & T7 & T8 & T9 & T10).
  cbv zeta in *.
  destruct (tick_tab k s) as [rt s2]; cbn [fst snd] in *.
  assert (H2 : hover_ok s -> hover_ok s2)
    by (unfold hover_ok in *; now rewrite T5).
  destruct rt as [[]|e]; cbn [fst snd].
  2:{ clear T9. fields. }
  specialize (T9 eq_refl). clear T8 T10.
  pose proof (tick_switch_keeps k s2)
    as [(W1 & W2 & W3 & W4 & W5 & W6 & W7) W8].
  destruct (tick_switch make_rect k s2) as [[[]|e] s3]; cbn [fst snd] in *.
  2:{ assert (H3 : hover_ok s -> hover_ok s3)
        by (unfold hover_ok in *; now rewrite W8).
      clear H2. fields. }
  assert (H3 : hover_ok s -> hover_ok s3)
    by (unfold hover_ok in *; now rewrite W8).
  clear H2.
  assert (U : keeps s3 (snd ((if visible s3
                then update_hover (cursor_x k) (cursor_y k) s3
                else (Ok (), s3)))) /\
              (hover_ok s -> hover_ok (snd ((if visible s3
                then update_hover (cursor_x k) (cursor_y k) s3
                else (Ok (), s3)))))).
  { destruct (visible s3).
    - pose proof (update_hover_keeps (cursor_x k) (cursor_y k) s3) as [? ?].
      auto.
    - cbn [snd]. split; [unfold keeps; auto 10|trivial]. }
  destruct U as [(U1 & U2 & U3 & U4 & U5 & U6 & U7) U8].
  destruct (if visible s3 then _ else _) as [[[]|e] s4]; cbn [fst snd] in *.
  2:{ clear H3. fields. }
  clear H3.
  pose proof (tick_chord_summary k s4) as (C1 & C2 & C3 & C4 & C5 & C6 & C7).
  cbv zeta in C1, C2, C3, C4, C5, C6, C7.
  assert (F : fires k s4 = fires k s).
  { unfold fires. now rewrite U4, W4, T3. }
  assert (So : strings_only s -> strings_only s4).
  { unfold strings_only. now rewrite U7, W7, T7. }
  destruct (tick_chord k s4) as [[[]|e] s5]; cbn [fst snd] in *.
  - fields.
  - fields. exfalso; auto.
Qed.

Lemma tick_eq k s :
  tick make_rect k s
  = match tick_master k s with
    | (Ok _, s1) =>
        if negb s1.(master) then (Ok tt, s1) else tick_gated make_rect k s1
    | (Raise e, s1) => (Raise e, s1)
    end.
Proof. reflexivity. Qed.

(** What one tick does to the fields of the edge detector. *)
Lemma tick_summary k s :
  let r := tick make_rect k s in
  let s' := snd r in
  s'.(hidden) = s.(hidden) /\
  s'.(master) = (snd (tick_master k s)).(master) /\
  (hover_ok s -> hover_ok s') /\
  (s'.(pbt) = k.(key_bt) \/ s'.(pbt) = s.(pbt)) /\
  (s'.(pH) = k.(key_h) \/ s'.(pH) = s.(pH)) /\
  (s'.(pT) = k.(key_tab) \/ s'.(pT) = s.(pT)) /\
  (s'.(pHide) = chord k \/ s'.(pHide) = s.(pHide)) /\
  (strings_only s \/ fst r = Ok tt ->
     s'.(pbt) = k.(key_bt) /\ s'.(pH) = k.(key_h) /\
     (s'.(master) = true -> s'.(pT) = k.(key_tab))) /\
  (s'.(master) = false ->
     s'.(pT) = s.(pT) /\ s'.(pHide) = s.(pHide) /\
     s'.(hide_calls) = s.(hide_calls) /\
     (strings_only s -> fst r = Ok tt)) /\
  (s'.(master) = true ->
     match fst r with
     | Ok _ => s'.(pHide) = chord k /\
               s'.(hide_calls) = (s.(hide_calls) + fires k s)%nat
     | Raise _ => s'.(pHide) = s.(pHide) /\
                  (strings_only s -> hover_ok s ->
                   s'.(hide_calls) = s.(hide_calls))
     end) /\
  (forall e, fst r = Raise e -> s'.(pHide) = s.(pHide)).
Proof.
  rewrite tick_eq.
  pose proof (tick_master_fields k s)
    as (M1 & M2 & M3 & M4 & M5 & M6 & M7 & M8 & M9).
  cbv zeta in *.
  destruct (tick_master k s) as [rm s1]; cbn [fst snd] in *.
  assert (H1 : hover_ok s -> hover_ok s1) by (unfold hover_ok; now rewrite M4).
  destruct rm as [[]|e]; cbn [fst snd].
  2:{ clear M8. fields. }
  destruct (M8 eq_refl) as [M10 M11]. clear M8 M9.
  destruct (master s1) eqn:Em; cbn [negb fst snd].
  2:{ rewrite Em. fields. }
  pose proof (tick_gated_summary k s1)
    as (G1 & G2 & G3 & G4 & G5 & G6 & G7 & G8 & G9).
  cbv zeta in *.
  assert (So : strings_only s -> strings_only s1).
  { unfold strings_only. now rewrite M5. }
  assert (F : fires k s1 = fires k s) by (unfold fires; now rewrite M2).
  assert (H2 : hover_ok s -> hover_ok (snd (tick_gated make_rect k s1)))
    by auto.
  clear G5.
  destruct (tick_gated make_rect k s1) as [rg s2]; cbn [fst snd] in *.
  rewrite G3, Em.
  destruct rg as [[]|e]; fields.
Qed.

(** C7, as amended. On a tick that returns, and on every tick from a
    state whose hidden sets hold strings only (so that [_save] cannot
    raise), the previous samples of the master toggle and of the hide
    key are set to the tick's samples, and that of the visible toggle
    is set when master is on after the master toggle. The chord's is
    set only when master is on after the master toggle and the tick
    returns. When master is off after the master toggle, the samples
    of the visible toggle and of the chord keep their values, and a
    tick that raises leaves the chord's as it was. In every case each
    stored sample is, after the tick, the tick's sample or the value
    it had: when [_save] raises, the assignments behind it are
    skipped. *)
Theorem previous_samples_after_tick (k : sample) (s : Overlay) :
  let r := tick make_rect k s in
  let s' := tick_safe make_rect k s in
  s'.(master) = (snd (tick_master k s)).(master) /\
  (strings_only s \/ fst r = Ok tt ->
     s'.(pbt) = k.(key_bt) /\ s'.(pH) = k.(key_h) /\
     (s'.(master) = true -> s'.(pT) = k.(key_tab))) /\
  (s'.(master) = true -> fst r = Ok tt -> s'.(pHide) = chord k) /\
  (s'.(master) = false -> s'.(pT) = s.(pT) /\ s'.(pHide) = s.(pHide)) /\
  (forall e, fst r = Raise e -> s'.(pHide) = s.(pHide)) /\
  (s'.(pbt) = k.(key_bt) \/ s'.(pbt) = s.(pbt)) /\
  (s'.(pH) = k.(key_h) \/ s'.(pH) = s.(pH)) /\
  (s'.(pT) = k.(key_tab) \/ s'.(pT) = s.(pT)) /\
  (s'.(pHide) = chord k \/ s'.(pHide) = s.(pHide)).
Proof.
  unfold tick_safe.
  pose proof (tick_summary k s)
    as (H1 & H2 & H3 & H4 & H5 & H6 & H7 & H8 & H9 & H10 & H11).
  cbv zeta in *.
  destruct (tick make_rect k s) as [res s']. cbn [fst snd] in *.
  split; [exact H2|]. split; [exact H8|]. split.
  { intros Hm ->. now apply H10 in Hm. }
  split.
  { intros Hm. apply H9 in Hm as (? & ? & _). auto. }
  auto 10.
Qed.

Lemma held_tick k s :
  strings_only s -> hover_ok s -> chord k = true ->
  let s' := tick_safe make_rect k s in
  strings_only s' /\ hover_ok s' /\
  (s.(pHide) = true ->
     s'.(pHide) = true /\ s'.(hide_calls) = s.(hide_calls)) /\
  (s.(pHide) = false ->
     (s'.(pHide) = false /\ s'.(hide_calls) = s.(hide_calls)) \/
     (s'.(pHide) = true /\ s'.(hide_calls) = S s.(hide_calls))).
Proof.
  intros Hso Hok Hk. unfold tick_safe.
  pose proof (tick_summary k s)
    as (H1 & H2 & H3 & H4 & H5 & H6 & H7 & H8 & H9 & H10 & H11).
  cbv zeta in *. unfold fires in H10. rewrite Hk in H10.
  destruct (tick make_rect k s) as [res s']. cbn [fst snd] in *.
  split; [unfold strings_only; now rewrite H1|].
  split; [auto|].
  destruct (master s') eqn:Em.
  - specialize (H10 eq_refl).
    destruct res as [[]|e]; destruct H10 as [H10 H12].
    + split; intros Hp; rewrite Hp in H12; simpl in H12.
      * split; [trivial|lia].
      * right. split; [trivial|lia].
    + specialize (H12 Hso Hok). split; intros Hp; [|left]; split; congruence.
  - destruct (H9 eq_refl) as (_ & H12 & H13 & _).
    split; intros Hp; [|left]; split; congruence.
Qed.

Lemma held_run ks : forall s,
  Forall (fun k => chord k = true) ks -> strings_only s -> hover_ok s ->
  (s.(pHide) = true -> (run make_rect ks s).(hide_calls) = s.(hide_calls)) /\
  (s.(hide_calls) <= (run make_rect ks s).(hide_calls) <= S s.(hide_calls))%nat.
Proof.
  induction ks as [|k ks IH]; intros s Hks Hso Hok; simpl.
  - split; [trivial|lia].
  - apply Forall_cons in Hks as [Hk Hks].
    destruct (held_tick k s Hso Hok Hk) as (Hso' & Hok' & Ht & Hf).
    destruct (IH _ Hks Hso' Hok') as [IH1 IH2].
    change (fold_left _ ks ?x) with (run make_rect ks x) in *.
    destruct (pHide s) eqn:Ep.
    + destruct Ht as [Ht1 Ht2]; trivial. rewrite IH1 by trivial.
      split; [congruence|lia].
    + split; [discriminate|].
      destruct Hf as [[Hf1 Hf2]|[Hf1 Hf2]]; trivial; [lia|].
      rewrite IH1 by trivial. lia.
Qed.

(** C6, as amended. Take a state whose hidden sets hold strings only
    (so that [_save] cannot raise) and whose previous chord sample is
    "not held", and a run of ticks on which the chord is held
    throughout. The hide action is called at most once during the run.
    When master is on after the master toggle of the first tick and
    that tick returns, it is called exactly once, on that tick, and
    not again while the chord stays held. When master is off on the
    first tick it is not called on that tick and the chord's previous
    sample stays "not held". *)
Theorem chord_fires_once_per_hold (s : Overlay) (k : sample)
    (ks : list sample) :
  strings_only s -> hover_ok s -> s.(pHide) = false ->
  chord k = true -> Forall (fun k' => chord k' = true) ks ->
  let s1 := tick_safe make_rect k s in
  ((run make_rect (k :: ks) s).(hide_calls) <= S s.(hide_calls))%nat /\
  ((snd (tick_master k s)).(master) = true ->
   fst (tick make_rect k s) = Ok tt ->
     s1.(hide_calls) = S s.(hide_calls) /\ s1.(pHide) = true /\
     (run make_rect ks s1).(hide_calls) = S s.(hide_calls)) /\
  ((snd (tick_master k s)).(master) = false ->
     s1.(hide_calls) = s.(hide_calls) /\ s1.(pHide) = false).
Proof.
  intros Hso Hok Hp Hk Hks s1.
  destruct (held_run (k :: ks) s (Forall_cons_2 _ _ _ Hk Hks) Hso Hok)
    as [_ [_ R]].
  split; [exact R|].
  destruct (held_tick k s Hso Hok Hk) as (Hso1 & Hok1 & _).
  pose proof (tick_summary k s)
    as (H1 & H2 & H3 & H4 & H5 & H6 & H7 & H8 & H9 & H10 & H11).
  cbv zeta in *. unfold fires in H10. rewrite Hk, Hp in H10.
  subst s1. unfold tick_safe in *.
  destruct (tick make_rect k s) as [res s'] eqn:Et. cbn [fst snd] in *.
  split.
  - intros Hm ->. rewrite <- H2 in Hm. destruct (H10 Hm) as [H12 H13].
    cbn in H13. assert (H14 : hide_calls s' = S (hide_calls s)) by lia.
    repeat split; trivial.
    destruct (held_run ks s' Hks Hso1 Hok1) as [R1 _].
    rewrite R1; trivial.
  - intros Hm. rewrite <- H2 in Hm. destruct (H9 Hm) as (_ & H12 & H13 & _).
    split; congruence.
Qed.

End Properties.

(* ================================================================== *)
(** ** The properties at concrete inputs *)

(** Witness of C2 at the grid point [(1000, 3000)]. *)
Lemma rotate90cw_norm_unit_square_witness :
  rotate90cw_norm 1000 3000
    = (clamp01 (3000 / 4095), clamp01 ((4095 - 1000) / 4095)) /\
  in_unit (fst (rotate90cw_norm 1000 3000)) /\
  in_unit (snd (rotate90cw_norm 1000 3000)) /\
  rotate90cw_norm 0 0 = (0, 1)%float /\
  rotate90cw_norm 4095 4095 = (1, 0)%float.
Proof.
  apply (rotate90cw_norm_unit_square 1000 3000); reflexivity.
Defined.

(** Witness of C3 on [sample_data]. *)
Lemma possible_xp_is_concatenation_witness :
  exists out,
    build_points_for_map no_float_literal sample_data "named" "DeSalle" = Ok out /\
    union_of out.
Proof.
  eexists. split; [reflexivity|].
  apply (possible_xp_is_concatenation no_float_literal sample_data "named" "DeSalle").
  reflexivity.
Defined.

(** Witness of C4 at the point [(100, 200)]. *)
Lemma hidden_key_identity_witness :
  exists xi yi,
    nearest_int pt_100_200.(pt_x) xi /\ nearest_int pt_100_200.(pt_y) yi /\
    hidden_key "towers" pt_100_200
      = Ok (identity_of "towers" pt_100_200.(pt_src) xi yi) /\
    ("towers" <> "possible_xp" ->
       hidden_key "towers" pt_100_200 = Ok (pretty xi +:+ ":" +:+ pretty yi)) /\
    hidden_key "possible_xp" pt_100_200 =
      Ok (pt_100_200.(pt_src) +:+ ":" +:+ pretty xi +:+ ":" +:+ pretty yi) /\
    forall pt',
      pt'.(pt_src) = pt_100_200.(pt_src) ->
      py_round pt'.(pt_x) = Ok xi -> py_round pt'.(pt_y) = Ok yi ->
      hidden_key "towers" pt' = hidden_key "towers" pt_100_200.
Proof.
  apply (hidden_key_identity "towers" pt_100_200); reflexivity.
Defined.

(** Witness of C5: the scenario of the spec. The point [(100, 200)] is
    hovered under [possible_xp] and hidden there; under [towers] the
    hidden test is what it was. *)
Lemma hide_is_per_category_witness :
  let s := set_hover (Some (mkHover "DeSalle" "possible_xp" 0 pt_100_200))
                     overlay_on in
  is_hidden (snd (hide_hovered s)).(hidden_sets) "towers" pt_100_200
  = is_hidden s.(hidden_sets) "towers" pt_100_200.
Proof.
  intros s.
  apply (hide_is_per_category s "DeSalle" "possible_xp" 0 pt_100_200
           "towers" pt_100_200); [discriminate|reflexivity].
Defined.

(** Witness of C8 at a payload that is a list. *)
Lemma empty_payload_gives_defaults_witness :
  load_config (Some (PList [])) = Ok base_config /\
  (forall m, m ∈ MAPS ->
     exists p rr, dict_get base_profiles m = Some (PDict p) /\
                  dict_get p "rect_ratio" = Some (PDict rr)) /\
  length base_profiles = 4%nat /\
  exists types hidden_sets,
    init_types (fun _ => PList [PInt 180; PInt 180; PInt 180]) base_settings
      = Ok types /\
    init_hidden_sets (init_hidden base_settings) = Ok hidden_sets /\
    length type_order = 11%nat /\
    forall k, k ∈ type_order ->
      dict_get types k
        = Some (default_type (fun _ => PList [PInt 180; PInt 180; PInt 180]) k) /\
      dict_get (init_hidden base_settings) k = Some (PList []) /\
      hidden_sets !! k = Some ∅.
Proof.
  apply (empty_payload_gives_defaults (Some (PList []))
           (fun _ => PList [PInt 180; PInt 180; PInt 180])).
  reflexivity.
Defined.

(** Witness of C10 at the empty list. *)
Lemma unknown_format_aborts_witness :
  detect_data_format (PList []) = "unknown" /\
  forall poi_style persisted,
    init no_float_literal square_rect (fun _ => Ok (fun _ => PList []))
         (PList []) poi_style persisted
    = Raise (RuntimeError "Unrecognized data.json format").
Proof.
  apply (unknown_format_aborts no_float_literal square_rect
           (fun _ => Ok (fun _ => PList [])) (PList [])).
  left. reflexivity.
Defined.

(** Witness of the clamp at [0.02]. *)
Lemma scale_clamped_unless_nan_witness :
  in_range 0.10 5.00 (clamp_scale 0.02) = true /\
  (forall s, (snd (scale_changed 0.02 s)).(global_scale) = clamp_scale 0.02) /\
  (forall st, dict_get st "global_scale" = Some (PFloat 0.02) ->
     init_global_scale no_float_literal st = Ok (clamp_scale 0.02)) /\
  clamp_scale 0.02 = 0.10%float /\ clamp_scale 9.0 = 5.00%float.
Proof.
  apply (scale_clamped_unless_nan no_float_literal 0.02). reflexivity.
Defined.

(** The scenario of the spec: of two points at squared distances 9 and
    16 the hit-test with radius 10 returns the one at 9. *)
Example hit_test_closer :
  d2 0 0 (mkQRect 0 0 4096 4096) (mkHover "DeSalle" "towers" 0 pt_right) = 9%float /\
  d2 0 0 (mkQRect 0 0 4096 4096) (mkHover "DeSalle" "towers" 1 pt_below) = 16%float /\
  hit_test [] ∅ {["towers" := [pt_right; pt_below]]} "DeSalle" 0 0
           (mkQRect 0 0 4096 4096) 10
  = Ok (Some (mkHover "DeSalle" "towers" 0 pt_right)).
Proof. repeat split; vm_compute; reflexivity. Qed.


(** [build_for_category] caches the point of an item whose coordinate
    is a NaN: [float] accepts it and the transform lets it through. *)
Example nan_point_is_cached :
  build_for_category no_float_literal (PDict [("towers", PList [nan_item])])
                     "named" "towers"
  = Ok [pt_nan].
Proof. reflexivity. Qed.


(** The hidden lists of [overlay_on] hold no member at all. *)
Lemma overlay_on_strings : strings_only overlay_on.
Proof. intros k _. reflexivity. Qed.

(** Witness of C6: master on, the chord goes down and stays down for a
    second tick. *)
Lemma chord_fires_once_per_hold_witness :
  let s1 := tick_safe square_rect keys_chord overlay_on in
  ((run square_rect [keys_chord; keys_chord] overlay_on).(hide_calls)
     <= S overlay_on.(hide_calls))%nat /\
  ((snd (tick_master keys_chord overlay_on)).(master) = true ->
   fst (tick square_rect keys_chord overlay_on) = Ok tt ->
     s1.(hide_calls) = S overlay_on.(hide_calls) /\ s1.(pHide) = true /\
     (run square_rect [keys_chord] s1).(hide_calls) = S overlay_on.(hide_calls)) /\
  ((snd (tick_master keys_chord overlay_on)).(master) = false ->
     s1.(hide_calls) = overlay_on.(hide_calls) /\ s1.(pHide) = false).
Proof.
  apply (chord_fires_once_per_hold square_rect overlay_on keys_chord [keys_chord]).
  - exact overlay_on_strings.
  - exact I.
  - reflexivity.
  - reflexivity.
  - repeat constructor.
Defined.

(** The run of the witness: one call, and the hovered point is hidden
    under its category. *)
Example chord_run_hides_hovered :
  let s := run square_rect [keys_chord; keys_chord] overlay_on in
  s.(hide_calls) = 1%nat /\ s.(pHide) = true /\
  s.(hidden_sets) !! "towers" = Some {["4095:3"]} /\
  fst (tick square_rect keys_chord overlay_on) = Ok tt.
Proof. repeat split; vm_compute; reflexivity. Qed.

(** [_save] on a hidden set that holds a string and a number: [sorted]
    raises. *)
Example save_raises_on_mixed_set :
  save overlay_mixed = (Raise TypeError, overlay_mixed).
Proof. vm_compute. reflexivity. Qed.

(** Without the condition of C6: when a hidden set holds a number
    beside its strings, [_save] raises inside [_hide_hovered], the
    chord's previous sample is not set, and the hide action is called
    again on the next tick of the same hold; two points are hidden and
    the hover stays on the second. *)
Example chord_repeats_when_save_raises :
  let s1 := tick_safe square_rect keys_chord overlay_mixed in
  let s2 := tick_safe square_rect keys_chord s1 in
  fst (tick square_rect keys_chord overlay_mixed) = Raise TypeError /\
  s1.(pHide) = false /\ s1.(hide_calls) = 1%nat /\
  s2.(pHide) = false /\ s2.(hide_calls) = 2%nat /\
  s2.(hidden_sets) !! "towers" = Some {["a"; "4095:3"; "4091:0"]} /\
  s2.(hover) = Some (mkHover "DeSalle" "towers" 1 pt_below).
Proof. repeat split; vm_compute; reflexivity. Qed.

(** Without the condition of C7: with the same hidden set and the
    master key down, [_save] raises behind the toggle and the previous
    sample of the master key is not set. *)
Example toggle_sample_lost_when_save_raises :
  let s1 := tick_safe square_rect keys_bt overlay_mixed in
  fst (tick square_rect keys_bt overlay_mixed) = Raise TypeError /\
  s1.(master) = false /\ s1.(visible) = false /\ s1.(pbt) = false.
Proof. repeat split; vm_compute; reflexivity. Qed.

(** Counterexample to C7 as stated: with master off and Tab down, the
    tick returns before the visible toggle, and its previous sample
    stays false. *)
Lemma samples_not_recorded_when_master_off :
  ~ samples_recorded square_rect keys_tab overlay_off.
Proof.
  unfold samples_recorded. intros (_ & _ & H & _).
  vm_compute in H. discriminate.
Qed.

(** Counterexample to C6 as stated: with master off the chord goes from
    up to down and stays down, and the hide action is never called. *)
Lemma chord_silent_when_master_off :
  ~ chord_once square_rect overlay_off keys_up keys_chord [keys_chord].
Proof.
  intros H.
  destruct (H eq_refl eq_refl ltac:(repeat constructor)) as [H1 _].
  vm_compute in H1. discriminate.
Qed.

(* ================================================================== *)
(** ** More facts on binary64, dictionaries and the loops *)

Module FloatMore.
Import PyFloat PyFloatFacts FloatOrder.

(** A difference of a finite number and anything but a NaN is no NaN. *)
Lemma SF64sub_finite s m e b :
  sf_nan b = false -> sf_nan (SF64sub (S754_finite s m e) b) = false.
Proof.
  unfold SF64sub.
  destruct b as [sb|sb| |sb mb eb]; simpl; try discriminate; trivial; intros _.
  apply binary_normalize_not_nan.
Qed.

Lemma sub_4095_any x : not_nan x -> not_nan (4095 - x).
Proof.
  unfold not_nan. rewrite sub_spec. destruct Prim2SF_4095 as (m & e & ->).
  apply SF64sub_finite.
Qed.

Lemma nan_ltb_l a b : sf_nan (Prim2SF a) = true -> (a <? b)%float = false.
Proof. rewrite ltb_spec. now destruct (Prim2SF a). Qed.
Lemma nan_ltb_r a b : sf_nan (Prim2SF b) = true -> (a <? b)%float = false.
Proof.
  rewrite ltb_spec. destruct (Prim2SF b); try discriminate.
  now destruct (Prim2SF a).
Qed.

(** NaN operands give NaN results. *)
Lemma nan_div_l a b : sf_nan (Prim2SF a) = true -> sf_nan (Prim2SF (a / b)) = true.
Proof. rewrite div_spec. now destruct (Prim2SF a). Qed.
Lemma nan_sub_r a b : sf_nan (Prim2SF b) = true -> sf_nan (Prim2SF (a - b)) = true.
Proof.
  rewrite sub_spec. destruct (Prim2SF b); try discriminate.
  now destruct (Prim2SF a).
Qed.
Lemma nan_mul_r a b : sf_nan (Prim2SF b) = true -> sf_nan (Prim2SF (a * b)) = true.
Proof.
  rewrite mul_spec. destruct (Prim2SF b); try discriminate.
  now destruct (Prim2SF a).
Qed.
Lemma nan_mul_l a b : sf_nan (Prim2SF a) = true -> sf_nan (Prim2SF (a * b)) = true.
Proof. rewrite mul_spec. now destruct (Prim2SF a). Qed.

Lemma not_nan_dec a : {not_nan a} + {sf_nan (Prim2SF a) = true}.
Proof. unfold not_nan. destruct (sf_nan (Prim2SF a)); auto. Qed.

Lemma clamp01_nan u : sf_nan (Prim2SF u) = true -> clamp01 u = u.
Proof.
  intros H. unfold clamp01. rewrite (nan_ltb_l u 0 H), (nan_ltb_r 1 u H).
  reflexivity.
Qed.

Lemma in_unit_not_nan u : in_unit u -> not_nan u.
Proof. intros [H _]. now apply leb_not_nan in H. Qed.

Lemma clamp01_in_unit_iff u : in_unit (clamp01 u) <-> not_nan u.
Proof.
  split; [|apply clamp01_in_unit].
  intros H. destruct (not_nan_dec u) as [|Hn]; trivial.
  rewrite (clamp01_nan u Hn) in H. now apply in_unit_not_nan.
Qed.

Lemma div_4095_not_nan_iff a : not_nan (a / 4095) <-> not_nan a.
Proof.
  split; [|apply div_4095_not_nan].
  intros H. destruct (not_nan_dec a) as [|Hn]; trivial.
  unfold not_nan in H. now rewrite (nan_div_l a 4095 Hn) in H.
Qed.

Lemma sub_4095_not_nan_iff x : not_nan (4095 - x) <-> not_nan x.
Proof.
  split; [|apply sub_4095_any].
  intros H. destruct (not_nan_dec x) as [|Hn]; trivial.
  unfold not_nan in H. now rewrite (nan_sub_r 4095 x Hn) in H.
Qed.

End FloatMore.

(** *** DataFormatAdapter and PointCache *)

Section DataAdapterFacts.
Import PyFloat PyFloatFacts FloatOrder.
Variable str_to_float : string -> option float.

(** [first_block] returns the first dict that passes the test. *)
Lemma first_block_spec test l :
  match first_block test l with
  | Some b =>
      exists i, l !! i = Some (PDict b) /\ test b = true /\
        forall j b', (j < i)%nat -> l !! j = Some (PDict b') -> test b' = false
  | None => forall b, PDict b ∈ l -> test b = false
  end.
Proof.
  induction l as [|a l IH]; simpl.
  - intros b Hb. inversion Hb.
  - assert (Hskip : is_dict a = false \/ (exists m, a = PDict m /\ test m = false) ->
      match first_block test l with
      | Some b =>
          exists i, (a :: l) !! i = Some (PDict b) /\ test b = true /\
            forall j b', (j < i)%nat -> (a :: l) !! j = Some (PDict b') ->
                         test b' = false
      | None => forall b, PDict b ∈ a :: l -> test b = false
      end).
    { intros Ha. destruct (first_block test l) as [b|].
      - destruct IH as (i & Hi & Hb & Hlt). exists (S i). repeat split; trivial.
        intros [|j] b' Hj Hl; simpl in Hl.
        + simplify_eq. destruct Ha as [Ha|(m & [= <-] & Hm)]; [discriminate|trivial].
        + apply (Hlt j); [lia|trivial].
      - intros b [Hb|Hb]%elem_of_cons; [|now apply IH]. subst a.
        destruct Ha as [Ha|(m & [= <-] & Hm)]; [discriminate|trivial]. }
    destruct a as [| | | | | |m]; try (apply Hskip; left; reflexivity).
    destruct (test m) eqn:Hm; [|apply Hskip; right; eauto].
    exists 0%nat. repeat split; trivial. intros j b' Hj. lia.
Qed.

Lemma py_eq_str_true v s : py_eq_str v s = true <-> v = Some (PStr s).
Proof.
  destruct v as [[]|]; simpl; try (split; [discriminate|congruence]).
  rewrite String.eqb_eq. split; congruence.
Qed.

Lemma list_index_spec l s :
  match list_index l s with
  | Some i => l !! i = Some s /\ forall j, (j < i)%nat -> l !! j <> Some s
  | None => s ∉ l
  end.
Proof.
  induction l as [|t l IH]; simpl.
  - apply not_elem_of_nil.
  - destruct (String.eqb t s) eqn:E.
    + apply String.eqb_eq in E as ->. split; trivial. intros j Hj. lia.
    + apply String.eqb_neq in E. destruct (list_index l s) as [i|]; simpl.
      * destruct IH as [Hi Hlt]. split; trivial.
        intros [|j] Hj; simpl; [congruence|]. apply Hlt. lia.
      * rewrite not_elem_of_cons. split; congruence.
Qed.

(** The block of a map in the named format. *)
Lemma get_map_block_named (l : list pyval) (map_name : string) :
  exists r, get_map_block (PList l) "named" map_name = Ok r /\
    match r with
    | Some b =>
        exists i, l !! i = Some (PDict b) /\
          dict_get b "n" = Some (PStr map_name) /\
          forall j b', (j < i)%nat -> l !! j = Some (PDict b') ->
                       dict_get b' "n" <> Some (PStr map_name)
    | None => forall b, PDict b ∈ l -> dict_get b "n" <> Some (PStr map_name)
    end.
Proof.
  unfold get_map_block. simpl. eexists; split; [reflexivity|].
  pose proof (first_block_spec
                (fun m => py_eq_str (dict_get m "n") map_name) l) as H.
  destruct (first_block _ l) as [b|].
  - destruct H as (i & Hi & Hb & Hlt). exists i. repeat split; trivial.
    + now apply py_eq_str_true.
    + intros j b' Hj Hl Hn. apply py_eq_str_true in Hn.
      rewrite (Hlt j b' Hj Hl) in Hn. discriminate.
  - intros b Hb Hn. apply py_eq_str_true in Hn. rewrite (H b Hb) in Hn.
    discriminate.
Qed.

(** The block of a map in the indexed format. *)
Lemma get_map_block_indexed (l : list pyval) (map_name : string) :
  (map_name ∉ MAPS ->
     get_map_block (PList l) "indexed_r" map_name = Raise ValueError) /\
  (forall idx, MAPS !! idx = Some map_name ->
     exists r, get_map_block (PList l) "indexed_r" map_name = Ok r /\
       match r with
       | Some b =>
           exists i, l !! i = Some (PDict b) /\
             py_eq_int (dict_get b "i") (Z.of_nat idx) = true /\
             forall j b', (j < i)%nat -> l !! j = Some (PDict b') ->
                          py_eq_int (dict_get b' "i") (Z.of_nat idx) = false
       | None => forall b, PDict b ∈ l ->
                           py_eq_int (dict_get b "i") (Z.of_nat idx) = false
       end).
Proof.
  unfold get_map_block. cbn [String.eqb Ascii.eqb Bool.eqb].
  pose proof (list_index_spec MAPS map_name) as HI.
  split.
  - intros Hn. destruct (list_index MAPS map_name) as [i|]; [|reflexivity].
    destruct HI as [Hi _]. apply list_elem_of_lookup_2 in Hi. contradiction.
  - intros idx Hidx.
    destruct (list_index MAPS map_name) as [i|].
    + destruct HI as [Hi Hlt].
      assert (i = idx) as ->.
      { assert (NoDup MAPS) as Hnd by (apply (bool_decide_unpack _); vm_compute; exact I).
        eapply NoDup_lookup; eauto. }
      simpl. eexists; split; [reflexivity|].
      apply (first_block_spec
               (fun m => py_eq_int (dict_get m "i") (Z.of_nat idx)) l).
    + exfalso. apply HI. eapply list_elem_of_lookup_2; eauto.
Qed.

Lemma build_point_spec cat it o :
  build_point str_to_float cat it = Ok o ->
  match o with
  | Some p =>
      pt_raw p = it /\ pt_src p = cat /\
      (pt_u p, pt_v p) = rotate90cw_norm (pt_x p) (pt_y p) /\
      exists d c, it = PDict d /\ dict_get d "c" = Some c /\
        py_index c 0 ≫= py_float str_to_float = Ok (pt_x p) /\
        py_index c 1 ≫= py_float str_to_float = Ok (pt_y p)
  | None => True
  end.
Proof.
  destruct o as [p|]; [|trivial].
  unfold build_point. destruct it as [| | | | | |d]; try discriminate.
  destruct (dict_get d "c") as [c|] eqn:Hc; simpl; [|discriminate].
  destruct (truthy c); simpl; [|discriminate].
  destruct (py_len c) as [n|]; simpl; [|discriminate].
  destruct (n <? 2)%nat; [discriminate|].
  destruct (py_index c 0) as [c0|] eqn:E0; simpl; [|discriminate].
  destruct (py_float str_to_float c0) as [x|] eqn:Ex; simpl; [|discriminate].
  destruct (py_index c 1) as [c1|] eqn:E1; simpl; [|discriminate].
  destruct (py_float str_to_float c1) as [y|] eqn:Ey; simpl; [|discriminate].
  intros [= <-]. cbn [pt_u pt_v pt_x pt_y pt_raw pt_src].
  split; [reflexivity|]. split; [reflexivity|]. split.
  - symmetry. apply surjective_pairing.
  - exists d, c. split; [reflexivity|]. split; [exact Hc|].
    rewrite E0, E1. simpl. now rewrite Ex, Ey.
Qed.

(** What may make the build of a point raise. *)
Lemma build_point_raise cat it e :
  build_point str_to_float cat it = Raise e <->
  e = TypeError /\
  exists d c, it = PDict d /\ dict_get d "c" = Some c /\ truthy c = true /\
    match c with PBool _ | PInt _ | PFloat _ => True | _ => False end.
Proof.
  unfold build_point. split.
  - destruct it as [| | | | | |d]; try discriminate.
    destruct (dict_get d "c") as [c|] eqn:Hc; simpl; [|discriminate].
    destruct (truthy c) eqn:Ht; simpl; [|discriminate].
    destruct c; simpl in *; try discriminate;
      try (destruct (_ <? 2)%nat; discriminate);
      intros [= <-]; split; trivial; eexists _, _; eauto.
  - intros (-> & d & c & -> & Hc & Ht & Hk). rewrite Hc. simpl. rewrite Ht. simpl.
    destruct c; try contradiction; reflexivity.
Qed.

Lemma build_points_spec cat items : forall pts out,
  build_points str_to_float cat items pts = Ok out ->
  exists new, out = pts ++ new /\
    sublist (pt_raw <$> new) items /\ Forall (built_from str_to_float cat) new.
Proof.
  induction items as [|it items IH]; simpl; intros pts out H.
  - injection H as <-. exists []. rewrite app_nil_r. repeat split; constructor.
  - apply bind_Ok in H as (o & Ho & H).
    apply build_point_spec in Ho.
    destruct o as [p|].
    + apply IH in H as (new & -> & Hsub & Hall).
      exists (p :: new). rewrite <- app_assoc. simpl. repeat split; trivial.
      * destruct Ho as (<- & _). now constructor.
      * constructor; trivial. destruct Ho as (Hr & Hs & Huv & d & c & Hit & Hd).
        repeat split; trivial. exists d, c. rewrite Hr. now split.
    + apply IH in H as (new & -> & Hsub & Hall).
      exists new. repeat split; trivial. now constructor.
Qed.

Lemma build_for_category_points (block : pyval) (fmt cat : string)
    (pts : list point) :
  build_for_category str_to_float block fmt cat = Ok pts ->
  sublist (pt_raw <$> pts) (get_category_list block fmt cat) /\
  (length pts <= length (get_category_list block fmt cat))%nat /\
  Forall (built_from str_to_float cat) pts.
Proof.
  intros H. apply build_points_spec in H as (new & -> & Hsub & Hall).
  simpl. repeat split; trivial.
  apply sublist_length in Hsub. now rewrite length_fmap in Hsub.
Qed.

End DataAdapterFacts.

Lemma append_nil s : "" +:+ s = s.
Proof. reflexivity. Qed.
Lemma append_cons c a s : String c a +:+ s = String c (a +:+ s).
Proof. reflexivity. Qed.

Lemma no_colon_app a b : no_colon (a +:+ b) = (no_colon a && no_colon b)%bool.
Proof.
  induction a as [|c a IH]; [reflexivity|].
  rewrite append_cons. simpl. rewrite IH. now rewrite andb_assoc.
Qed.

Lemma pretty_N_go_no_colon x : forall s,
  no_colon (pretty_N_go x s) = no_colon s.
Proof.
  induction (N.lt_wf_0 x) as [x _ IH]; intros s.
  destruct (decide (x = 0)%N) as [->|Hx]; [now rewrite pretty_N_go_0|].
  rewrite pretty_N_go_step by lia.
  rewrite IH by (apply N.div_lt; lia).
  simpl. unfold pretty_N_char.
  now repeat case_match.
Qed.

Lemma pretty_Z_no_colon (z : Z) : no_colon (pretty z) = true.
Proof.
  assert (HN : forall n : N, no_colon (pretty n) = true).
  { intros n. unfold pretty, pretty_N. case_decide; [reflexivity|].
    now rewrite pretty_N_go_no_colon. }
  destruct z as [|p|p]; unfold pretty, pretty_Z; [reflexivity|apply HN|].
  rewrite no_colon_app. simpl. apply HN.
Qed.

(** Two strings split at their first colon. *)
Lemma colon_split a a' b b' :
  no_colon a = true -> no_colon a' = true ->
  a +:+ ":" +:+ b = a' +:+ ":" +:+ b' -> a = a' /\ b = b'.
Proof.
  revert a'. induction a as [|c a IH]; intros [|c' a'];
    repeat (rewrite append_nil || rewrite append_cons); simpl.
  - intros _ _ [= ->]. auto.
  - intros _ [Hc _]%andb_prop [= <- _]. discriminate.
  - intros [Hc _]%andb_prop _ [= -> _]. discriminate.
  - intros [_ Ha]%andb_prop [_ Ha']%andb_prop [= -> H].
    destruct (IH a' Ha Ha' H) as [-> ->]. auto.
Qed.

Section HiddenFacts.
Import PyFloat PyFloatFacts FloatOrder.

Lemma is_hidden_hide_same hs tkey pt hk :
  hidden_key tkey pt = Ok hk -> is_hidden (hide hs tkey hk) tkey pt = Ok true.
Proof.
  intros H. unfold is_hidden, hide. rewrite H. simpl.
  rewrite lookup_insert_eq. simpl. f_equal. apply bool_decide_eq_true.
  set_solver.
Qed.

Lemma hide_mono hs tkey hk t k :
  k ∈ default ∅ (hs !! t) -> k ∈ default ∅ (hide hs tkey hk !! t).
Proof.
  unfold hide. intros H. destruct (decide (tkey = t)) as [->|Hne].
  - rewrite lookup_insert_eq. simpl. set_solver.
  - now rewrite lookup_insert_ne.
Qed.

Lemma is_hidden_mono hs tkey hk t pt :
  is_hidden hs t pt = Ok true -> is_hidden (hide hs tkey hk) t pt = Ok true.
Proof.
  unfold is_hidden. destruct (hidden_key t pt) as [k|]; simpl; [|discriminate].
  intros [= H]. f_equal. apply bool_decide_eq_true in H.
  apply bool_decide_eq_true. now apply hide_mono.
Qed.

End HiddenFacts.

Section HitTestFacts.
Import PyFloat PyFloatFacts FloatOrder.
Variable str_to_float : string -> option float.
Variable make_rect : pydict -> result QRect.

Lemma is_hidden_Ok_iff hs tkey pt :
  (exists b, is_hidden hs tkey pt = Ok b) <->
  (exists hk, hidden_key tkey pt = Ok hk).
Proof.
  unfold is_hidden. destruct (hidden_key tkey pt) as [hk|e]; simpl.
  - split; eauto.
  - split; intros [? ?]; discriminate.
Qed.

Lemma fold_step_sound (d2_of : hover_info -> float) b0 l :
  let best := fold_left (step d2_of) l (None, b0) in
  match fst best with
  | None => snd best = b0
  | Some h => h ∈ l /\ snd best = d2_of h /\ (d2_of h <=? b0)%float = true
  end.
Proof.
  induction l as [|x l IH] using rev_ind; [reflexivity|].
  cbv zeta in *. rewrite fold_left_app. simpl.
  destruct (fold_left (step d2_of) l (None, b0)) as [bh bd].
  unfold step. cbn [fst snd] in *.
  destruct (d2_of x <=? bd)%float eqn:E; cbn [fst snd].
  - split; [apply elem_of_app; right; now left|]. split; trivial.
    destruct bh as [h|].
    + destruct IH as (_ & -> & Hh). eapply leb_trans; eauto.
    + now subst bd.
  - destruct bh as [h|]; trivial.
    destruct IH as (Hin & ? & ?). split; [|auto].
    apply elem_of_app. now left.
Qed.

(** What the hit-test returns is a candidate within the radius. *)
Lemma hit_test_within (types : pydict) (hs : gmap string (gset string))
    (pts_by_type : gmap string (list point)) (prof : string)
    (mx my : float) (r : QRect) (radius : Z) (h : hover_info) :
  hit_test types hs pts_by_type prof mx my r radius = Ok (Some h) ->
  (d2 mx my r h <=? Z2float (radius * radius))%float = true /\
  h.(h_map) = prof /\ h.(h_type) ∈ type_order /\
  type_enabled types h.(h_type) = Ok true /\
  default [] (pts_by_type !! h.(h_type)) !! h.(h_index) = Some h.(h_pt_ref) /\
  is_hidden hs h.(h_type) h.(h_pt_ref) = Ok false.
Proof.
  intros H.
  assert (Hr : exists best,
             hit_test types hs pts_by_type prof mx my r radius = Ok best)
    by eauto.
  unfold hit_test in H, Hr.
  destruct (scan_types _ _ _ _ _ _ _ _ _) as [b|] eqn:E; [|discriminate].
  pose proof (scan_types_returns _ _ _ _ _ _ _ _ _ _ E) as [Ht Hp].
  rewrite scan_types_select in E by trivial.
  pose proof (fold_step_sound (d2 mx my r) (Z2float (radius * radius))
                (concat (cat_candidates types hs pts_by_type prof <$> type_order)))
    as S.
  cbv zeta in S.
  remember (fold_left (step (d2 mx my r))
              (concat (cat_candidates types hs pts_by_type prof <$> type_order))
              (None, Z2float (radius * radius))) as res eqn:Eres.
  clear Eres. injection E as <-.
  unfold fmap, result_fmap in H. injection H as H.
  rewrite H in S. destruct S as (Hin & _ & Hd).
  split; trivial. now apply candidates_elem.
Qed.

(** *** What a tick preserves *)

(** A property kept by each step of [_tick] is kept by the tick, also
    when it raises; the visible toggle need only keep it with master
    on. *)

Lemma tick_chord_preserves (P : Overlay -> Prop) :
  (forall s, P s -> P (snd (hide_hovered s))) ->
  (forall b s, P s -> P (set_pHide b s)) ->
  forall k s, P s -> P (snd (tick_chord k s)).
Proof.
  intros Hh Hp k s Hs. unfold tick_chord, act_bind, modify.
  destruct (chord k && negb (pHide s)).
  - specialize (Hh s Hs). destruct (hide_hovered s) as [[[]|e] s']; simpl in *; auto.
  - unfold act_ret. simpl. auto.
Qed.

Lemma tick_preserves (P : Overlay -> Prop) :
  (forall k s, P s -> P (snd (tick_master k s))) ->
  (forall k s, s.(master) = true -> P s -> P (snd (tick_tab k s))) ->
  (forall k s, P s -> P (snd (tick_switch make_rect k s))) ->
  (forall lx ly s, P s -> P (snd (update_hover lx ly s))) ->
  (forall s, P s -> P (snd (hide_hovered s))) ->
  (forall b s, P s -> P (set_pHide b s)) ->
  forall k s, P s -> P (tick_safe make_rect k s).
Proof.
  intros Hm Ht Hs Hu Hh Hp k s H0.
  unfold tick_safe. rewrite tick_eq.
  specialize (Hm k s H0).
  destruct (tick_master k s) as [[[]|e] s1]; cbn [fst snd] in *; [|exact Hm].
  destruct (master s1) eqn:Em; cbn [negb]; [|exact Hm].
  unfold tick_gated, act_bind.
  specialize (Ht k s1 Em Hm).
  destruct (tick_tab k s1) as [[[]|e] s2]; cbn [fst snd] in *; [|exact Ht].
  specialize (Hs k s2 Ht).
  destruct (tick_switch make_rect k s2) as [[[]|e] s3]; cbn [fst snd] in *;
    [|exact Hs].
  assert (U : P (snd (if visible s3
                      then update_hover (cursor_x k) (cursor_y k) s3
                      else (Ok (), s3)))).
  { destruct (visible s3); [apply Hu|]; trivial. }
  destruct (if visible s3 then _ else _) as [[[]|e] s4]; cbn [fst snd] in *;
    [|exact U].
  now apply tick_chord_preserves.
Qed.

Lemma run_preserves (P : Overlay -> Prop) :
  (forall k s, P s -> P (tick_safe make_rect k s)) ->
  forall ks s, P s -> P (run make_rect ks s).
Proof.
  intros H ks. induction ks as [|k ks IH]; intros s Hs; simpl; trivial.
  apply IH, H, Hs.
Qed.

End HitTestFacts.

Section TickFacts.
Import PyFloat PyFloatFacts FloatOrder.
Variable str_to_float : string -> option float.
Variable make_rect : pydict -> result QRect.

(** *** What each step of a tick writes *)

Lemma tick_master_writes k s :
  let s' := snd (tick_master k s) in
  s' = set_pH s'.(pH) (set_pbt s'.(pbt)
         (set_visible s'.(visible) (set_master s'.(master) s))) /\
  ((s.(visible) = true -> s.(master) = true) ->
   (s'.(visible) = true -> s'.(master) = true)).
Proof.
  destruct s as [gd fm pr ns p vi ma gs ty hi hs re b1 b2 b3 b4 ho hr ca hc].
  unfold tick_master, tick_toggle, tick_hide, act_bind, modify, act_ret, save,
    hidden_sortable.
  state_cbn.
  destruct (key_bt k), b1, ma, vi, (key_h k), b2; state_cbn;
    repeat (match goal with
            | |- context [if forallb ?f ?l then _ else _] =>
                destruct (forallb f l)
            end; state_cbn);
    (split; [reflexivity|]); intros H1 H2; auto; discriminate.
Qed.

Lemma tick_tab_writes k s :
  let s' := snd (tick_tab k s) in
  s' = set_pT s'.(pT) (set_visible s'.(visible) s).
Proof.
  destruct s as [gd fm pr ns p vi ma gs ty hi hs re b1 b2 b3 b4 ho hr ca hc].
  unfold tick_tab, act_bind, modify, act_ret, save, hidden_sortable.
  state_cbn.
  destruct (key_tab k), b3; state_cbn;
    repeat (match goal with
            | |- context [if forallb ?f ?l then _ else _] =>
                destruct (forallb f l)
            end; state_cbn);
    reflexivity.
Qed.

Lemma apply_rect_writes s :
  let s' := snd (apply_rect make_rect s) in s' = set_rect s'.(rect) s.
Proof.
  destruct s as [gd fm pr ns p vi ma gs ty hi hs re b1 b2 b3 b4 ho hr ca hc].
  unfold apply_rect. cbn.
  destruct (dict_get pr p) as [[| | | | | |d]|]; cbn; trivial.
  destruct (dict_get d "rect_ratio") as [[| | | | | |rr]|]; cbn; trivial.
  now destruct (make_rect rr).
Qed.

Lemma switch_writes name s :
  let s' := snd (switch make_rect name s) in
  s' = set_rect s'.(rect) (set_prof s'.(prof) s) /\
  (s'.(prof) = s.(prof) \/ s'.(prof) = name /\ name ∈ MAPS).
Proof.
  unfold switch.
  destruct (bool_decide (name ∈ MAPS)) eqn:Em; cbn [andb].
  2:{ destruct s; cbn. auto. }
  apply bool_decide_eq_true in Em.
  destruct (negb (String.eqb name (prof s))).
  2:{ destruct s; cbn. auto. }
  unfold act_bind, modify.
  pose proof (apply_rect_writes (set_prof name s)) as H. cbv zeta in H.
  destruct (apply_rect make_rect (set_prof name s)) as [[[]|e] s'];
    cbn [fst snd] in *; [rewrite save_state|]; rewrite H; destruct s; cbn;
    auto.
Qed.

Lemma tick_switch_writes k s :
  let s' := snd (tick_switch make_rect k s) in
  s' = set_rect s'.(rect) (set_prof s'.(prof) s) /\
  (s'.(prof) = s.(prof) \/
   s.(visible) = true /\ s.(num_sw) = true /\ s'.(prof) ∈ MAPS).
Proof.
  unfold tick_switch.
  destruct (visible s) eqn:Ev; cbn [andb]; [|destruct s; cbn; auto].
  destruct (num_sw s) eqn:En; [|destruct s; cbn; auto].
  repeat (match goal with |- context [if ?b then _ else _] => destruct b end;
          [match goal with |- context [switch _ ?n _] =>
             destruct (switch_writes n s) as [H1 [H2|[H2 H3]]]
           end; (split; [exact H1|]); [now left|right; rewrite H2; auto]|]).
  destruct s; cbn; auto.
Qed.

Lemma update_hover_writes lx ly s :
  let s' := snd (update_hover lx ly s) in
  s' = set_hover s'.(hover) s /\
  forall h, s'.(hover) = Some h ->
    is_hidden s.(hidden_sets) h.(h_type) h.(h_pt_ref) = Ok false.
Proof.
  unfold update_hover.
  destruct (rect (set_hover None s)) as [r|] eqn:Er; simpl;
    [|split; [now destruct s|discriminate]].
  destruct (master s && visible s); simpl;
    [|split; [now destruct s|discriminate]].
  destruct (hit_test _ _ _ _ _ _ _ _) as [best|e] eqn:E; simpl;
    [|split; [now destruct s|discriminate]].
  split; [now destruct s|]. intros h ->. now apply hit_test_within in E.
Qed.

Lemma hide_hovered_writes s :
  let s' := snd (hide_hovered s) in
  s' = set_hide_calls s'.(hide_calls) (set_hover s'.(hover)
         (set_hidden_sets s'.(hidden_sets) s)) /\
  hidden_grows s s' /\
  (strings_only s ->
   s'.(hover) = None \/
   s'.(hover) = s.(hover) /\ s'.(hidden_sets) = s.(hidden_sets)).
Proof.
  pose proof (hide_hovered_fields s) as (_ & _ & _ & _ & _ & _ & _ & _ & Hr).
  cbv zeta in Hr. revert Hr.
  destruct s as [gd fm pr ns p vi ma gs ty hi hs re b1 b2 b3 b4 ho hr ca hc].
  unfold hide_hovered, hidden_grows, hover_ok. cbn.
  destruct ho as [h|]; cbn; [|auto].
  destruct (hidden_key (h_type h) (h_pt_ref h)) as [hk|e]; cbn; [|auto].
  unfold act_bind, save, modify.
  destruct (hidden_sortable _); cbn; intros Hr.
  - split; [trivial|]. split; [|auto]. intros t k. apply hide_mono.
  - split; [trivial|]. split; [intros t k; apply hide_mono|].
    intros Hso. specialize (Hr Hso (ex_intro _ hk eq_refl)). discriminate.
Qed.

(** *** Invariants of a run *)

Lemma tick_prof_known k s :
  s.(prof) ∈ MAPS -> (tick_safe make_rect k s).(prof) ∈ MAPS.
Proof.
  revert k s. apply (tick_preserves make_rect (fun s => s.(prof) ∈ MAPS)).
  - intros k s H. destruct (tick_master_writes k s) as [-> _]. exact H.
  - intros k s _ H. rewrite (tick_tab_writes k s). exact H.
  - intros k s H. destruct (tick_switch_writes k s) as [_ [->|(_ & _ & ?)]]; trivial.
  - intros lx ly s H. destruct (update_hover_writes lx ly s) as [-> _]. exact H.
  - intros s H. destruct (hide_hovered_writes s) as [-> _]. exact H.
  - intros b s H. exact H.
Qed.

Lemma tick_visible_master k s :
  (s.(visible) = true -> s.(master) = true) ->
  (tick_safe make_rect k s).(visible) = true ->
  (tick_safe make_rect k s).(master) = true.
Proof.
  revert k s.
  apply (tick_preserves make_rect
           (fun s => s.(visible) = true -> s.(master) = true)).
  - intros k s H. now apply tick_master_writes.
  - intros k s Hm _ _. rewrite (tick_tab_writes k s). exact Hm.
  - intros k s H. destruct (tick_switch_writes k s) as [-> _]. exact H.
  - intros lx ly s H. destruct (update_hover_writes lx ly s) as [-> _]. exact H.
  - intros s H. destruct (hide_hovered_writes s) as [-> _]. exact H.
  - intros b s H. exact H.
Qed.

Lemma tick_hover_shown k s :
  strings_only s /\ hover_shown s ->
  strings_only (tick_safe make_rect k s) /\
  hover_shown (tick_safe make_rect k s).
Proof.
  revert k s.
  apply (tick_preserves make_rect (fun s => strings_only s /\ hover_shown s));
    unfold hover_shown, strings_only.
  - intros k s H. destruct (tick_master_writes k s) as [-> _]. exact H.
  - intros k s _ H. rewrite (tick_tab_writes k s). exact H.
  - intros k s H. destruct (tick_switch_writes k s) as [-> _]. exact H.
  - intros lx ly s [H1 H2]. destruct (update_hover_writes lx ly s) as [E Hh].
    rewrite E. split; [exact H1|exact Hh].
  - intros s [H1 H2]. destruct (hide_hovered_writes s) as (E & _ & Hc).
    specialize (Hc H1). rewrite E. split; [exact H1|].
    cbn [hover hidden_sets set_hide_calls set_hover set_hidden_sets].
    destruct Hc as [->|[-> ->]]; [discriminate|exact H2].
  - intros b s H. exact H.
Qed.

Lemma tick_same_setup s0 k s :
  same_setup s0 s -> same_setup s0 (tick_safe make_rect k s).
Proof.
  revert k s. apply (tick_preserves make_rect (same_setup s0)); unfold same_setup.
  - intros k s H. destruct (tick_master_writes k s) as [-> _]. exact H.
  - intros k s _ H. rewrite (tick_tab_writes k s). exact H.
  - intros k s H. destruct (tick_switch_writes k s) as [-> _]. exact H.
  - intros lx ly s H. destruct (update_hover_writes lx ly s) as [-> _]. exact H.
  - intros s H. destruct (hide_hovered_writes s) as [-> _]. exact H.
  - intros b s H. exact H.
Qed.

Lemma tick_hidden_grows s0 k s :
  hidden_grows s0 s -> hidden_grows s0 (tick_safe make_rect k s).
Proof.
  revert k s. apply (tick_preserves make_rect (hidden_grows s0));
    unfold hidden_grows.
  - intros k s H. destruct (tick_master_writes k s) as [-> _]. exact H.
  - intros k s _ H. rewrite (tick_tab_writes k s). exact H.
  - intros k s H. destruct (tick_switch_writes k s) as [-> _]. exact H.
  - intros lx ly s H. destruct (update_hover_writes lx ly s) as [-> _]. exact H.
  - intros s H. destruct (hide_hovered_writes s) as (_ & G & _).
    intros t k Hk. apply G, H, Hk.
  - intros b s H. exact H.
Qed.

Lemma tick_prof_fixed p0 k s :
  s.(num_sw) = false /\ s.(prof) = p0 ->
  (tick_safe make_rect k s).(num_sw) = false /\
  (tick_safe make_rect k s).(prof) = p0.
Proof.
  revert k s.
  apply (tick_preserves make_rect
           (fun s => s.(num_sw) = false /\ s.(prof) = p0)).
  - intros k s H. destruct (tick_master_writes k s) as [-> _]. exact H.
  - intros k s _ H. rewrite (tick_tab_writes k s). exact H.
  - intros k s [H1 H2]. destruct (tick_switch_writes k s) as [E [Hp|(_ & ? & _)]];
      [|congruence].
    rewrite E. cbn. rewrite Hp. auto.
  - intros lx ly s H. destruct (update_hover_writes lx ly s) as [-> _]. exact H.
  - intros s H. destruct (hide_hovered_writes s) as [-> _]. exact H.
  - intros b s H. exact H.
Qed.

End TickFacts.

(** *** Dictionaries *)

Lemma dict_get_set_eq d k v : dict_get (dict_set d k v) k = Some v.
Proof.
  induction d as [|[k' v'] d IH]; simpl.
  - now rewrite String.eqb_refl.
  - destruct (String.eqb k' k) eqn:E; simpl.
    + now rewrite String.eqb_refl.
    + now rewrite E.
Qed.

Lemma dict_get_set_ne d k v k' :
  k <> k' -> dict_get (dict_set d k v) k' = dict_get d k'.
Proof.
  intros Hne. induction d as [|[k0 v0] d IH]; simpl.
  - apply String.eqb_neq in Hne. now rewrite Hne.
  - destruct (String.eqb k0 k) eqn:E; simpl.
    + apply String.eqb_eq in E as ->. apply String.eqb_neq in Hne.
      now rewrite Hne.
    + now rewrite IH.
Qed.

Lemma dict_get_set d k v k' :
  dict_get (dict_set d k v) k' = if String.eqb k k' then Some v else dict_get d k'.
Proof.
  destruct (String.eqb k k') eqn:E.
  - apply String.eqb_eq in E as ->. apply dict_get_set_eq.
  - apply String.eqb_neq in E. now apply dict_get_set_ne.
Qed.

Lemma for_each_inv {A S} (P : S -> Prop) (f : S -> A -> result S) l :
  (forall s a s', a ∈ l -> P s -> f s a = Ok s' -> P s') ->
  forall s s', P s -> for_each f l s = Ok s' -> P s'.
Proof.
  induction l as [|a l IH]; simpl; intros Hf s s' Hs H.
  - now injection H as <-.
  - apply bind_Ok in H as (s1 & H1 & H).
    eapply IH; [| |exact H].
    + intros ? ? ? ?. apply Hf. now right.
    + eapply Hf; eauto. now left.
Qed.

(** A loop whose turns establish [Q] for their item and keep it for the
    others establishes it for every item. *)
Lemma for_each_all {A S} (Q : S -> A -> Prop) (f : S -> A -> result S) l :
  (forall s a s', f s a = Ok s' -> Q s' a /\ forall b, Q s b -> Q s' b) ->
  forall s s', for_each f l s = Ok s' ->
    (forall a, a ∈ l -> Q s' a) /\ (forall b, Q s b -> Q s' b).
Proof.
  intros Hf. induction l as [|a l IH]; simpl; intros s s' H.
  - injection H as <-. split; trivial. intros a Ha. now apply elem_of_nil in Ha.
  - apply bind_Ok in H as (s1 & H1 & H).
    destruct (Hf _ _ _ H1) as [Ha Hk]. destruct (IH _ _ H) as [Hl Hk'].
    split; [|auto]. intros b [->|Hb]%elem_of_cons; auto.
Qed.

Section ConfigFacts.
Import PyFloat PyFloatFacts FloatOrder.
Variable str_to_float : string -> option float.
Variable make_rect : pydict -> result QRect.
Variable build_type_specs : pyval -> result (string -> pyval).

(** *** ConfigStore *)

Lemma fix_profile_ok profiles m profiles' :
  fix_profile profiles m = Ok profiles' ->
  profile_ok profiles' m /\
  forall m', profile_ok profiles m' -> profile_ok profiles' m'.
Proof.
  unfold fix_profile.
  set (p1 := if dict_has profiles m then profiles
             else dict_set profiles m (PDict [("rect_ratio", default_rect_ratio)])).
  assert (H1 : forall m', profile_ok profiles m' -> profile_ok p1 m').
  { intros m' H. subst p1. unfold dict_has.
    destruct (dict_get profiles m) eqn:E; trivial.
    destruct H as (p & rr & Hp & Hrr). exists p, rr. split; trivial.
    rewrite dict_get_set. destruct (String.eqb m m') eqn:E'; trivial.
    apply String.eqb_eq in E' as ->. congruence. }
  clearbody p1.
  destruct (dict_get p1 m) as [[| | | | | |p]|] eqn:Ep; try discriminate.
  assert (Hset : forall profiles',
    profiles' = dict_set p1 m (PDict (dict_set p "rect_ratio" default_rect_ratio)) ->
    profile_ok profiles' m /\
    forall m', profile_ok profiles m' -> profile_ok profiles' m').
  { intros ? ->. split.
    - exists (dict_set p "rect_ratio" default_rect_ratio). eexists.
      split; apply dict_get_set_eq.
    - intros m' H. apply H1 in H. destruct H as (q & qq & Hq & Hqq).
      unfold profile_ok. rewrite dict_get_set.
      destruct (String.eqb m m') eqn:E'.
      + exists (dict_set p "rect_ratio" default_rect_ratio). eexists.
        split; [reflexivity|apply dict_get_set_eq].
      + exists q, qq. split; trivial. }
  destruct (dict_get p "rect_ratio") as [v|] eqn:Er.
  - destruct v; intros [= <-]; try (now apply Hset).
    split; [|exact H1]. eexists _, _. eauto.
  - intros [= <-]. now apply Hset.
Qed.

(** What [_load_config] returns for any payload. *)
Lemma load_config_profiles (persisted : option pyval) :
  match load_config persisted with
  | Ok data =>
      exists profiles st,
        data = [("profiles", PDict profiles); ("settings", PDict st)] /\
        forall m, m ∈ MAPS -> profile_ok profiles m
  | Raise e => e = AttributeError
  end.
Proof.
  unfold load_config.
  match goal with |- context [for_each fix_profile MAPS ?p] =>
    generalize p end.
  match goal with |- context [PDict ?st] => generalize st end.
  intros st p0.
  destruct (for_each fix_profile MAPS p0) as [profiles|e] eqn:E; simpl.
  - exists profiles, st. split; trivial.
    apply (for_each_all (fun p m => profile_ok p m) fix_profile MAPS
             fix_profile_ok p0 profiles E).
  - revert p0 E. generalize MAPS. intros l.
    induction l as [|m l IH]; simpl; intros p0 E; [discriminate|].
    destruct (fix_profile p0 m) as [p1|e1] eqn:E1; simpl in E; [eauto|].
    injection E as <-. unfold fix_profile in E1.
    set (p1 := if dict_has p0 m then p0
               else dict_set p0 m (PDict [("rect_ratio", default_rect_ratio)])) in *.
    assert (Hs : exists v, dict_get p1 m = Some v).
    { subst p1. unfold dict_has. destruct (dict_get p0 m) eqn:Eg; eauto.
      rewrite dict_get_set_eq. eauto. }
    destruct Hs as [v Hv]. rewrite Hv in E1.
    destruct v; try (now injection E1 as <-).
    destruct (dict_get d "rect_ratio") as [[]|]; discriminate.
Qed.

End ConfigFacts.

Section CacheFacts.
Import PyFloat PyFloatFacts FloatOrder.
Variable str_to_float : string -> option float.
Variable make_rect : pydict -> result QRect.
Variable build_type_specs : pyval -> result (string -> pyval).

(** *** PointCache *)





(** *** Start-up *)





End CacheFacts.

Section PaintFacts.
Import PyFloat PyFloatFacts FloatOrder FloatMore.
Variable str_to_float : string -> option float.
Variable make_rect : pydict -> result QRect.

(** *** paintEvent *)

Lemma py_round_nan f : sf_nan (Prim2SF f) = true -> py_round f = Raise ValueError.
Proof. unfold py_round. now destruct (Prim2SF f). Qed.

Lemma scaled_radius_bounds base scale n :
  scaled_radius base scale = Ok n -> (1 <= n <= 40)%Z.
Proof.
  unfold scaled_radius. intros H. apply bind_Ok in H as (z & _ & H).
  injection H as <-.
  destruct (z <? 1)%Z eqn:E1; simpl.
  - lia.
  - destruct (40 <? z)%Z eqn:E2; lia.
Qed.

Lemma scaled_radius_nan base scale :
  sf_nan (Prim2SF scale) = true -> scaled_radius base scale = Raise ValueError.
Proof.
  intros H. unfold scaled_radius. rewrite py_round_nan; trivial.
  now apply nan_mul_r.
Qed.

Lemma paint_points_spec hs prof tkey r scaled pts : forall idx es,
  paint_points hs tkey r scaled pts = Ok es ->
  drawn_point <$> es
    = hover_point <$> List.filter (shown hs) (entries_from prof tkey idx pts) /\
  Forall (fun e => e.(e_r) = scaled /\
            e.(e_cx) = (Z2float r.(rect_left)
                        + e.(e_pt).(pt_u) * Z2float r.(rect_width))%float /\
            e.(e_cy) = (Z2float r.(rect_top)
                        + e.(e_pt).(pt_v) * Z2float r.(rect_height))%float) es.
Proof.
  induction pts as [|pt pts IH]; simpl; intros idx es H.
  - injection H as <-. split; [reflexivity|constructor].
  - apply bind_Ok in H as (hid & Hh & H). apply bind_Ok in H as (rest & Hr & H).
    destruct (IH (S idx) _ Hr) as [IH1 IH2].
    unfold shown at 1. cbn [h_type h_pt_ref]. rewrite Hh.
    destruct hid; injection H as <-.
    + split; trivial.
    + split; [|constructor; trivial; cbn; auto].
      cbn. unfold drawn_point at 1, hover_point at 1. cbn. now f_equal.
Qed.

Lemma paint_types_spec radius_px types hs pts_by_type prof r scale tkeys :
  forall es,
  paint_types radius_px types hs pts_by_type r scale tkeys = Ok es ->
  drawn_point <$> es
    = hover_point <$> concat (cat_candidates types hs pts_by_type prof <$> tkeys) /\
  Forall (fun e => (1 <= e.(e_r) <= 40)%Z /\
            e.(e_cx) = (Z2float r.(rect_left)
                        + e.(e_pt).(pt_u) * Z2float r.(rect_width))%float /\
            e.(e_cy) = (Z2float r.(rect_top)
                        + e.(e_pt).(pt_v) * Z2float r.(rect_height))%float) es.
Proof.
  induction tkeys as [|tkey tkeys IH]; simpl; intros es H.
  - injection H as <-. split; [reflexivity|constructor].
  - apply bind_Ok in H as (en & Hen & H).
    rewrite (cat_candidates_eq _ _ _ _ _ _ Hen).
    destruct en; simpl in H.
    + apply bind_Ok in H as (v & _ & H). apply bind_Ok in H as (scaled & Hs & H).
      apply bind_Ok in H as (drawn & Hd & H). apply bind_Ok in H as (rest & Hr & H).
      injection H as <-.
      destruct (IH _ Hr) as [IH1 IH2].
      destruct (paint_points_spec _ prof _ _ _ _ 0%nat _ Hd) as [D1 D2].
      apply scaled_radius_bounds in Hs.
      split.
      * rewrite !fmap_app. now f_equal.
      * apply Forall_app. split; trivial.
        eapply Forall_impl; [exact D2|]. intros e (-> & ? & ?). auto.
    + now apply IH.
Qed.

Lemma paint_types_nan radius_px types hs pts_by_type r scale tkeys :
  sf_nan (Prim2SF scale) = true -> forall es,
  paint_types radius_px types hs pts_by_type r scale tkeys = Ok es ->
  es = [] /\ forall k, k ∈ tkeys -> type_enabled types k = Ok false.
Proof.
  intros Hn. induction tkeys as [|tkey tkeys IH]; simpl; intros es H.
  - injection H as <-. split; trivial. intros k Hk. now apply elem_of_nil in Hk.
  - apply bind_Ok in H as (en & Hen & H).
    destruct en; simpl in H.
    + apply bind_Ok in H as (v & _ & H). apply bind_Ok in H as (scaled & Hs & H).
      rewrite scaled_radius_nan in Hs; [discriminate|trivial].
    + destruct (IH _ H) as [-> Hk]. split; trivial.
      intros k [->|Hin]%elem_of_cons; auto.
Qed.

End PaintFacts.

(** *** key *)

Lemma key_bit15 state : key state = Z.testbit state 15.
Proof.
  unfold key. change 0x8000%Z with (2 ^ 15)%Z.
  rewrite Z.land_comm.
  destruct (Z.testbit state 15) eqn:E.
  - apply negb_true_iff, Z.eqb_neq. intros H.
    assert (F : Z.testbit (Z.land (2 ^ 15) state) 15 = true).
    { rewrite Z.land_spec, E, Z.pow2_bits_true by lia. reflexivity. }
    rewrite H in F. now rewrite Z.bits_0 in F.
  - apply negb_false_iff, Z.eqb_eq. apply Z.bits_inj'. intros n Hn.
    rewrite Z.land_spec, Z.bits_0.
    destruct (decide (n = 15%Z)) as [->|Hne].
    + now rewrite E, andb_false_r.
    + rewrite Z.pow2_bits_false by lia. reflexivity.
Qed.

(** *** Style data *)

Lemma find_style_spec d category :
  match find_style d category with
  | Some spec =>
      exists i k, d !! i = Some (k, PDict spec) /\
        dict_get spec "categories" = Some (PStr category) /\
        forall j k' spec', (j < i)%nat -> d !! j = Some (k', PDict spec') ->
          dict_get spec' "categories" <> Some (PStr category)
  | None =>
      forall k spec, (k, PDict spec) ∈ d ->
        dict_get spec "categories" <> Some (PStr category)
  end.
Proof.
  induction d as [|[k v] d IH]; simpl.
  - intros k spec H. now apply elem_of_nil in H.
  - assert (Hskip :
      (forall spec, v = PDict spec ->
         dict_get spec "categories" <> Some (PStr category)) ->
      match find_style d category with
      | Some spec =>
          exists i k0, ((k, v) :: d) !! i = Some (k0, PDict spec) /\
            dict_get spec "categories" = Some (PStr category) /\
            forall j k' spec', (j < i)%nat ->
              ((k, v) :: d) !! j = Some (k', PDict spec') ->
              dict_get spec' "categories" <> Some (PStr category)
      | None =>
          forall k0 spec, (k0, PDict spec) ∈ (k, v) :: d ->
            dict_get spec "categories" <> Some (PStr category)
      end).
    { intros Hv. destruct (find_style d category) as [spec|].
      - destruct IH as (i & k0 & Hi & Hc & Hlt). exists (S i), k0.
        split; [exact Hi|]. split; [exact Hc|].
        intros [|j] k' spec' Hj Hl; simpl in Hl.
        + injection Hl as _ ->. now apply Hv.
        + apply (Hlt j k' spec'); [lia|trivial].
      - intros k0 spec [Hk|Hk]%elem_of_cons; [|now apply (IH k0)].
        injection Hk as _ <-. now apply Hv. }
    destruct v as [| | | | | |spec]; try (apply Hskip; discriminate).
    destruct (py_eq_str (dict_get spec "categories") category) eqn:E.
    + apply py_eq_str_true in E. exists 0%nat, k. split; [reflexivity|].
      split; [exact E|]. intros j k' spec' Hj. lia.
    + apply Hskip. intros spec' [= <-] Hc.
      apply py_eq_str_true in Hc. congruence.
Qed.

Section PanelFacts.
Import PyFloat PyFloatFacts FloatOrder FloatMore.
Variable str_to_float : string -> option float.
Variable make_rect : pydict -> result QRect.

Lemma overlay_radius_bounds v px :
  overlay_radius_from_spec str_to_float v = Ok px -> (3 <= px <= 10)%Z.
Proof.
  unfold overlay_radius_from_spec. intros H.
  apply bind_Ok in H as (z & _ & H). injection H as <-.
  destruct (z <? 3)%Z eqn:E1; simpl.
  - lia.
  - destruct (10 <? z)%Z eqn:E2; lia.
Qed.

Lemma overlay_radius_fallback v e :
  py_float str_to_float v = Raise e ->
  overlay_radius_from_spec str_to_float v = Ok 3%Z.
Proof. unfold overlay_radius_from_spec. intros ->. reflexivity. Qed.

Lemma overlay_radius_nan v f :
  py_float str_to_float v = Ok f -> sf_nan (Prim2SF f) = true ->
  overlay_radius_from_spec str_to_float v = Raise ValueError.
Proof.
  unfold overlay_radius_from_spec. intros -> Hn. simpl try_except.
  rewrite py_round_nan; [reflexivity|]. now apply nan_mul_l.
Qed.

Lemma type_radius_px_cases poi_style category :
  type_radius_px str_to_float poi_style "possible_xp" = Ok 6%Z /\
  (category <> "possible_xp" ->
   find_style_by_category poi_style category = None ->
   type_radius_px str_to_float poi_style category = Ok 3%Z) /\
  (forall px, type_radius_px str_to_float poi_style category = Ok px ->
     (3 <= px <= 10)%Z).
Proof.
  split; [reflexivity|]. unfold type_radius_px. split.
  - intros Hne%String.eqb_neq ->. rewrite Hne. reflexivity.
  - intros px. destruct (String.eqb category "possible_xp").
    + intros [= <-]. lia.
    + apply overlay_radius_bounds.
Qed.

(** *** The settings of the panel *)

Lemma set_type_field_spec tkey field v s :
  match dict_get s.(types) tkey with
  | None => set_type_field tkey field v s = (Raise KeyError, s)
  | Some (PDict t) =>
      set_type_field tkey field v s
      = (Ok tt, set_types (dict_set s.(types) tkey (PDict (dict_set t field v))) s)
  | Some _ => set_type_field tkey field v s = (Raise TypeError, s)
  end.
Proof.
  unfold set_type_field. simpl.
  destruct (dict_get (types s) tkey) as [[]|]; reflexivity.
Qed.

Lemma type_enabled_set types tkey t b k :
  type_enabled (dict_set types tkey (PDict (dict_set t "enabled" (PBool b)))) k
  = if String.eqb tkey k then Ok b else type_enabled types k.
Proof.
  unfold type_enabled. rewrite dict_get_set.
  destruct (String.eqb tkey k); trivial.
  now rewrite dict_get_set_eq.
Qed.

Lemma save_set_types ty s :
  save (set_types ty s)
  = (if hidden_sortable s then Ok tt else Raise TypeError, set_types ty s).
Proof.
  unfold save.
  change (hidden_sortable (set_types ty s)) with (hidden_sortable s).
  now destruct (hidden_sortable s).
Qed.

Lemma type_toggle_spec tkey b s :
  match dict_get s.(types) tkey with
  | None => type_toggle tkey b s = (Ok tt, s)
  | Some (PDict t) =>
      type_toggle tkey b s
      = (if hidden_sortable s then Ok tt else Raise TypeError,
         set_types (dict_set s.(types) tkey
                      (PDict (dict_set t "enabled" (PBool b)))) s)
  | Some _ => type_toggle tkey b s = (Raise TypeError, s)
  end.
Proof.
  unfold type_toggle, dict_has, act_bind.
  pose proof (set_type_field_spec tkey "enabled" (PBool b) s) as H.
  destruct (dict_get (types s) tkey) as [[]|]; trivial; rewrite H; trivial.
  apply save_set_types.
Qed.

Lemma type_color_spec tkey rgb s :
  match dict_get s.(types) tkey with
  | None => type_color tkey rgb s = (Ok tt, s)
  | Some (PDict t) =>
      type_color tkey rgb s
      = (if hidden_sortable s then Ok tt else Raise TypeError,
         set_types (dict_set s.(types) tkey
                      (PDict (dict_set t "color" rgb))) s)
  | Some _ => type_color tkey rgb s = (Raise TypeError, s)
  end.
Proof.
  unfold type_color, dict_has, act_bind.
  pose proof (set_type_field_spec tkey "color" rgb s) as H.
  destruct (dict_get (types s) tkey) as [[]|]; trivial; rewrite H; trivial.
  apply save_set_types.
Qed.

Lemma reset_types_spec fill ks : forall s,
  (forall k, k ∈ ks -> type_ok s.(types) k) ->
  exists ty,
    reset_types fill ks s = (Ok tt, set_types ty s) /\
    (forall k, k ∈ ks -> reset_ok fill ty k) /\
    (forall k, reset_ok fill s.(types) k -> reset_ok fill ty k) /\
    (forall k, type_ok s.(types) k -> type_ok ty k) /\
    (forall k, k ∉ ks -> dict_get ty k = dict_get s.(types) k).
Proof.
  induction ks as [|a ks IH]; intros s Hok.
  - exists s.(types). simpl. unfold act_ret.
    split; [now destruct s|]. split; [|auto].
    intros k Hk. now apply elem_of_nil in Hk.
  - destruct (Hok a) as (t & Ht & He & Hc); [now left|].
    cbn [reset_types]. unfold act_bind at 1.
    pose proof (set_type_field_spec a "enabled" (PBool true) s) as H1.
    rewrite Ht in H1. rewrite H1.
    set (t1 := dict_set t "enabled" (PBool true)).
    set (s1 := set_types (dict_set (types s) a (PDict t1)) s).
    unfold act_bind at 1.
    pose proof (set_type_field_spec a "color" (fill a) s1) as H2.
    assert (Ht1 : dict_get (types s1) a = Some (PDict t1))
      by (subst s1; destruct s; cbn; apply dict_get_set_eq).
    rewrite Ht1 in H2. rewrite H2.
    set (t2 := dict_set t1 "color" (fill a)).
    set (ty2 := dict_set (types s1) a (PDict t2)).
    assert (Hty2 : forall k, dict_get ty2 k
                   = if String.eqb a k then Some (PDict t2) else dict_get (types s) k).
    { intros k. subst ty2 s1. destruct s; cbn. rewrite !dict_get_set.
      now destruct (String.eqb a k). }
    assert (Ra : reset_ok fill ty2 a).
    { exists t2. rewrite Hty2, String.eqb_refl. split; trivial. subst t2 t1.
      split; [|apply dict_get_set_eq].
      rewrite dict_get_set_ne by discriminate. apply dict_get_set_eq. }
    assert (Rk : forall k, reset_ok fill (types s) k -> reset_ok fill ty2 k).
    { intros k (tk & Hk1 & Hk2 & Hk3).
      destruct (String.eqb a k) eqn:E; [apply String.eqb_eq in E as <-; exact Ra|].
      exists tk. rewrite Hty2, E. auto. }
    assert (Tk : forall k, type_ok (types s) k -> type_ok ty2 k).
    { intros k (tk & Hk1 & Hk2 & Hk3).
      destruct (String.eqb a k) eqn:E.
      - destruct Ra as (t' & R1 & R2 & R3). apply String.eqb_eq in E as <-.
        exists t'. unfold dict_has. now rewrite R1, R2, R3.
      - exists tk. rewrite Hty2, E. auto. }
    destruct (IH (set_types ty2 s1)) as (ty & Hr & Hin & Hpres & Htok & Hout).
    { intros k Hk. assert (Hs : types (set_types ty2 s1) = ty2) by now destruct s.
      rewrite Hs. apply Tk, Hok. now right. }
    assert (Hs : types (set_types ty2 s1) = ty2) by now destruct s.
    rewrite Hs in *.
    exists ty. split.
    { rewrite Hr. reflexivity. }
    split; [|split; [|split]].
    + intros k [->|Hk]%elem_of_cons; auto.
    + auto.
    + auto.
    + intros k Hk. apply not_elem_of_cons in Hk as [Hne Hk].
      rewrite Hout by trivial. rewrite Hty2.
      apply String.eqb_neq in Hne. rewrite String.eqb_sym. now rewrite Hne.
Qed.

End PanelFacts.

(** *** Dictionaries: keys *)

Lemma dict_get_None d k : dict_get d k = None <-> k ∉ d.*1.
Proof.
  induction d as [|[k' v] d IH]; simpl.
  - split; trivial. intros _. apply not_elem_of_nil.
  - rewrite not_elem_of_cons. destruct (String.eqb k' k) eqn:E.
    + apply String.eqb_eq in E as ->. split; [discriminate|]. now intros [? _].
    + apply String.eqb_neq in E. rewrite IH. split; [|tauto].
      intros H. split; [congruence|trivial].
Qed.

Lemma dict_set_keys d k v :
  (dict_set d k v).*1 = if dict_has d k then d.*1 else d.*1 ++ [k].
Proof.
  unfold dict_has. induction d as [|[k' v'] d IH]; [reflexivity|].
  cbn [dict_set dict_get].
  destruct (String.eqb k' k) eqn:E.
  - apply String.eqb_eq in E as ->. reflexivity.
  - rewrite !fmap_cons, IH. now destruct (dict_get d k).
Qed.

Lemma dict_set_NoDup d k v : NoDup d.*1 -> NoDup (dict_set d k v).*1.
Proof.
  intros H. rewrite dict_set_keys. unfold dict_has.
  destruct (dict_get d k) eqn:E; trivial.
  apply dict_get_None in E. apply NoDup_app. split; [trivial|]. split.
  - intros x Hx ->%list_elem_of_singleton. contradiction.
  - apply NoDup_singleton.
Qed.

Lemma dict_update_NoDup e : forall d, NoDup d.*1 -> NoDup (dict_update d e).*1.
Proof.
  unfold dict_update. induction e as [|[k v] e IH]; simpl; intros d H; trivial.
  apply IH. now apply dict_set_NoDup.
Qed.

Lemma dict_get_update e : forall d k,
  NoDup e.*1 ->
  dict_get (dict_update d e) k
  = match dict_get e k with Some v => Some v | None => dict_get d k end.
Proof.
  unfold dict_update. induction e as [|[k0 v0] e IH]; simpl; intros d k H; trivial.
  apply NoDup_cons in H as [Hk0 H]. rewrite IH by trivial.
  destruct (String.eqb k0 k) eqn:E.
  - apply String.eqb_eq in E as ->.
    apply dict_get_None in Hk0. rewrite Hk0. apply dict_get_set_eq.
  - apply String.eqb_neq in E. now rewrite dict_get_set_ne.
Qed.

Lemma dict_get_fold_set (f : string -> pyval) l : forall d k,
  dict_get (fold_left (fun d k => dict_set d k (f k)) l d) k
  = if bool_decide (k ∈ l) then Some (f k) else dict_get d k.
Proof.
  induction l as [|a l IH]; simpl; intros d k; trivial.
  rewrite IH. destruct (decide (k ∈ l)) as [Hin|Hin].
  - rewrite !bool_decide_eq_true_2; trivial. now right.
  - rewrite (bool_decide_eq_false_2 (k ∈ l)) by trivial.
    rewrite dict_get_set. destruct (String.eqb a k) eqn:E.
    + apply String.eqb_eq in E as ->. rewrite bool_decide_eq_true_2; [trivial|now left].
    + apply String.eqb_neq in E. rewrite bool_decide_eq_false_2; trivial.
      rewrite not_elem_of_cons. split; congruence.
Qed.

(** *** Sets and sorted lists *)

Lemma py_set_strings l : py_set (PStr <$> l) = Ok (list_to_set l).
Proof.
  induction l as [|a l IH]; [reflexivity|].
  rewrite fmap_cons. cbn [py_set]. rewrite IH. reflexivity.
Qed.

Lemma py_sorted_set X : list_to_set (py_sorted X) = X.
Proof.
  unfold py_sorted. apply set_eq. intros x.
  rewrite elem_of_list_to_set, merge_sort_Permutation. apply elem_of_elements.
Qed.

Section ReloadFacts.
Import PyFloat PyFloatFacts FloatOrder FloatMore.
Variable str_to_float : string -> option float.

Lemma saved_strings_get hs k :
  k ∈ type_order ->
  dict_get (saved_strings hs) k
  = Some (PList (PStr <$> py_sorted (default ∅ (hs !! k)))).
Proof.
  intros Hk. unfold saved_strings.
  rewrite (dict_get_fold_set
             (fun k => PList (PStr <$> py_sorted (default ∅ (hs !! k))))).
  now rewrite bool_decide_eq_true_2.
Qed.

Lemma init_hidden_fold l : forall h,
  (forall k, k ∈ l -> exists v, dict_get h k = Some (PList v)) ->
  fold_left
    (fun hidden k =>
       match dict_get hidden k with
       | Some (PList _) => hidden
       | _ => dict_set hidden k (PList [])
       end) l h = h.
Proof.
  induction l as [|a l IH]; simpl; intros h H; trivial.
  destruct (H a) as [v Hv]; [now left|]. rewrite Hv.
  apply IH. intros k Hk. apply H. now right.
Qed.

Lemma init_hidden_saved st hs :
  dict_get st "hidden" = Some (PDict (saved_strings hs)) ->
  init_hidden st = saved_strings hs.
Proof.
  intros H. unfold init_hidden. rewrite H. apply init_hidden_fold.
  intros k Hk. rewrite saved_strings_get by trivial. eauto.
Qed.

Lemma init_hidden_sets_saved hs :
  exists hs', init_hidden_sets (saved_strings hs) = Ok hs' /\
    forall k, k ∈ type_order -> hs' !! k = Some (default ∅ (hs !! k)).
Proof.
  unfold init_hidden_sets.
  assert (G : forall l (h0 : gmap string (gset string)),
    (forall k, k ∈ l -> k ∈ type_order) ->
    exists hs', for_each
      (fun hs0 k =>
         X ← py_set (match dict_get (saved_strings hs) k with
                     | Some (PList l) => l
                     | Some _ => []
                     | None => []
                     end);
         Ok (<[k := X]> hs0)) l h0 = Ok hs' /\
      (forall k, k ∈ l -> hs' !! k = Some (default ∅ (hs !! k))) /\
      (forall k, k ∉ l -> hs' !! k = h0 !! k)).
  { induction l as [|a l IH]; intros h0 Hl; cbn [for_each].
    - exists h0. split; trivial. split; trivial.
      intros k Hk. now apply elem_of_nil in Hk.
    - rewrite saved_strings_get by (apply Hl; now left).
      rewrite py_set_strings, py_sorted_set. cbn [mbind result_bind].
      destruct (IH (<[a:=default ∅ (hs !! a)]> h0)) as (hs' & E & Hin & Hout).
      { intros k Hk. apply Hl. now right. }
      exists hs'. split; trivial. split.
      + intros k Hk. destruct (decide (k ∈ l)) as [Hi|Hi]; [auto|].
        apply elem_of_cons in Hk as [->|Hk]; [|contradiction].
        rewrite Hout by trivial. apply lookup_insert_eq.
      + intros k Hk. apply not_elem_of_cons in Hk as [Hne Hk].
        rewrite Hout by trivial. now rewrite lookup_insert_ne. }
  destruct (G type_order ∅) as (hs' & E & Hin & _); [auto|].
  exists hs'. auto.
Qed.

(** *** Settings that are complete stay as they are *)

Lemma init_type_id fill d k :
  type_ok d k -> init_type fill (PDict d) k = Ok (PDict d).
Proof.
  intros (t & Ht & He & Hc). unfold init_type. simpl.
  unfold dict_has at 1. rewrite Ht. simpl. rewrite Ht. simpl.
  rewrite He. simpl. rewrite Ht. simpl. now rewrite Hc.
Qed.

Lemma init_types_id fill st ty :
  dict_get st "types" = Some (PDict ty) ->
  (forall k, k ∈ type_order -> type_ok ty k) ->
  init_types fill st = Ok ty.
Proof.
  intros Hst Hok. unfold init_types. rewrite Hst. simpl default.
  assert (G : forall l, (forall k, k ∈ l -> type_ok ty k) ->
              for_each (init_type fill) l (PDict ty) = Ok (PDict ty)).
  { induction l as [|a l IH]; intros Hl; simpl; trivial.
    rewrite init_type_id by (apply Hl; now left). simpl.
    apply IH. intros k Hk. apply Hl. now right. }
  now rewrite G.
Qed.

Lemma fix_profile_id profiles m :
  profile_ok profiles m -> fix_profile profiles m = Ok profiles.
Proof.
  intros (p & rr & Hp & Hrr). unfold fix_profile, dict_has.
  now rewrite Hp, Hp, Hrr.
Qed.

Lemma fix_profiles_id profiles l :
  (forall m, m ∈ l -> profile_ok profiles m) ->
  for_each fix_profile l profiles = Ok profiles.
Proof.
  induction l as [|a l IH]; intros Hl; simpl; trivial.
  rewrite fix_profile_id by (apply Hl; now left). simpl.
  apply IH. intros k Hk. apply Hl. now right.
Qed.

Lemma fix_profile_NoDup profiles m profiles' :
  fix_profile profiles m = Ok profiles' ->
  NoDup profiles.*1 -> NoDup profiles'.*1.
Proof.
  unfold fix_profile. intros H Hnd.
  set (p1 := if dict_has profiles m then profiles
             else dict_set profiles m (PDict [("rect_ratio", default_rect_ratio)])) in *.
  assert (H1 : NoDup p1.*1)
    by (subst p1; destruct (dict_has profiles m); trivial; now apply dict_set_NoDup).
  clearbody p1.
  destruct (dict_get p1 m) as [[| | | | | |p]|]; try discriminate.
  destruct (dict_get p "rect_ratio") as [[]|]; injection H as <-; trivial;
    now apply dict_set_NoDup.
Qed.

Lemma base_NoDup : NoDup base_profiles.*1 /\ NoDup base_settings.*1.
Proof. split; apply (bool_decide_unpack _); vm_compute; exact I. Qed.

(** The shape of what [_load_config] returns. *)
Lemma load_config_shape persisted data :
  load_config persisted = Ok data ->
  exists profiles st,
    data = [("profiles", PDict profiles); ("settings", PDict st)] /\
    NoDup profiles.*1 /\ NoDup st.*1 /\
    forall m, m ∈ MAPS -> profile_ok profiles m.
Proof.
  intros H. pose proof (load_config_profiles persisted) as P. rewrite H in P.
  destruct P as (profiles & st & -> & Hok). exists profiles, st.
  split; trivial. split; [|split; trivial].
  - unfold load_config in H. apply bind_Ok in H as (p' & Hp & H).
    injection H as -> _. revert Hp.
    apply (for_each_inv (fun p => NoDup p.*1)).
    + intros ? ? ? _ ? ?. eapply fix_profile_NoDup; eauto.
    + destruct persisted as [[| | | | | |dd]|]; simpl; try apply base_NoDup.
      destruct (dict_get dd "profiles") as [[| | | | | |p]|]; try apply base_NoDup.
      apply dict_update_NoDup, base_NoDup.
  - unfold load_config in H. apply bind_Ok in H as (p' & Hp & H).
    injection H as _ <-.
    destruct persisted as [[| | | | | |dd]|]; simpl; try apply base_NoDup.
    destruct (dict_get dd "settings") as [[| | | | | |p]|]; try apply base_NoDup.
    apply dict_update_NoDup, base_NoDup.
Qed.

End ReloadFacts.

Section RoundTripFacts.
Import PyFloat PyFloatFacts FloatOrder FloatMore.
Variable str_to_float : string -> option float.

Variable sorted_numbers : list pyval -> list pyval.

Lemma py_sorted_empty : py_sorted ∅ = [].
Proof. unfold py_sorted. now rewrite elements_empty. Qed.

Lemma sorted_members_strings strs :
  sorted_members sorted_numbers strs [] = Ok (PStr <$> py_sorted strs).
Proof.
  unfold sorted_members. rewrite sortable_strings. cbn [negb existsb].
  destruct (bool_decide (strs = ∅)) eqn:E; cbn [negb]; trivial.
  apply bool_decide_eq_true in E as ->. now rewrite py_sorted_empty.
Qed.

Lemma sorted_members_ok strs others :
  (exists l, sorted_members sorted_numbers strs others = Ok l) <->
  sortable strs others = true.
Proof.
  unfold sorted_members. destruct (sortable strs others); cbn [negb].
  - split; trivial. intros _.
    destruct (negb _); [eauto|]. destruct (existsb is_number _); [eauto|].
    destruct (existsb is_null _); eauto.
  - split; [intros [l Hl]|]; discriminate.
Qed.

Lemma saved_hidden_strings s :
  strings_only s ->
  saved_hidden sorted_numbers s.(hidden) s.(hidden_sets)
  = Ok (saved_strings s.(hidden_sets)).
Proof.
  intros Hso. unfold saved_hidden, saved_strings.
  assert (G : forall l d, (forall k, k ∈ l -> k ∈ type_order) ->
    for_each
      (fun d k =>
         l ← sorted_members sorted_numbers (default ∅ (hidden_sets s !! k))
               (other_members (hidden s) k);
         Ok (dict_set d k (PList l))) l d
    = Ok (fold_left
            (fun d k =>
               dict_set d k
                 (PList (PStr <$> py_sorted (default ∅ (hidden_sets s !! k)))))
            l d)).
  { induction l as [|a l IH]; intros d Hl; cbn [for_each fold_left]; trivial.
    rewrite (Hso a) by (apply Hl; now left).
    rewrite sorted_members_strings. cbn [mbind result_bind].
    apply IH. intros k Hk. apply Hl. now right. }
  apply G. auto.
Qed.

Lemma saved_hidden_ok s :
  (exists d, saved_hidden sorted_numbers s.(hidden) s.(hidden_sets) = Ok d) <->
  hidden_sortable s = true.
Proof.
  unfold saved_hidden, hidden_sortable.
  generalize (@nil (string * pyval)). generalize type_order.
  induction l as [|a l IH]; intros d; cbn [for_each forallb].
  - split; eauto.
  - rewrite andb_true_iff, <- (sorted_members_ok _ _).
    destruct (sorted_members sorted_numbers _ _) as [m|e];
      cbn [mbind result_bind].
    + rewrite IH. split; [eauto|]. now intros [_ ?].
    + split; [intros [? ?]; discriminate|]. intros [[? ?] _]. discriminate.
Qed.

Lemma save_settings_get st s :
  strings_only s ->
  exists st1,
    save_settings sorted_numbers st s = Ok st1 /\
    (NoDup st.*1 ->
     NoDup st1.*1 /\
     dict_get st1 "enable_num_switch" = Some (PBool s.(num_sw)) /\
     dict_get st1 "selected_map" = Some (PStr s.(prof)) /\
     dict_get st1 "visible_overlay" = Some (PBool s.(visible)) /\
     dict_get st1 "master_on" = Some (PBool s.(master)) /\
     dict_get st1 "global_scale" = Some (PFloat s.(global_scale)) /\
     dict_get st1 "types" = Some (PDict s.(types)) /\
     dict_get st1 "hidden" = Some (PDict (saved_strings s.(hidden_sets)))).
Proof.
  intros Hso. unfold save_settings. rewrite saved_hidden_strings by trivial.
  cbn [mbind result_bind]. eexists. split; [reflexivity|]. intros Hnd.
  split; [now repeat apply dict_set_NoDup|].
  repeat split; rewrite !dict_get_set; reflexivity.
Qed.

(** [_save] raises exactly when the assignments to the settings
    raise. *)
Lemma save_config_ok data st s :
  dict_get data "settings" = Some (PDict st) ->
  (exists saved, save_config sorted_numbers data s = Ok saved) <->
  fst (save s) = Ok tt.
Proof.
  intros Hd. unfold save_config, save, save_settings. cbn [py_getitem].
  rewrite Hd. cbn [of_option mbind result_bind].
  pose proof (saved_hidden_ok s) as H.
  destruct (saved_hidden sorted_numbers (hidden s) (hidden_sets s)) as [d|e];
    cbn [mbind result_bind].
  - rewrite (proj1 H) by eauto. cbn. split; eauto.
  - destruct (hidden_sortable s).
    + destruct (proj2 H eq_refl). discriminate.
    + cbn. split; [intros [? ?]|]; discriminate.
Qed.

End RoundTripFacts.

Lemma bind_Raise {A B} (m : result A) (f : A -> result B) e :
  m ≫= f = Raise e -> m = Raise e \/ exists a, m = Ok a /\ f a = Raise e.
Proof. destruct m as [a|e']; simpl; [eauto|]. intros [= ->]. now left. Qed.


Section RaiseFacts.
Import PyFloat PyFloatFacts FloatOrder FloatMore.
Variable str_to_float : string -> option float.
Variable make_rect : pydict -> result QRect.

Lemma build_points_raise cat items : forall pts e,
  build_points str_to_float cat items pts = Raise e ->
  exists it, it ∈ items /\ build_point str_to_float cat it = Raise e.
Proof.
  induction items as [|it items IH]; simpl; intros pts e H; [discriminate|].
  apply bind_Raise in H as [H|(o & Ho & H)].
  - exists it. split; [now left|trivial].
  - destruct o as [p|]; apply IH in H as (it' & Hin & Hr);
      exists it'; (split; [now right|trivial]).
Qed.




(** A disabled category gives no candidate. *)
Lemma candidates_enabled types hs pts prof h :
  h ∈ candidates types hs pts prof -> type_enabled types h.(h_type) = Ok true.
Proof. intros H. now apply candidates_elem in H. Qed.

Lemma paint_types_drawn radius_px types hs pts prof r scale es e :
  paint_types radius_px types hs pts r scale type_order = Ok es ->
  e ∈ es ->
  exists h, h ∈ candidates types hs pts prof /\ drawn_point e = hover_point h.
Proof.
  intros H He. apply (paint_types_spec _ _ _ _ prof) in H as [H _].
  assert (Hd : drawn_point e ∈ drawn_point <$> es)
    by (apply list_elem_of_fmap; eauto).
  rewrite H in Hd. apply list_elem_of_fmap in Hd as (h & Hh & Hin). eauto.
Qed.

Lemma paint_unfold radius_px s :
  paint radius_px s
  = match s.(rect) with
    | Some r =>
        if (s.(master) && s.(visible))%bool then
          paint_types radius_px s.(types) s.(hidden_sets)
            (default ∅ (s.(cache) !! s.(prof))) r s.(global_scale) type_order
        else Ok []
    | None => Ok []
    end.
Proof. reflexivity. Qed.

End RaiseFacts.

(* ================================================================== *)
(** ** Further properties of the engine *)

Section Further.
Import PyFloat PyFloatFacts FloatOrder FloatMore.

Variable str_to_float : string -> option float.
Variable make_rect : pydict -> result QRect.
Variable build_type_specs : pyval -> result (string -> pyval).

(** X2. [rotate90cw_norm] on any two floats, whatever their size: each
    output lies in [[0, 1]] exactly when the input it is computed from
    ([y] for [u], [x] for [v]) is not a NaN, and is a NaN exactly when
    that input is one. Infinite and out-of-grid coordinates are clamped;
    only a NaN goes through the two guards. *)
Theorem rotate90cw_norm_range_iff (x y : float) :
  (in_unit (fst (rotate90cw_norm x y)) <-> not_nan y) /\
  (in_unit (snd (rotate90cw_norm x y)) <-> not_nan x) /\
  (not_nan (fst (rotate90cw_norm x y)) <-> not_nan y) /\
  (not_nan (snd (rotate90cw_norm x y)) <-> not_nan x).
Proof.
  rewrite rotate90cw_norm_clamp. cbn [fst snd].
  rewrite !clamp01_in_unit_iff, !div_4095_not_nan_iff, sub_4095_not_nan_iff.
  split; [reflexivity|]. split; [reflexivity|].
  assert (H : forall u, not_nan (clamp01 u) <-> not_nan u).
  { intros u. split.
    - intros Hc. destruct (not_nan_dec u) as [|Hn]; trivial.
      now rewrite (clamp01_nan u Hn) in Hc.
    - intros Hu. now apply in_unit_not_nan, clamp01_in_unit. }
  rewrite !H, !div_4095_not_nan_iff, sub_4095_not_nan_iff.
  split; reflexivity.
Qed.

(** X3. [get_map_block] on a list. In the named format it returns the
    first dict of the list whose ["n"] is the map's name, and [None]
    when no dict has it. In the indexed format a name outside [MAPS]
    raises [ValueError] ([MAPS.index]); for the name at position [idx]
    it returns the first dict whose ["i"] equals [idx], and [None]
    when there is none. Any other format gives [None] whatever the
    dataset is. *)
Theorem get_map_block_first_match (l : list pyval) (map_name : string) :
  (exists r, get_map_block (PList l) "named" map_name = Ok r /\
     match r with
     | Some b =>
         exists i, l !! i = Some (PDict b) /\
           dict_get b "n" = Some (PStr map_name) /\
           forall j b', (j < i)%nat -> l !! j = Some (PDict b') ->
                        dict_get b' "n" <> Some (PStr map_name)
     | None => forall b, PDict b ∈ l -> dict_get b "n" <> Some (PStr map_name)
     end) /\
  (map_name ∉ MAPS ->
     get_map_block (PList l) "indexed_r" map_name = Raise ValueError) /\
  (forall idx, MAPS !! idx = Some map_name ->
     exists r, get_map_block (PList l) "indexed_r" map_name = Ok r /\
       match r with
       | Some b =>
           exists i, l !! i = Some (PDict b) /\
             py_eq_int (dict_get b "i") (Z.of_nat idx) = true /\
             forall j b', (j < i)%nat -> l !! j = Some (PDict b') ->
                          py_eq_int (dict_get b' "i") (Z.of_nat idx) = false
       | None => forall b, PDict b ∈ l ->
                           py_eq_int (dict_get b "i") (Z.of_nat idx) = false
       end) /\
  (forall fmt game_data, fmt <> "named" -> fmt <> "indexed_r" ->
     get_map_block game_data fmt map_name = Ok None).
Proof.
  split; [apply get_map_block_named|].
  split; [apply get_map_block_indexed|].
  split; [apply get_map_block_indexed|].
  intros fmt gd H1%String.eqb_neq H2%String.eqb_neq.
  unfold get_map_block. now rewrite H1, H2.
Qed.

(** X4. [build_for_category]: when it returns, the items its points
    were built from are a subsequence of the category's list, in order
    (items are skipped, never reordered or repeated), and every point
    carries the category, the floats of [c[0]] and [c[1]] and their
    transform. It raises only [TypeError], and only when some item's
    ["c"] is a non-zero number or [True] ([len(c)] outside the
    [try]). *)
Theorem build_for_category_outcome (block : pyval) (fmt cat : string) :
  match build_for_category str_to_float block fmt cat with
  | Ok pts =>
      sublist (pt_raw <$> pts) (get_category_list block fmt cat) /\
      (length pts <= length (get_category_list block fmt cat))%nat /\
      Forall (built_from str_to_float cat) pts
  | Raise e =>
      e = TypeError /\
      exists d c, PDict d ∈ get_category_list block fmt cat /\
        dict_get d "c" = Some c /\ truthy c = true /\
        match c with PBool _ | PInt _ | PFloat _ => True | _ => False end
  end.
Proof.
  destruct (build_for_category str_to_float block fmt cat) as [pts|e] eqn:E.
  - now apply build_for_category_points.
  - apply build_points_raise in E as (it & Hin & E).
    apply build_point_raise in E as (-> & d & c & -> & Hc & Ht & Hk).
    split; trivial. exists d, c. auto.
Qed.


(** X6. The identity of [_hidden_key] separates points: two points
    with the same identity in a category have the same rounded
    coordinates, and under [possible_xp] (where the source names hold
    no colon) the same source. With C4 this makes the identity
    equivalent to the pair of rounded coordinates, plus the source
    under [possible_xp]. *)
Theorem hidden_key_injective (tkey : string) (p q : point) (k : string) :
  (tkey = "possible_xp" ->
     no_colon p.(pt_src) = true /\ no_colon q.(pt_src) = true) ->
  hidden_key tkey p = Ok k -> hidden_key tkey q = Ok k ->
  py_round p.(pt_x) = py_round q.(pt_x) /\
  py_round p.(pt_y) = py_round q.(pt_y) /\
  (tkey = "possible_xp" -> p.(pt_src) = q.(pt_src)).
Proof.
  unfold hidden_key. intros Hsrc Hp Hq.
  apply bind_Ok in Hp as (xp & -> & Hp). apply bind_Ok in Hp as (yp & -> & Hp).
  apply bind_Ok in Hq as (xq & -> & Hq). apply bind_Ok in Hq as (yq & -> & Hq).
  destruct (String.eqb tkey "possible_xp") eqn:E.
  - apply String.eqb_eq in E. destruct (Hsrc E) as [Sp Sq].
    injection Hp as <-. injection Hq as Hq.
    apply colon_split in Hq as [Hs Hq]; trivial.
    apply colon_split in Hq as [Hx Hy]; try apply pretty_Z_no_colon.
    apply (inj pretty) in Hx, Hy. subst. auto.
  - apply String.eqb_neq in E.
    injection Hp as <-. injection Hq as Hq.
    apply colon_split in Hq as [Hx Hy]; try apply pretty_Z_no_colon.
    apply (inj pretty) in Hx, Hy. subst. split; [|split]; trivial.
    intros; contradiction.
Qed.

(** X7. [_hide_hovered]: it writes the hidden sets and the hover, and
    nothing else of the state. With no hover it changes neither. With a
    hover whose identity can be computed, the identity is added to the
    set of the hover's category: the hovered point is hidden in its
    category afterwards and every point hidden before is still hidden.
    [_save] comes next: when it returns the hover is cleared and the
    call returns; when it raises [TypeError] (a hidden set [sorted]
    cannot sort) the call raises and the hover stays on the point just
    hidden. From a state whose hidden sets hold strings only it
    returns. When the identity cannot be computed ([round] of a NaN or
    an infinity) it raises and leaves both as they were. *)
Theorem hide_hovered_effect (s : Overlay) :
  let r := hide_hovered s in
  let s' := snd r in
  s'.(hide_calls) = S s.(hide_calls) /\
  set_hide_calls s.(hide_calls) (set_hover s.(hover)
    (set_hidden_sets s.(hidden_sets) s')) = s /\
  match s.(hover) with
  | None => fst r = Ok tt /\ s'.(hidden_sets) = s.(hidden_sets)
  | Some h =>
      match hidden_key h.(h_type) h.(h_pt_ref) with
      | Ok hk =>
          s'.(hidden_sets) = hide s.(hidden_sets) h.(h_type) hk /\
          is_hidden s'.(hidden_sets) h.(h_type) h.(h_pt_ref) = Ok true /\
          (forall t pt, is_hidden s.(hidden_sets) t pt = Ok true ->
                        is_hidden s'.(hidden_sets) t pt = Ok true) /\
          (if hidden_sortable s'
           then fst r = Ok tt /\ s'.(hover) = None
           else fst r = Raise TypeError /\ s'.(hover) = Some h) /\
          (strings_only s -> fst r = Ok tt /\ s'.(hover) = None)
      | Raise e =>
          fst r = Raise e /\ s'.(hover) = s.(hover) /\
          s'.(hidden_sets) = s.(hidden_sets)
      end
  end.
Proof.
  pose proof (strings_sortable s) as Hs. revert Hs.
  destruct s as [gd fm pr ns p vi ma gs ty hi hs re b1 b2 b3 b4 ho hr ca hc].
  unfold hide_hovered. cbn. intros Hs.
  destruct ho as [h|]; cbn; [|auto].
  destruct (hidden_key (h_type h) (h_pt_ref h)) as [hk|e] eqn:E; cbn; [|auto].
  unfold act_bind, save, modify.
  match goal with |- context [hidden_sortable ?x] => set (s2 := x) end.
  assert (Hs2 : strings_only s2 -> hidden_sortable s2 = true)
    by apply strings_sortable.
  destruct (hidden_sortable s2) eqn:Es; cbn [fst snd].
  - change (hidden_sortable (set_hover None s2)) with (hidden_sortable s2).
    rewrite Es. subst s2. cbn.
    split; [trivial|]. split; [trivial|]. split; [trivial|].
    split; [now apply is_hidden_hide_same|].
    split; [intros t pt; apply is_hidden_mono|]. auto.
  - rewrite Es. subst s2. cbn.
    split; [trivial|]. split; [trivial|]. split; [trivial|].
    split; [now apply is_hidden_hide_same|].
    split; [intros t pt; apply is_hidden_mono|].
    split; [auto|]. intros H. apply Hs2 in H. discriminate.
Qed.

(** X8. The hit-test returns (rather than raises) exactly when the
    setting of every category is a dict or missing, and every point of
    an enabled category has an identity, that is, coordinates [round]
    accepts. *)
Theorem hit_test_returns_iff (types : pydict) (hs : gmap string (gset string))
    (pts_by_type : gmap string (list point)) (prof : string)
    (mx my : float) (r : QRect) (radius : Z) :
  (exists best, hit_test types hs pts_by_type prof mx my r radius = Ok best) <->
  (forall tkey, tkey ∈ type_order ->
     exists b, type_enabled types tkey = Ok b) /\
  (forall tkey pt, tkey ∈ type_order -> type_enabled types tkey = Ok true ->
     pt ∈ default [] (pts_by_type !! tkey) ->
     exists hk, hidden_key tkey pt = Ok hk).
Proof.
  unfold hit_test. split.
  - intros [best H].
    destruct (scan_types _ _ _ _ _ _ _ _ _) as [b|] eqn:E; [|discriminate].
    apply scan_types_returns in E as [Ht Hp]. split; trivial.
    intros tkey pt Hk En Hpt. apply (proj1 (is_hidden_Ok_iff hs tkey pt)). eauto.
  - intros [Ht Hp]. rewrite scan_types_select; trivial.
    + simpl. eauto.
    + intros tkey pt Hk En Hpt. apply (proj2 (is_hidden_Ok_iff hs tkey pt)). eauto.
Qed.

(** X9. Whatever the hit-test returns, for any radius and any points
    (no assumption on their coordinates): the entry is within the
    radius, belongs to the current map, its category is enabled, its
    point is the one at its index in that category's list, and the
    point is not hidden. *)
Theorem hit_test_sound (types : pydict) (hs : gmap string (gset string))
    (pts_by_type : gmap string (list point)) (prof : string)
    (mx my : float) (r : QRect) (radius : Z) (h : hover_info) :
  hit_test types hs pts_by_type prof mx my r radius = Ok (Some h) ->
  (d2 mx my r h <=? Z2float (radius * radius))%float = true /\
  h.(h_map) = prof /\ h.(h_type) ∈ type_order /\
  type_enabled types h.(h_type) = Ok true /\
  default [] (pts_by_type !! h.(h_type)) !! h.(h_index) = Some h.(h_pt_ref) /\
  is_hidden hs h.(h_type) h.(h_pt_ref) = Ok false.
Proof. apply hit_test_within. Qed.

(** X10. The selected map stays one of [MAPS]: [switch] and every run
    of ticks keep it so. *)
Theorem run_keeps_selected_map (ks : list sample) (s : Overlay) :
  s.(prof) ∈ MAPS ->
  (run make_rect ks s).(prof) ∈ MAPS /\
  forall name, (snd (switch make_rect name s)).(prof) ∈ MAPS.
Proof.
  intros H. split.
  - apply (run_preserves make_rect (fun s => s.(prof) ∈ MAPS));
      [apply tick_prof_known|exact H].
  - intros name. destruct (switch_writes make_rect name s) as [_ [->|[-> ?]]];
      trivial.
Qed.

(** X11. "Visible implies master" is an invariant of the tick: when
    the overlay is not visible with master off, no run of ticks makes
    it so. *)
Theorem run_visible_implies_master (ks : list sample) (s : Overlay) :
  (s.(visible) = true -> s.(master) = true) ->
  (run make_rect ks s).(visible) = true ->
  (run make_rect ks s).(master) = true.
Proof.
  apply (run_preserves make_rect
           (fun s => s.(visible) = true -> s.(master) = true)).
  apply tick_visible_master.
Qed.

(** X12. From a state whose hidden sets hold strings only (so that
    [_save] cannot raise), the hovered point is never a hidden one:
    when this holds of the state (it does when there is no hover, as
    at start-up), it holds after every run of ticks. *)
Theorem run_hover_never_hidden (ks : list sample) (s : Overlay) :
  strings_only s -> hover_shown s ->
  strings_only (run make_rect ks s) /\ hover_shown (run make_rect ks s).
Proof.
  intros H1 H2.
  apply (run_preserves make_rect (fun s => strings_only s /\ hover_shown s));
    [apply tick_hover_shown|auto].
Qed.

(** X13. No tick removes an identity from a hidden set: what is hidden
    stays hidden through every run. *)
Theorem run_hidden_only_grows (ks : list sample) (s : Overlay) :
  hidden_grows s (run make_rect ks s) /\
  forall t pt, is_hidden s.(hidden_sets) t pt = Ok true ->
               is_hidden (run make_rect ks s).(hidden_sets) t pt = Ok true.
Proof.
  assert (G : hidden_grows s (run make_rect ks s)).
  { apply (run_preserves make_rect (hidden_grows s)).
    - intros k s'. apply tick_hidden_grows.
    - intros t k Hk. exact Hk. }
  split; trivial. intros t pt. unfold is_hidden.
  destruct (hidden_key t pt) as [k|]; simpl; [|discriminate].
  intros [= H]. f_equal. apply bool_decide_eq_true in H.
  apply bool_decide_eq_true. now apply G.
Qed.

(** X14. No tick writes the datasets, the format, the profiles, the
    number-key setting, the scale, the category settings, the persisted
    hidden lists, the hover radius or the cache. *)
Theorem run_keeps_setup (ks : list sample) (s : Overlay) :
  same_setup s (run make_rect ks s).
Proof.
  apply (run_preserves make_rect (same_setup s)).
  - intros k s'. apply tick_same_setup.
  - unfold same_setup. auto 10.
Qed.

(** X15. After [_set_num_switch(False)] the number keys are dead: no
    run of ticks changes the selected map. *)
Theorem num_switch_off_keeps_map (ks : list sample) (s : Overlay) :
  let s0 := snd (set_num_switch false s) in
  s0.(num_sw) = false /\
  (run make_rect ks s0).(num_sw) = false /\
  (run make_rect ks s0).(prof) = s.(prof).
Proof.
  intros s0.
  assert (H0 : s0.(num_sw) = false /\ s0.(prof) = s.(prof)).
  { subst s0. unfold set_num_switch, act_bind, modify.
    rewrite save_state. now destruct s. }
  split; [apply H0|].
  revert H0.
  apply (run_preserves make_rect
           (fun s' => s'.(num_sw) = false /\ s'.(prof) = s.(prof))).
  intros k s'. apply tick_prof_fixed.
Qed.

End Further.

Section Startup.
Import PyFloat PyFloatFacts FloatOrder FloatMore.

Variable str_to_float : string -> option float.
Variable make_rect : pydict -> result QRect.
Variable build_type_specs : pyval -> result (string -> pyval).





End Startup.

Section FurtherTwo.
Import PyFloat PyFloatFacts FloatOrder FloatMore.

Variable str_to_float : string -> option float.
Variable make_rect : pydict -> result QRect.
Variable build_type_specs : pyval -> result (string -> pyval).
Variable sorted_numbers : list pyval -> list pyval.

(** X16. [_load_config] on any payload, well formed or not: it either
    returns a dict with exactly the two sections [profiles] and
    [settings], in which every map of [MAPS] has a profile that is a
    dict holding a dict [rect_ratio], or it raises [AttributeError]
    (a stored profile of a map that is no dict: [.get] on it). *)
Theorem load_config_outcome (persisted : option pyval) :
  match load_config persisted with
  | Ok data =>
      exists profiles st,
        data = [("profiles", PDict profiles); ("settings", PDict st)] /\
        forall m, m ∈ MAPS -> profile_ok profiles m
  | Raise e => e = AttributeError
  end.
Proof. apply load_config_profiles. Qed.

(** X17. The merge of the settings in [_load_config]: a key the file's
    [settings] dict holds takes the file's value, whatever it is; a
    key it does not hold keeps the default; keys the defaults do not
    know are kept too. *)
Theorem load_config_settings_merge (d st0 : pydict) (data : pydict) :
  dict_get d "settings" = Some (PDict st0) -> NoDup st0.*1 ->
  load_config (Some (PDict d)) = Ok data ->
  exists st, dict_get data "settings" = Some (PDict st) /\
    forall k, dict_get st k
              = match dict_get st0 k with
                | Some v => Some v
                | None => dict_get base_settings k
                end.
Proof.
  intros Hd Hnd H. unfold load_config in H.
  apply bind_Ok in H as (p & _ & H). injection H as <-.
  change (default (PDict []) (Some (PDict d))) with (PDict d).
  cbv beta iota. rewrite Hd.
  exists (dict_update base_settings st0). split; [reflexivity|].
  intros k. now apply dict_get_update.
Qed.


(** X19. What [paintEvent] draws when it returns. With master off, the
    overlay not visible or no rectangle it draws nothing. Otherwise the
    points it draws are, in drawing order, exactly the candidates of
    the hover hit-test (the points of the enabled categories of the
    current map that are not hidden); every radius lies in [[1, 40]],
    and every centre is the point's [(u, v)] scaled into the
    rectangle. *)
Theorem paint_draws_candidates (radius_px : string -> Z) (s : Overlay)
    (es : list ellipse) :
  paint radius_px s = Ok es ->
  drawn_point <$> es
    = (if (s.(master) && s.(visible) && bool_decide (is_Some s.(rect)))%bool
       then hover_point <$> candidates s.(types) s.(hidden_sets)
                              (default ∅ (s.(cache) !! s.(prof))) s.(prof)
       else []) /\
  Forall (fun e =>
            (1 <= e.(e_r) <= 40)%Z /\
            exists r, s.(rect) = Some r /\
              e.(e_cx) = (Z2float r.(rect_left)
                          + e.(e_pt).(pt_u) * Z2float r.(rect_width))%float /\
              e.(e_cy) = (Z2float r.(rect_top)
                          + e.(e_pt).(pt_v) * Z2float r.(rect_height))%float)
         es.
Proof.
  rewrite paint_unfold. destruct (rect s) as [r|].
  - destruct (master s && visible s)%bool; cbn [andb].
    + rewrite bool_decide_eq_true_2 by eauto.
      intros H. apply (paint_types_spec _ _ _ _ (prof s)) in H as [H1 H2].
      split; [exact H1|].
      eapply Forall_impl; [exact H2|]. intros e (? & ? & ?). eauto.
    + intros [= <-]. split; [reflexivity|constructor].
  - intros [= <-]. rewrite andb_false_r. split; [reflexivity|constructor].
Qed.

(** X20. A NaN scale breaks the painting: with master on, the overlay
    visible and a rectangle, [paintEvent] raises as soon as one
    category is not switched off ([round] of a NaN, or the exception
    of reading that category's setting). *)
Theorem paint_raises_on_nan_scale (radius_px : string -> Z) (s : Overlay)
    (k : string) :
  sf_nan (Prim2SF s.(global_scale)) = true ->
  s.(master) = true -> s.(visible) = true -> is_Some s.(rect) ->
  k ∈ type_order -> type_enabled s.(types) k <> Ok false ->
  exists e, paint radius_px s = Raise e.
Proof.
  intros Hn Hm Hv [r Hr] Hk Hen. rewrite paint_unfold, Hr, Hm, Hv. cbn [andb].
  destruct (paint_types _ _ _ _ _ _ _) as [es|e] eqn:E; [|eauto].
  apply paint_types_nan in E as [_ E]; trivial.
  now apply E in Hk.
Qed.

(** X21. What is hovered is on screen: when [_update_hover] leaves a
    hover and [paintEvent] returns in that state, one of the ellipses
    drawn is the hovered point in the hovered category. *)
Theorem hovered_is_painted (radius_px : string -> Z) (lx ly : Z)
    (s : Overlay) (h : hover_info) (es : list ellipse) :
  (snd (update_hover lx ly s)).(hover) = Some h ->
  paint radius_px (snd (update_hover lx ly s)) = Ok es ->
  exists e, e ∈ es /\ drawn_point e = hover_point h.
Proof.
  unfold update_hover.
  destruct (rect (set_hover None s)) as [r|] eqn:Er; [|discriminate].
  destruct (master (set_hover None s) && visible (set_hover None s)) eqn:Emv;
    [|discriminate].
  destruct (hit_test _ _ _ _ _ _ _ _) as [best|e] eqn:E; [|discriminate].
  cbn [snd]. intros Hh.
  assert (Hb : best = Some h) by (destruct s; exact Hh). subst best.
  apply hit_test_within in E as (_ & Hc).
  apply candidates_elem in Hc.
  rewrite paint_unfold.
  assert (E1 : rect (set_hover (Some h) (set_hover None s)) = Some r)
    by (destruct s; exact Er).
  assert (E2 : (master (set_hover (Some h) (set_hover None s))
                && visible (set_hover (Some h) (set_hover None s)))%bool = true)
    by (destruct s; exact Emv).
  rewrite E1, E2. intros Hp.
  apply (paint_types_spec _ _ _ _ (prof s)) in Hp as [Hp _].
  assert (Hin : hover_point h ∈ drawn_point <$> es).
  { rewrite Hp. apply list_elem_of_fmap. exists h. split; [reflexivity|].
    exact Hc. }
  apply list_elem_of_fmap in Hin as (e & He & Hin). eauto.
Qed.

(** X22. The radius a category is drawn with before scaling.
    [overlay_radius_from_spec] returns a value in [[3, 10]] whenever it
    returns; a radius [float] rejects (a missing one is 12) gives 3;
    a NaN radius raises [ValueError], outside the [try]. In
    [_build_type_specs] the radius of [possible_xp] is 6; a category
    the style file has no record for gets 3, and every radius it
    stores is in [[3, 10]]. *)
Theorem overlay_radius_range (v poi_style : pyval) (category : string) :
  (forall px, overlay_radius_from_spec str_to_float v = Ok px ->
     (3 <= px <= 10)%Z) /\
  (forall e, py_float str_to_float v = Raise e ->
     overlay_radius_from_spec str_to_float v = Ok 3%Z) /\
  (forall f, py_float str_to_float v = Ok f -> sf_nan (Prim2SF f) = true ->
     overlay_radius_from_spec str_to_float v = Raise ValueError) /\
  type_radius_px str_to_float poi_style "possible_xp" = Ok 6%Z /\
  (category <> "possible_xp" ->
   find_style_by_category poi_style category = None ->
   type_radius_px str_to_float poi_style category = Ok 3%Z) /\
  (forall px, type_radius_px str_to_float poi_style category = Ok px ->
     (3 <= px <= 10)%Z).
Proof.
  split; [apply overlay_radius_bounds|].
  split; [apply overlay_radius_fallback|].
  split; [apply overlay_radius_nan|].
  apply type_radius_px_cases.
Qed.

(** X23. [find_style_by_category]: on a dict it returns the first
    record, in the file's order, that is a dict whose [categories]
    equals the category, and [None] when no record is; on anything
    but a dict it returns [None]. *)
Theorem find_style_first_match (style_json : pyval) (category : string) :
  match style_json with
  | PDict d =>
      match find_style_by_category style_json category with
      | Some spec =>
          exists i k, d !! i = Some (k, PDict spec) /\
            dict_get spec "categories" = Some (PStr category) /\
            forall j k' spec', (j < i)%nat -> d !! j = Some (k', PDict spec') ->
              dict_get spec' "categories" <> Some (PStr category)
      | None =>
          forall k spec, (k, PDict spec) ∈ d ->
            dict_get spec "categories" <> Some (PStr category)
      end
  | _ => find_style_by_category style_json category = None
  end.
Proof. destruct style_json; try reflexivity. apply find_style_spec. Qed.

(** X24. [_type_toggle]: for a category without a setting it does
    nothing. For a setting that is a dict it writes the flag and then
    calls [_save]: it returns, unless [_save] raises [TypeError] on a
    hidden set [sorted] cannot sort, which it never does when the
    hidden sets hold strings only. Either way the category's enabled
    flag reads afterwards as the value given, the enabled flag of
    every other category reads as before, and only [self.types] has
    changed. For a setting that is no dict it raises [TypeError] and
    changes nothing. *)
Theorem type_toggle_outcome (tkey : string) (b : bool) (s : Overlay) :
  match dict_get s.(types) tkey with
  | None => type_toggle tkey b s = (Ok tt, s)
  | Some (PDict t) =>
      exists ty,
        type_toggle tkey b s
        = (if hidden_sortable s then Ok tt else Raise TypeError,
           set_types ty s) /\
        (strings_only s -> type_toggle tkey b s = (Ok tt, set_types ty s)) /\
        type_enabled ty tkey = Ok b /\
        (forall k, k <> tkey ->
           dict_get ty k = dict_get s.(types) k /\
           type_enabled ty k = type_enabled s.(types) k) /\
        exists t', dict_get ty tkey = Some (PDict t') /\
          forall f, f <> "enabled" -> dict_get t' f = dict_get t f
  | Some _ => type_toggle tkey b s = (Raise TypeError, s)
  end.
Proof.
  pose proof (type_toggle_spec tkey b s) as H.
  destruct (dict_get (types s) tkey) as [[| | | | | |t]|] eqn:E; trivial.
  eexists. split; [exact H|]. split; [|split; [|split]].
  - intros Hso. rewrite H. now rewrite strings_sortable.
  - rewrite type_enabled_set. now rewrite String.eqb_refl.
  - intros k Hk. split.
    + apply dict_get_set_ne. congruence.
    + rewrite type_enabled_set.
      assert (Hne : String.eqb tkey k = false)
        by (apply String.eqb_neq; congruence).
      now rewrite Hne.
  - eexists. split; [apply dict_get_set_eq|].
    intros f Hf. apply dict_get_set_ne. congruence.
Qed.

(** X25. A category that is switched off is neither hovered nor drawn:
    the hit-test never returns an entry of it and [paintEvent] draws
    no point of it. *)
Theorem disabled_category_unseen (radius_px : string -> Z) (types : pydict)
    (hs : gmap string (gset string)) (pts_by_type : gmap string (list point))
    (prof tkey : string) (mx my scale : float) (r : QRect) (radius : Z) :
  type_enabled types tkey = Ok false ->
  (forall h, hit_test types hs pts_by_type prof mx my r radius = Ok (Some h) ->
     h.(h_type) <> tkey) /\
  (forall es, paint_types radius_px types hs pts_by_type r scale type_order
              = Ok es ->
     Forall (fun e => e.(e_type) <> tkey) es).
Proof.
  intros Hoff. split.
  - intros h H%hit_test_within Heq. destruct H as (_ & _ & _ & Hen & _).
    rewrite Heq in Hen. congruence.
  - intros es H. apply Forall_forall. intros e He Heq.
    destruct (paint_types_drawn _ _ _ _ prof _ _ _ _ H He) as (h & Hh & Hd).
    apply candidates_enabled in Hh. injection Hd as Ht _.
    rewrite <- Ht, Heq in Hh. congruence.
Qed.

(** X26. [_type_color]: for a category without a setting it does
    nothing. For a setting that is a dict it stores the colour there
    and then calls [_save]: it returns, unless [_save] raises
    [TypeError] on a hidden set [sorted] cannot sort, which it never
    does when the hidden sets hold strings only. Either way the colour
    is stored, every other key of the setting is kept, and the enabled
    flag of every category reads as before. For a setting that is no
    dict it raises [TypeError] and changes nothing. *)
Theorem type_color_outcome (tkey : string) (rgb : pyval) (s : Overlay) :
  match dict_get s.(types) tkey with
  | None => type_color tkey rgb s = (Ok tt, s)
  | Some (PDict t) =>
      exists ty t',
        type_color tkey rgb s
        = (if hidden_sortable s then Ok tt else Raise TypeError,
           set_types ty s) /\
        (strings_only s -> type_color tkey rgb s = (Ok tt, set_types ty s)) /\
        dict_get ty tkey = Some (PDict t') /\
        dict_get t' "color" = Some rgb /\
        (forall f, f <> "color" -> dict_get t' f = dict_get t f) /\
        (forall k, k <> tkey -> dict_get ty k = dict_get s.(types) k) /\
        forall k, type_enabled ty k = type_enabled s.(types) k
  | Some _ => type_color tkey rgb s = (Raise TypeError, s)
  end.
Proof.
  pose proof (type_color_spec tkey rgb s) as H.
  destruct (dict_get (types s) tkey) as [[| | | | | |t]|] eqn:E; trivial.
  eexists _, _. split; [exact H|].
  split; [intros Hso; rewrite H; now rewrite strings_sortable|].
  split; [apply dict_get_set_eq|]. split; [apply dict_get_set_eq|].
  split; [intros f Hf; apply dict_get_set_ne; congruence|].
  split; [intros k Hk; apply dict_get_set_ne; congruence|].
  intros k. unfold type_enabled. rewrite dict_get_set.
  destruct (String.eqb tkey k) eqn:Ek; trivial.
  apply String.eqb_eq in Ek as <-. rewrite E.
  now rewrite dict_get_set_ne by discriminate.
Qed.

(** X27. [_reset_colors] on settings in which every category has a
    dict with [enabled] and [color] (as after start-up): it writes the
    settings and then calls [_save]: it returns, unless [_save] raises
    [TypeError] on a hidden set [sorted] cannot sort, which it never
    does when the hidden sets hold strings only. Either way only
    [self.types] has changed, and afterwards every category is enabled
    with its default colour; settings of names outside [type_order]
    are untouched. *)
Theorem reset_colors_outcome (fill : string -> pyval) (s : Overlay) :
  (forall k, k ∈ type_order -> type_ok s.(types) k) ->
  exists ty,
    reset_colors fill s
    = (if hidden_sortable s then Ok tt else Raise TypeError, set_types ty s) /\
    (strings_only s -> reset_colors fill s = (Ok tt, set_types ty s)) /\
    (forall k, k ∈ type_order ->
       reset_ok fill ty k /\ type_enabled ty k = Ok true) /\
    (forall k, k ∉ type_order -> dict_get ty k = dict_get s.(types) k).
Proof.
  intros Hok.
  destruct (reset_types_spec fill type_order s Hok)
    as (ty & Hr & Hin & _ & _ & Hout).
  assert (E : reset_colors fill s
              = (if hidden_sortable s then Ok tt else Raise TypeError,
                 set_types ty s)).
  { unfold reset_colors, act_bind. rewrite Hr. apply save_set_types. }
  exists ty. split; [exact E|].
  split; [intros Hso; rewrite E; now rewrite strings_sortable|].
  split; trivial. intros k Hk. split; [auto|].
  destruct (Hin k Hk) as (t & Ht & He & _).
  unfold type_enabled. now rewrite Ht, He.
Qed.

(** X28. [_save] returns exactly when the settings it assigns can be
    built, which is when [sorted] returns for every hidden set. What
    it then writes is what the next start reads: for any state whose
    category settings are complete and whose hidden sets hold strings
    only, saving into the configuration the overlay holds and loading
    the saved value gives settings from which start-up restores the
    number-key setting, the selected map (one of [MAPS]), the visible
    and master flags, the category settings, the scale (clamped) and,
    for every category, the hidden set; the profiles of the maps are
    the same. The file in between is taken to give back the value
    written. *)
Theorem save_then_reload (persisted0 : option pyval) (data : pydict)
    (s : Overlay) (fill : string -> pyval) :
  load_config persisted0 = Ok data ->
  ((exists saved, save_config sorted_numbers data s = Ok saved) <->
   fst (save s) = Ok tt) /\
  ((forall k, k ∈ type_order -> type_ok s.(types) k) ->
   strings_only s ->
   exists saved data2 st2 profiles profiles2 hs2,
     save_config sorted_numbers data s = Ok saved /\
     load_config (Some (PDict saved)) = Ok data2 /\
     dict_get data "profiles" = Some (PDict profiles) /\
     dict_get data2 "profiles" = Some (PDict profiles2) /\
     (forall m, m ∈ MAPS -> dict_get profiles2 m = dict_get profiles m) /\
     dict_get data2 "settings" = Some (PDict st2) /\
     truthy (default (PBool true) (dict_get st2 "enable_num_switch"))
       = s.(num_sw) /\
     (s.(prof) ∈ MAPS -> init_prof st2 = s.(prof)) /\
     truthy (default (PBool false) (dict_get st2 "visible_overlay"))
       = s.(visible) /\
     truthy (default (PBool true) (dict_get st2 "master_on")) = s.(master) /\
     init_global_scale str_to_float st2 = Ok (clamp_scale s.(global_scale)) /\
     init_types fill st2 = Ok s.(types) /\
     init_hidden_sets (init_hidden st2) = Ok hs2 /\
     forall k, k ∈ type_order ->
       hs2 !! k = Some (default ∅ (s.(hidden_sets) !! k))).
Proof.
  intros Hload.
  apply load_config_shape in Hload as (profiles & st & -> & Np & Ns & Hok).
  split; [now apply (save_config_ok sorted_numbers _ st)|].
  intros Htypes Hso.
  destruct (save_settings_get sorted_numbers st s Hso) as (st1 & Hst1 & G).
  destruct (G Ns) as (N1 & G1 & G2 & G3 & G4 & G5 & G6 & G7). clear G.
  set (st2 := dict_update base_settings st1).
  set (profiles2 := dict_update base_profiles profiles).
  assert (Hp2 : forall m, m ∈ MAPS -> dict_get profiles2 m = dict_get profiles m).
  { intros m Hm. subst profiles2. rewrite dict_get_update by trivial.
    destruct (Hok m Hm) as (p & rr & -> & _). reflexivity. }
  assert (Hok2 : forall m, m ∈ MAPS -> profile_ok profiles2 m).
  { intros m Hm. unfold profile_ok. rewrite Hp2 by trivial. now apply Hok. }
  assert (Hget : forall k v, dict_get st1 k = Some v -> dict_get st2 k = Some v).
  { intros k v Hk. subst st2. rewrite dict_get_update by trivial. now rewrite Hk. }
  destruct (init_hidden_sets_saved s.(hidden_sets)) as (hs2 & Hhs & Hlk).
  exists [("profiles", PDict profiles); ("settings", PDict st1)],
         [("profiles", PDict profiles2); ("settings", PDict st2)],
         st2, profiles, profiles2, hs2.
  split.
  { unfold save_config. cbn [py_getitem dict_get String.eqb Ascii.eqb Bool.eqb
      of_option mbind result_bind]. rewrite Hst1. reflexivity. }
  split.
  { unfold load_config.
    change (default (PDict []) (Some ?x)) with x.
    cbn [dict_get String.eqb Ascii.eqb Bool.eqb].
    fold profiles2. fold st2. now rewrite (fix_profiles_id _ _ Hok2). }
  split; [reflexivity|]. split; [reflexivity|]. split; [exact Hp2|].
  split; [reflexivity|].
  rewrite (Hget _ _ G1), (Hget _ _ G3), (Hget _ _ G4). cbn [default truthy].
  split; [reflexivity|]. split.
  { intros Hm. unfold init_prof. rewrite (Hget _ _ G2).
    now rewrite bool_decide_eq_true_2. }
  split; [reflexivity|]. split; [reflexivity|]. split.
  { unfold init_global_scale. rewrite (Hget _ _ G5). reflexivity. }
  split.
  { apply init_types_id; [now apply Hget|trivial]. }
  erewrite init_hidden_saved by (apply Hget; exact G7).
  split; trivial.
Qed.

(** X29. [key(vk)] is bit 15 of the state [GetAsyncKeyState] returns
    (the key is down now): every other bit, the "pressed since the
    last call" bit 0 among them, is ignored. *)
Theorem key_is_bit15 (state : Z) :
  key state = Z.testbit state 15 /\
  (forall n, n <> 15%Z -> (0 <= n)%Z ->
     key (Z.lxor state (2 ^ n)) = key state).
Proof.
  split; [apply key_bit15|].
  intros n Hn Hpos. rewrite !key_bit15, Z.lxor_spec.
  rewrite Z.pow2_bits_false by congruence. apply xorb_false_r.
Qed.

(** X30. [_save] changes nothing of the state; it returns or raises
    [TypeError], and it raises exactly when the hidden set of some
    category of [type_order] cannot be sorted: the set holds a string
    beside a number, a boolean or a [null] of the list it was built
    from, or that list holds a [null] and a number. The hidden sets
    hold strings only exactly when no list holds a number, a boolean
    or a [null]; [_save] then returns. *)
Theorem save_outcome (s : Overlay) :
  let number := fun v : pyval =>
    (exists b, v = PBool b) \/ (exists n, v = PInt n) \/
    (exists f, v = PFloat f) in
  snd (save s) = s /\
  (fst (save s) = Ok tt \/ fst (save s) = Raise TypeError) /\
  (fst (save s) = Raise TypeError <->
   exists k l, k ∈ type_order /\ dict_get s.(hidden) k = Some (PList l) /\
     ((default ∅ (s.(hidden_sets) !! k) <> ∅ /\
       exists v, v ∈ l /\ (number v \/ v = PNone)) \/
      (PNone ∈ l /\ exists v, v ∈ l /\ number v))) /\
  (strings_only s <->
   forall k l v, k ∈ type_order -> dict_get s.(hidden) k = Some (PList l) ->
     v ∈ l -> ~ (number v \/ v = PNone)) /\
  (strings_only s -> fst (save s) = Ok tt).
Proof.
  intros number.
  assert (Num : forall v, is_number v = true <-> number v).
  { intros v. unfold number. destruct v; simpl; split; eauto;
      try discriminate; intros [[? ?]|[[? ?]|[? ?]]]; discriminate. }
  assert (Nul : forall v, is_null v = true <-> v = PNone).
  { intros v. destruct v; simpl; split; trivial; discriminate. }
  assert (Mem : forall k v, v ∈ other_members s.(hidden) k <->
            exists l, dict_get s.(hidden) k = Some (PList l) /\ v ∈ l /\
                      (number v \/ v = PNone)).
  { intros k v. unfold other_members.
    destruct (dict_get (hidden s) k) as [[| | | | |l|]|];
      try (split; [intros H; now apply elem_of_nil in H
                  |intros (? & ? & _); discriminate]).
    rewrite list_elem_of_In, filter_In, <- list_elem_of_In, orb_true_iff,
      Num, Nul.
    split; [intros [? ?]; eauto|]. intros (l' & [= <-] & ? & ?). auto. }
  assert (HasNum : forall k, existsb is_number (other_members s.(hidden) k) = true
            <-> exists l v, dict_get s.(hidden) k = Some (PList l) /\ v ∈ l /\
                            number v).
  { intros k. rewrite existsb_exists. split.
    - intros (v & Hv%list_elem_of_In & Hn). apply Mem in Hv as (l & ? & ? & _).
      apply Num in Hn. eauto.
    - intros (l & v & Hl & Hv & Hn). exists v. split; [|now apply Num].
      apply list_elem_of_In, Mem. eauto. }
  assert (HasNull : forall k, existsb is_null (other_members s.(hidden) k) = true
            <-> exists l, dict_get s.(hidden) k = Some (PList l) /\ PNone ∈ l).
  { intros k. rewrite existsb_exists. split.
    - intros (v & Hv%list_elem_of_In & Hn). apply Nul in Hn as ->.
      apply Mem in Hv as (l & ? & ? & _). eauto.
    - intros (l & Hl & Hv). exists PNone. split; [|reflexivity].
      apply list_elem_of_In, Mem. eauto. }
  split; [apply save_state|].
  split; [unfold save; destruct (hidden_sortable s); auto|].
  split; [|split].
  - unfold save.
    destruct (hidden_sortable s) eqn:E; cbn [fst].
    + split; [discriminate|]. intros (k & l & Hk & Hl & Hc). exfalso.
      unfold hidden_sortable in E.
      apply (proj1 (forallb_forall _ _)) with (x := k) in E;
        [|now apply list_elem_of_In].
      unfold sortable in E. apply negb_true_iff in E.
      apply orb_false_iff in E as [E1 E2].
      destruct Hc as [[Hs (v & Hv & Hn)]|[Hn (v & Hv & Hw)]].
      * rewrite bool_decide_eq_false_2 in E1 by trivial. cbn [negb andb] in E1.
        apply orb_false_iff in E1 as [E1 E3].
        destruct Hn as [Hn| ->].
        -- rewrite (proj2 (HasNum k)) in E1 by eauto. discriminate.
        -- rewrite (proj2 (HasNull k)) in E3 by eauto. discriminate.
      * rewrite (proj2 (HasNum k)), (proj2 (HasNull k)) in E2 by eauto.
        discriminate.
    + split; [|trivial]. intros _.
      unfold hidden_sortable in E.
      assert (Hex : exists k, k ∈ type_order /\
                sortable (default ∅ (hidden_sets s !! k))
                         (other_members (hidden s) k) = false).
      { revert E. generalize type_order. intros l0.
        induction l0 as [|a l0 IH]; cbn [forallb]; intros E.
        - discriminate.
        - destruct (sortable _ (other_members _ a)) eqn:Ea.
          + cbn [andb] in E. destruct (IH E) as (k & Hk & Hs).
            exists k. split; [now right|trivial].
          + exists a. split; [now left|trivial]. }
      destruct Hex as (k & Hk & Hs). unfold sortable in Hs.
      apply negb_false_iff, orb_true_iff in Hs as [Hs|Hs].
      * apply andb_true_iff in Hs as [Hs1 Hs2].
        apply negb_true_iff, bool_decide_eq_false in Hs1.
        apply orb_true_iff in Hs2 as [Hs2|Hs2].
        -- apply HasNum in Hs2 as (l & v & Hl & Hv & Hn).
           exists k, l. split; [trivial|]. split; [trivial|]. left.
           split; [trivial|eauto].
        -- apply HasNull in Hs2 as (l & Hl & Hv).
           exists k, l. split; [trivial|]. split; [trivial|]. left.
           split; [trivial|eauto].
      * apply andb_true_iff in Hs as [Hs1 Hs2].
        apply HasNum in Hs1 as (l & v & Hl & Hv & Hn).
        apply HasNull in Hs2 as (l' & Hl' & Hv').
        assert (l' = l) by congruence. subst l'.
        exists k, l. split; [trivial|]. split; [trivial|]. right. eauto.
  - unfold strings_only. split.
    + intros H k l v Hk Hl Hv Hn.
      assert (Hm : v ∈ other_members (hidden s) k) by (apply Mem; eauto).
      rewrite (H k Hk) in Hm. now apply elem_of_nil in Hm.
    + intros H k Hk.
      destruct (other_members (hidden s) k) as [|v l'] eqn:E; trivial.
      exfalso. assert (Hm : v ∈ other_members (hidden s) k)
        by (rewrite E; now left).
      apply Mem in Hm as (l & Hl & Hv & Hn). exact (H k l v Hk Hl Hv Hn).
  - intros H. now rewrite save_strings.
Qed.

End FurtherTwo.

(* ================================================================== *)
(** ** The further properties at concrete inputs *)

(** The default settings of [overlay_typed] are complete. *)
Lemma overlay_typed_ok k :
  k ∈ type_order -> type_ok overlay_typed.(types) k.
Proof.
  unfold type_order. intros Hk.
  repeat (apply elem_of_cons in Hk as [->|Hk];
          [eexists; split; [reflexivity|split; reflexivity]|]).
  now apply elem_of_nil in Hk.
Qed.

(** Witness of X6: [(100, 200)] and [(100.25, 199.75)] under [towers]
    share the identity ["100:200"], and round alike. *)
Lemma hidden_key_injective_witness :
  hidden_key "towers" pt_100_200 = Ok "100:200" /\
  hidden_key "towers" pt_near_100_200 = Ok "100:200" /\
  py_round pt_100_200.(pt_x) = py_round pt_near_100_200.(pt_x) /\
  py_round pt_100_200.(pt_y) = py_round pt_near_100_200.(pt_y) /\
  ("towers" = "possible_xp" ->
   pt_100_200.(pt_src) = pt_near_100_200.(pt_src)).
Proof.
  split; [reflexivity|]. split; [reflexivity|].
  apply (hidden_key_injective "towers" pt_100_200 pt_near_100_200 "100:200").
  - discriminate.
  - reflexivity.
  - reflexivity.
Defined.

(** Witness of X9: the two tower points, the pointer at the origin. *)
Lemma hit_test_sound_witness :
  let pts : gmap string (list point) := {["towers" := [pt_right; pt_below]]} in
  let r := mkQRect 0 0 4096 4096 in
  let h := mkHover "DeSalle" "towers" 0 pt_right in
  hit_test [] ∅ pts "DeSalle" 0 0 r 10 = Ok (Some h) /\
  (d2 0 0 r h <=? Z2float (10 * 10))%float = true /\
  h.(h_map) = "DeSalle" /\ h.(h_type) ∈ type_order /\
  type_enabled [] h.(h_type) = Ok true /\
  default [] (pts !! h.(h_type)) !! h.(h_index) = Some h.(h_pt_ref) /\
  is_hidden ∅ h.(h_type) h.(h_pt_ref) = Ok false.
Proof.
  intros pts r h. split; [vm_compute; reflexivity|].
  apply (hit_test_sound [] ∅ pts "DeSalle" 0 0 r 10 h).
  vm_compute. reflexivity.
Defined.

(** Witness of X10: [overlay_on] through a tick with the chord down. *)
Lemma run_keeps_selected_map_witness :
  overlay_on.(prof) ∈ MAPS /\
  (run square_rect [keys_chord] overlay_on).(prof) ∈ MAPS /\
  forall name, (snd (switch square_rect name overlay_on)).(prof) ∈ MAPS.
Proof.
  assert (H : overlay_on.(prof) ∈ MAPS)
    by (apply (bool_decide_unpack _); vm_compute; exact I).
  split; [exact H|].
  apply (run_keeps_selected_map square_rect [keys_chord] overlay_on H).
Defined.

(** Witness of X11: [overlay_on] (visible, master on) through a tick
    with Tab down. *)
Lemma run_visible_implies_master_witness :
  (overlay_on.(visible) = true -> overlay_on.(master) = true) /\
  ((run square_rect [keys_tab] overlay_on).(visible) = true ->
   (run square_rect [keys_tab] overlay_on).(master) = true).
Proof.
  split; [intros _; reflexivity|].
  apply (run_visible_implies_master square_rect [keys_tab] overlay_on).
  intros _. reflexivity.
Defined.

(** Witness of X12: [overlay_on] has no hover; after a tick that hovers
    and a tick that hides, the hover is not a hidden point. *)
Lemma run_hover_never_hidden_witness :
  strings_only overlay_on /\ hover_shown overlay_on /\
  strings_only (run square_rect [keys_up; keys_chord] overlay_on) /\
  hover_shown (run square_rect [keys_up; keys_chord] overlay_on).
Proof.
  assert (H : hover_shown overlay_on) by (intros h Hh; discriminate Hh).
  split; [exact overlay_on_strings|]. split; [exact H|].
  apply (run_hover_never_hidden square_rect [keys_up; keys_chord] overlay_on
           overlay_on_strings H).
Defined.

(** Without the condition of X12: from [overlay_mixed] the tick with
    the chord down hides the hovered point, [_save] raises, and the
    hover stays on the point just hidden. *)
Example hover_on_hidden_when_save_raises :
  let s1 := tick_safe square_rect keys_chord overlay_mixed in
  hover_shown overlay_mixed /\
  s1.(hover) = Some (mkHover "DeSalle" "towers" 0 pt_right) /\
  is_hidden s1.(hidden_sets) "towers" pt_right = Ok true.
Proof.
  split; [intros h Hh; discriminate Hh|]. split; vm_compute; reflexivity.
Qed.

(** Witness of X17: a file that only sets [master_on]. *)
Lemma load_config_settings_merge_witness :
  let st0 := [("master_on", PBool false)] in
  let d := [("settings", PDict st0)] in
  dict_get d "settings" = Some (PDict st0) /\ NoDup st0.*1 /\
  exists data, load_config (Some (PDict d)) = Ok data /\
    exists st, dict_get data "settings" = Some (PDict st) /\
      forall k, dict_get st k
                = match dict_get st0 k with
                  | Some v => Some v
                  | None => dict_get base_settings k
                  end.
Proof.
  intros st0 d.
  assert (Hnd : NoDup st0.*1) by apply NoDup_singleton.
  split; [reflexivity|]. split; [exact Hnd|].
  eexists. split; [reflexivity|].
  apply (load_config_settings_merge d st0 _ eq_refl Hnd eq_refl).
Defined.


(** Witness of X19: the painting of [overlay_typed]. *)
Lemma paint_draws_candidates_witness :
  exists es,
    paint (fun _ => 6%Z) overlay_typed = Ok es /\
    drawn_point <$> es
      = (if (overlay_typed.(master) && overlay_typed.(visible)
             && bool_decide (is_Some overlay_typed.(rect)))%bool
         then hover_point <$> candidates overlay_typed.(types)
                overlay_typed.(hidden_sets)
                (default ∅ (overlay_typed.(cache) !! overlay_typed.(prof)))
                overlay_typed.(prof)
         else []) /\
    Forall (fun e =>
              (1 <= e.(e_r) <= 40)%Z /\
              exists r, overlay_typed.(rect) = Some r /\
                e.(e_cx) = (Z2float r.(rect_left)
                            + e.(e_pt).(pt_u) * Z2float r.(rect_width))%float /\
                e.(e_cy) = (Z2float r.(rect_top)
                            + e.(e_pt).(pt_v) * Z2float r.(rect_height))%float)
           es.
Proof.
  eexists. split; [vm_compute; reflexivity|].
  apply (paint_draws_candidates (fun _ => 6%Z) overlay_typed).
  vm_compute. reflexivity.
Defined.

(** Witness of X20: the overlay with a NaN scale, [towers] being
    enabled. *)
Lemma paint_raises_on_nan_scale_witness :
  PyFloat.sf_nan (Prim2SF overlay_nan.(global_scale)) = true /\
  overlay_nan.(master) = true /\ overlay_nan.(visible) = true /\
  is_Some overlay_nan.(rect) /\ "towers" ∈ type_order /\
  type_enabled overlay_nan.(types) "towers" <> Ok false /\
  exists e, paint (fun _ => 6%Z) overlay_nan = Raise e.
Proof.
  assert (Hr : is_Some overlay_nan.(rect)) by (eexists; reflexivity).
  assert (Hk : "towers" ∈ type_order)
    by (apply (bool_decide_unpack _); vm_compute; exact I).
  assert (He : type_enabled overlay_nan.(types) "towers" <> Ok false)
    by discriminate.
  split; [reflexivity|]. split; [reflexivity|]. split; [reflexivity|].
  split; [exact Hr|]. split; [exact Hk|]. split; [exact He|].
  apply (paint_raises_on_nan_scale (fun _ => 6%Z) overlay_nan "towers"
           eq_refl eq_refl eq_refl Hr Hk He).
Defined.

(** Witness of X21: the pointer at the origin over [overlay_typed]. *)
Lemma hovered_is_painted_witness :
  exists h es,
    (snd (update_hover 0 0 overlay_typed)).(hover) = Some h /\
    paint (fun _ => 6%Z) (snd (update_hover 0 0 overlay_typed)) = Ok es /\
    exists e, e ∈ es /\ drawn_point e = hover_point h.
Proof.
  eexists _, _. split; [vm_compute; reflexivity|].
  split; [vm_compute; reflexivity|].
  apply (hovered_is_painted (fun _ => 6%Z) 0 0 overlay_typed);
    vm_compute; reflexivity.
Defined.

(** Witness of X25: [towers] switched off, with two tower points and
    an armory point. *)
Lemma disabled_category_unseen_witness :
  let pts : gmap string (list point) :=
    {["towers" := [pt_right; pt_below]; "armories" := [pt_right]]} in
  let r := mkQRect 0 0 4096 4096 in
  type_enabled towers_off "towers" = Ok false /\
  (forall h, hit_test towers_off ∅ pts "DeSalle" 0 0 r 10 = Ok (Some h) ->
     h.(h_type) <> "towers") /\
  (forall es, paint_types (fun _ => 6%Z) towers_off ∅ pts r 1 type_order
              = Ok es ->
     Forall (fun e => e.(e_type) <> "towers") es).
Proof.
  intros pts r. split; [reflexivity|].
  apply (disabled_category_unseen (fun _ => 6%Z) towers_off ∅ pts "DeSalle"
           "towers" 0 0 1 r 10).
  reflexivity.
Defined.

(** The hidden lists of [overlay_typed] hold no member at all. *)
Lemma overlay_typed_strings : strings_only overlay_typed.
Proof. intros k _. reflexivity. Qed.

(** Witness of X27: the reset of [overlay_typed]. *)
Lemma reset_colors_outcome_witness :
  (forall k, k ∈ type_order -> type_ok overlay_typed.(types) k) /\
  strings_only overlay_typed /\
  exists ty,
    reset_colors grey_fill overlay_typed = (Ok tt, set_types ty overlay_typed) /\
    (forall k, k ∈ type_order ->
       reset_ok grey_fill ty k /\ type_enabled ty k = Ok true) /\
    (forall k, k ∉ type_order ->
       dict_get ty k = dict_get overlay_typed.(types) k).
Proof.
  split; [exact overlay_typed_ok|]. split; [exact overlay_typed_strings|].
  destruct (reset_colors_outcome grey_fill overlay_typed overlay_typed_ok)
    as (ty & _ & H1 & H2 & H3).
  exists ty. split; [exact (H1 overlay_typed_strings)|]. split; assumption.
Defined.

(** [_reset_colors] on [overlay_mixed] with complete settings: the
    settings are reset and [_save] raises. *)
Example reset_colors_raises_on_mixed_set :
  let s := set_types overlay_typed.(types) overlay_mixed in
  fst (reset_colors grey_fill s) = Raise TypeError /\
  (snd (reset_colors grey_fill s)).(types) = overlay_typed.(types).
Proof. split; vm_compute; reflexivity. Qed.

(** Witness of X28: [overlay_typed] saved into the default
    configuration. *)
Lemma save_then_reload_witness :
  load_config None = Ok base_config /\
  (forall k, k ∈ type_order -> type_ok overlay_typed.(types) k) /\
  strings_only overlay_typed /\
  fst (save overlay_typed) = Ok tt /\
  ((exists saved, save_config (fun l => l) base_config overlay_typed = Ok saved)
   <-> fst (save overlay_typed) = Ok tt) /\
  exists saved data2 st2 profiles profiles2 hs2,
    save_config (fun l => l) base_config overlay_typed = Ok saved /\
    load_config (Some (PDict saved)) = Ok data2 /\
    dict_get base_config "profiles" = Some (PDict profiles) /\
    dict_get data2 "profiles" = Some (PDict profiles2) /\
    (forall m, m ∈ MAPS -> dict_get profiles2 m = dict_get profiles m) /\
    dict_get data2 "settings" = Some (PDict st2) /\
    truthy (default (PBool true) (dict_get st2 "enable_num_switch"))
      = overlay_typed.(num_sw) /\
    (overlay_typed.(prof) ∈ MAPS -> init_prof st2 = overlay_typed.(prof)) /\
    truthy (default (PBool false) (dict_get st2 "visible_overlay"))
      = overlay_typed.(visible) /\
    truthy (default (PBool true) (dict_get st2 "master_on"))
      = overlay_typed.(master) /\
    init_global_scale no_float_literal st2
      = Ok (clamp_scale overlay_typed.(global_scale)) /\
    init_types grey_fill st2 = Ok overlay_typed.(types) /\
    init_hidden_sets (init_hidden st2) = Ok hs2 /\
    forall k, k ∈ type_order ->
      hs2 !! k = Some (default ∅ (overlay_typed.(hidden_sets) !! k)).
Proof.
  split; [reflexivity|]. split; [exact overlay_typed_ok|].
  split; [exact overlay_typed_strings|]. split; [vm_compute; reflexivity|].
  destruct (save_then_reload no_float_literal (fun l => l) None base_config
              overlay_typed grey_fill eq_refl) as [H1 H2].
  split; [exact H1|]. exact (H2 overlay_typed_ok overlay_typed_strings).
Defined.

(** [_save] on [overlay_mixed]: the assignments raise, and nothing is
    written. *)
Example save_config_raises_on_mixed_set :
  save_config (fun l => l) base_config overlay_mixed = Raise TypeError.
Proof. vm_compute. reflexivity. Qed.

(** Witness of X30: the hidden set of [towers] of [overlay_mixed] holds
    the string of its list beside the number, and [_save] raises. *)
Lemma save_outcome_witness :
  let number := fun v : pyval =>
    (exists b, v = PBool b) \/ (exists n, v = PInt n) \/
    (exists f, v = PFloat f) in
  save overlay_mixed = (Raise TypeError, overlay_mixed) /\
  save overlay_on = (Ok tt, overlay_on) /\
  snd (save overlay_mixed) = overlay_mixed /\
  (fst (save overlay_mixed) = Ok tt \/
   fst (save overlay_mixed) = Raise TypeError) /\
  (fst (save overlay_mixed) = Raise TypeError <->
   exists k l, k ∈ type_order /\
     dict_get overlay_mixed.(hidden) k = Some (PList l) /\
     ((default ∅ (overlay_mixed.(hidden_sets) !! k) <> ∅ /\
       exists v, v ∈ l /\ (number v \/ v = PNone)) \/
      (PNone ∈ l /\ exists v, v ∈ l /\ number v))) /\
  (strings_only overlay_mixed <->
   forall k l v, k ∈ type_order ->
     dict_get overlay_mixed.(hidden) k = Some (PList l) ->
     v ∈ l -> ~ (number v \/ v = PNone)) /\
  (strings_only overlay_mixed -> fst (save overlay_mixed) = Ok tt).
Proof.
  intros number.
  split; [vm_compute; reflexivity|]. split; [vm_compute; reflexivity|].
  apply (save_outcome overlay_mixed).
Defined.

(** Start-up accepts a hidden list that holds a string and a number:
    the set it builds holds both, and the first [_save] raises. *)
Example start_with_mixed_hidden :
  exists s,
    init no_float_literal square_rect grey_specs sample_data PNone
      (Some (PDict [("settings",
                     PDict [("hidden",
                             PDict [("towers",
                                     PList [PStr "a"; PInt 1])])])]))
    = Ok s /\
    s.(hidden_sets) !! "towers" = Some {["a"]} /\
    other_members s.(hidden) "towers" = [PInt 1] /\
    fst (save s) = Raise TypeError.
Proof. eexists. repeat split; vm_compute; reflexivity. Qed.
